(** * CopyFilesOverSSHV0: file selection and copy orchestration

    A shallow embedding of [Tasks/CopyFilesOverSSHV0/copyfilesoverssh.ts]:
    the pattern classifier and selection engine ([getFilesToCopy]), the
    remote clean-up command builder ([getCleanTargetFolderCmd]) and the
    orchestrator ([run]).

    Conventions.
    - A JavaScript string is a [string]; every [ascii] stands for one
      UTF-16 code unit below 256.
    - The libraries the task calls (Node's [path] and [os], [minimatch],
      the task library [tl], the [SshHelper] class) are not part of the
      file under study.  They are gathered in records of operations
      ([Host], [Remote]) over which every definition is parametrised.
    - [tl.debug] output is not part of the model; console output,
      warnings, errors, the task result and every call made on the SSH
      helper are recorded in an event log.
    - A function of the script that can throw returns an [Outcome]. *)

From stdpp Require Import gmap strings list.
From Stdlib Require Import Ascii String Bool Arith Lia.

Local Open Scope string_scope.
Local Open Scope list_scope.

(** ** JavaScript strings *)

Module JsString.

(** The code units below 256 that [String.prototype.trim] strips:
    TAB, LF, VT, FF, CR, SPACE and NO-BREAK SPACE. *)
Definition isWhiteSpace (c : ascii) : bool :=
  let n := nat_of_ascii c in
  ((9 <=? n)%nat && (n <=? 13)%nat) || (n =? 32)%nat || (n =? 160)%nat.

Definition isEmpty (s : string) : bool :=
  match s with EmptyString => true | String _ _ => false end.

Fixpoint trimStart (s : string) : string :=
  match s with
  | EmptyString => EmptyString
  | String c r => if isWhiteSpace c then trimStart r else s
  end.

Fixpoint trimEnd (s : string) : string :=
  match s with
  | EmptyString => EmptyString
  | String c r =>
      let r' := trimEnd r in
      if isWhiteSpace c && isEmpty r' then EmptyString else String c r'
  end.

(** [s.trim()] *)
Definition trim (s : string) : string := trimEnd (trimStart s).

(** [s.substring(start, end)]: both indices are clamped to the length
    and swapped when out of order. *)
Definition substring (s : string) (start stop : nat) : string :=
  let len := String.length s in
  let a := Nat.min start len in
  let b := Nat.min stop len in
  String.substring (Nat.min a b) (Nat.max a b - Nat.min a b) s.

(** [s.substring(start)] *)
Definition substringFrom (s : string) (start : nat) : string :=
  substring s start (String.length s).

(** [s.replace(/^c/g, "")] for a single literal character [c]: the
    pattern is anchored, so at most the first character goes. *)
Definition stripLeading (c : ascii) (s : string) : string :=
  match s with
  | String d r => if Ascii.eqb d c then r else s
  | EmptyString => EmptyString
  end.

(** [s.replace(/^~\//, "./")] *)
Definition replaceHomePrefix (s : string) : string :=
  match s with
  | String "~" (String "/" r) => String "." (String "/" r)
  | _ => s
  end.

End JsString.

(** ** Values that are thrown, and outcomes *)

(** A value that is logged or thrown: a string, a number, or a
    localised message [tl.loc(key, args...)] with the zero, one or two
    arguments the task passes.  An [Error] object stands as the text
    that it shows. *)
Inductive Msg : Type :=
| Text (s : string)
| Count (n : nat)
| Loc0 (key : string)
| Loc1 (key : string) (arg : Msg)
| Loc2 (key : string) (arg1 arg2 : Msg).

Inductive Outcome (A : Type) : Type :=
| Returned (a : A)
| Threw (err : Msg).

Arguments Returned {A} a.
Arguments Threw {A} err.

(** [for (const x of l) { body }] over a state [S]: the loop ends with
    the first turn that throws. *)
Fixpoint forEach {S A : Type} (body : S -> A -> Outcome S) (l : list A)
    (st : S) : Outcome S :=
  match l with
  | [] => Returned st
  | x :: rest =>
      match body st x with
      | Returned st' => forEach body rest st'
      | Threw err => Threw err
      end
  end.

(** ** The host environment *)

(** The two functions of Node's [path] module that the task uses. *)
Record PathModule : Type := {
  join : string -> string -> string;
  basename : string -> string
}.

(** [tl.MatchOptions], restricted to the fields the task sets. *)
Record MatchOptions : Type := {
  matchBase : bool;
  dot : bool;
  nocase : bool
}.

(** What the task obtains from the machine and the runtime it runs on. *)
Record Host : Type := {
  (** [path], in the flavour of the host operating system *)
  path : PathModule;
  (** [path.posix] *)
  path_posix : PathModule;
  (** [os.platform()] *)
  platform : string;
  (** [tl.find(root)] *)
  find : string -> list string;
  (** [tl.stats(p).isDirectory()] *)
  isDirectory : string -> bool;
  (** [tl.exist(p)], the check inside [tl.getPathInput] *)
  exist : string -> bool;
  (** [parseInt(s, 10)]; [None] is [NaN] *)
  parseInt10 : string -> option Z;
  (** [minimatch(file, pattern, options)] for one path *)
  minimatch : string -> string -> MatchOptions -> bool
}.

(** ** Pattern classification (lines 16-38) *)

Inductive Classified : Type :=
| IncludePattern (realPattern : string)
| ExcludePattern (realPattern : string).

(** The inner loop: walk over the leading ['!'] characters, toggling
    [negate] and counting, and stop at the first other character. *)
Fixpoint scanNegations (pattern : string) (negate : bool)
    (numberOfNegations : nat) : bool * nat :=
  match pattern with
  | String c rest =>
      if Ascii.eqb c "!"
      then scanNegations rest (negb negate) (S numberOfNegations)
      else (negate, numberOfNegations)
  | EmptyString => (negate, numberOfNegations)
  end.

Record Filters : Type := {
  includeContents : list string;
  excludeContents : list string
}.

Definition noFilters : Filters :=
  {| includeContents := []; excludeContents := [] |}.

Section Classifier.

Variable host : Host.

(** The body of the outer loop, for one trimmed pattern. *)
Definition classifyPattern (sourceFolder pattern : string) : Classified :=
  let '(negate, numberOfNegations) := scanNegations pattern false 0 in
  if negate then
    ExcludePattern
      (JsString.substring pattern 0 numberOfNegations
       +:+ join (path host) sourceFolder
             (JsString.substringFrom pattern numberOfNegations))
  else
    IncludePattern (join (path host) sourceFolder pattern).

Definition pushClassified (acc : Filters) (c : Classified) : Filters :=
  match c with
  | ExcludePattern realPattern =>
      {| includeContents := includeContents acc;
         excludeContents := excludeContents acc ++ [realPattern] |}
  | IncludePattern realPattern =>
      {| includeContents := includeContents acc ++ [realPattern];
         excludeContents := excludeContents acc |}
  end.

(** [for (const pattern of contents.map(x => x.trim())) ...] *)
Definition classifyContents (sourceFolder : string)
    (contents : list string) : Filters :=
  fold_left
    (fun acc pattern => pushClassified acc (classifyPattern sourceFolder pattern))
    (map JsString.trim contents) noFilters.

End Classifier.

(** ** Selection (lines 40-99) *)

(** [minimatch.match(paths, pattern, options)]: the task never sets
    [nonull], so the library call is a plain filter of [paths] by the
    one-path matcher. *)
Definition minimatch_match (host : Host) (paths : list string)
    (pattern : string) (options : MatchOptions) : list string :=
  List.filter (fun f => minimatch host f pattern options) paths.

(** Lines 63-66. *)
Definition matchOptions (host : Host) : MatchOptions :=
  {| matchBase := true; dot := true;
     nocase := String.eqb (platform host) "win32" |}.

(** Lines 41-50: every path under the source folder that is not a
    directory. *)
Definition enumerateFiles (host : Host) (sourceFolder : string) : list string :=
  fold_left
    (fun allFiles p => if negb (isDirectory host p) then allFiles ++ [p] else allFiles)
    (find host sourceFolder) [].

(** Lines 52-55. *)
Definition addIncludeAll (f : Filters) : Filters :=
  if (List.length (includeContents f) =? 0)%nat
     && (0 <? List.length (excludeContents f))%nat
  then {| includeContents := includeContents f ++ ["**"];
          excludeContents := excludeContents f |}
  else f.

(** *** The object [pathsSeen]

    [pathsSeen] (line 60) is a plain object made by [{}]: it holds the
    properties written to it, its own properties, and inherits the rest
    from [Object.prototype].  It is modelled by the finite map of its
    own properties.  Two keys do not behave like the others.
    - [pathsSeen.hasOwnProperty] is looked up among the own properties
      first.  Once a path [hasOwnProperty] has been written, the
      property holds [true], and calling it throws a [TypeError].
    - [__proto__] is an accessor of [Object.prototype].  Assigning to
      it calls the setter, which ignores a value that is neither an
      object nor [null]: no own property is made. *)

(** The [TypeError] of calling [true]. *)
Definition notAFunction : Msg :=
  Text "TypeError: pathsSeen.hasOwnProperty is not a function".

(** [o.hasOwnProperty(key)] *)
Definition hasOwnProperty (o : gmap string bool) (key : string) : Outcome bool :=
  match o !! "hasOwnProperty" with
  | Some _ => Threw notAFunction
  | None =>
      Returned match o !! key with
               | Some _ => true
               | None => false
               end
  end.

(** [o[key] = true] *)
Definition setProperty (o : gmap string bool) (key : string) :
    gmap string bool :=
  if String.eqb key "__proto__" then o else <[key := true]> o.

(** The state of the include loop: the object [pathsSeen] and the array
    [files]. *)
Record IncludeState : Type := {
  pathsSeen : gmap string bool;
  files : list string
}.

Definition includeStart : IncludeState :=
  {| pathsSeen := ∅; files := [] |}.

(** Lines 76-81, for one element of [matches]. *)
Definition recordMatch (st : IncludeState) (matchPath : string) :
    Outcome IncludeState :=
  match hasOwnProperty (pathsSeen st) matchPath with
  | Threw err => Threw err
  | Returned true => Returned st
  | Returned false =>
      Returned {| pathsSeen := setProperty (pathsSeen st) matchPath;
                  files := files st ++ [matchPath] |}
  end.

(** Lines 69-82, for one include pattern. *)
Definition applyInclude (host : Host) (allFiles : list string)
    (st : IncludeState) (pattern : string) : Outcome IncludeState :=
  let matches := minimatch_match host allFiles pattern (matchOptions host) in
  forEach recordMatch matches st.

Definition includePhase (host : Host) (allFiles includes : list string) :
    Outcome (list string) :=
  match forEach (applyInclude host allFiles) includes includeStart with
  | Returned st => Returned (files st)
  | Threw err => Threw err
  end.

(** Lines 85-96, for one exclude pattern: the matches among the current
    [files] replace [files]. *)
Definition applyExclude (host : Host) (files : list string)
    (pattern : string) : list string :=
  let matches := minimatch_match host files pattern (matchOptions host) in
  fold_left (fun files matchPath => files ++ [matchPath]) matches [].

Definition excludePhase (host : Host) (files excludes : list string) : list string :=
  fold_left (applyExclude host) excludes files.

(** [getFilesToCopy(sourceFolder, contents)]: the array it returns, or
    the error that the include loop throws. *)
Definition getFilesToCopy (host : Host) (sourceFolder : string)
    (contents : list string) : Outcome (list string) :=
  let classified := classifyContents host sourceFolder contents in
  let allFiles := enumerateFiles host sourceFolder in
  let filters := addIncludeAll classified in
  match includePhase host allFiles (includeContents filters) with
  | Returned files => Returned (excludePhase host files (excludeContents filters))
  | Threw err => Threw err
  end.

(** ** Remote clean-up command (lines 106-114) *)

(** The double-quote character. *)
Definition dq : string := String (ascii_of_nat 34) EmptyString.

(** [getCleanTargetFolderCmd(targetFolder)]; [isWindowsOnTarget] is the
    boolean task input the function reads. *)
Definition getCleanTargetFolderCmd (isWindowsOnTarget : bool)
    (targetFolder : string) : string :=
  if isWindowsOnTarget then
    "del /q " +:+ dq +:+ targetFolder +:+ "\*" +:+ dq
    +:+ " && FOR /D %p IN (" +:+ dq +:+ targetFolder +:+ "\*.*" +:+ dq
    +:+ ") DO rmdir " +:+ dq +:+ "%p" +:+ dq +:+ " /s /q"
  else
    "bash -c " +:+ dq +:+ "rm -rf '" +:+ targetFolder +:+ "'/*" +:+ dq.

(** ** Events *)

Inductive SshAuth : Type :=
| AuthPrivateKey (privateKey : string) (passphrase : option string)
| AuthPassword (password : option string).

(** The object [sshConfig] (lines 136-157); [None] for the time-out is
    [NaN]. *)
Record SshConfig : Type := {
  cfg_host : string;
  cfg_port : string;
  cfg_username : string;
  cfg_auth : SshAuth;
  cfg_readyTimeout : option Z
}.

Inductive Event : Type :=
| ConsoleLog (m : Msg)
| TlError (m : Msg)
| TlWarning (m : Msg)
| SetResultFailed (m : Msg)
| SshSetupConnection (cfg : SshConfig)
| SshRunCommand (cmd : string)
| SshCheckRemotePathExists (remotePath : string)
| SshUploadFile (sourcePath targetPath : string)
| SshCloseConnection.

(** The methods of [SshHelper] that the task calls, over a state [W] of
    the connection and the remote machine.  A rejected promise is
    [Threw]. *)
Record Remote (W : Type) : Type := {
  setupConnection : SshConfig -> W -> Outcome unit * W;
  runCommandOnRemoteMachine : string -> W -> Outcome string * W;
  checkRemotePathExists : string -> W -> Outcome bool * W;
  uploadFile : string -> string -> W -> Outcome string * W;
  closeConnection : W -> W
}.

Arguments setupConnection {W} _ _ _.
Arguments runCommandOnRemoteMachine {W} _ _ _.
Arguments checkRemotePathExists {W} _ _ _.
Arguments uploadFile {W} _ _ _ _.
Arguments closeConnection {W} _ _.

(** The task inputs, as the task library hands them over.  [None] is an
    input that was not supplied. *)
Record Inputs : Type := {
  (** [tl.getInput('sshEndpoint', true)] *)
  in_sshEndpoint : option string;
  (** [tl.getEndpointAuthorizationParameter(sshEndpoint, 'username', false)] *)
  in_username : option string;
  (** [tl.getEndpointAuthorizationParameter(sshEndpoint, 'password', true)] *)
  in_password : option string;
  (** [process.env['ENDPOINT_DATA_' + sshEndpoint + '_PRIVATEKEY']] *)
  in_privateKey : option string;
  (** [tl.getEndpointDataParameter(sshEndpoint, 'host', false)] *)
  in_host : option string;
  (** [tl.getEndpointDataParameter(sshEndpoint, 'port', true)] *)
  in_port : option string;
  (** [tl.getInput('readyTimeout', true)] *)
  in_readyTimeout : option string;
  (** [tl.getDelimitedInput('contents', '\n', true)] *)
  in_contents : option (list string);
  (** [tl.getPathInput('sourceFolder', true, true)] *)
  in_sourceFolder : option string;
  (** [tl.getInput('targetFolder')] *)
  in_targetFolder : option string;
  in_cleanTargetFolder : bool;
  in_overwrite : bool;
  in_failOnEmptySource : bool;
  in_flattenFolders : bool;
  in_isWindowsOnTarget : bool
}.

(** The constants that [run] has read from the inputs by line 179. *)
Record Settings : Type := {
  sshConfig : SshConfig;
  contents : list string;
  sourceFolder : string;
  targetFolder : string;
  cleanTargetFolder : bool;
  overwrite : bool;
  failOnEmptySource : bool;
  flattenFolders : bool;
  isWindowsOnTarget : bool
}.

(** What the script holds while it runs: the remote side, the local
    variable [sshHelper] (undefined until line 182) and the log. *)
Record TaskState (W : Type) : Type := {
  world : W;
  sshHelper : option SshConfig;
  events : list Event
}.

Arguments world {W} _.
Arguments sshHelper {W} _.
Arguments events {W} _.

(** The values [filesToCopy] could hold in JavaScript, and the test
    [if (filesToCopy)]. *)
Inductive JsValue : Type :=
| JsUndefined
| JsNull
| JsArray (elements : list string).

Definition ToBoolean (v : JsValue) : bool :=
  match v with
  | JsUndefined | JsNull => false
  | JsArray _ => true
  end.

(** A string is truthy when it is present and not empty. *)
Definition truthy (v : option string) : bool :=
  match v with
  | Some s => negb (JsString.isEmpty s)
  | None => false
  end.

(** ** The orchestrator (lines 116-253) *)

Section Orchestrator.

Context {W : Type}.
Variable host : Host.
Variable remote : Remote W.

(** A computation of the script: it reads and updates the task state
    and either returns a value or throws. *)
Definition Task (A : Type) : Type := TaskState W -> Outcome A * TaskState W.

#[local] Instance task_ret : MRet Task :=
  fun A a st => (Returned a, st).

#[local] Instance task_bind : MBind Task :=
  fun A B k c st =>
    match c st with
    | (Returned a, st') => k a st'
    | (Threw err, st') => (Threw err, st')
    end.

Definition throw {A : Type} (err : Msg) : Task A :=
  fun st => (Threw err, st).

(** A call of a function of the script that leaves the task state
    alone: it returns or throws what the function does. *)
Definition call {A : Type} (result : Outcome A) : Task A :=
  fun st => (result, st).

(** [try { body } catch (err) { handler }] *)
Definition tryCatch {A : Type} (body : Task A) (handler : Msg -> Task A) : Task A :=
  fun st =>
    match body st with
    | (Returned a, st') => (Returned a, st')
    | (Threw err, st') => handler err st'
    end.

(** [try { body } finally { cleanup }] *)
Definition tryFinally {A : Type} (body : Task A) (cleanup : Task unit) : Task A :=
  fun st =>
    let '(r, st') := body st in
    match cleanup st' with
    | (Returned _, st'') => (r, st'')
    | (Threw err, st'') => (Threw err, st'')
    end.

Definition emit (e : Event) : Task unit :=
  fun st =>
    (Returned tt,
     {| world := world st; sshHelper := sshHelper st; events := events st ++ [e] |}).

(** A call on the SSH helper: logged, then run on the remote side. *)
Definition callRemote {A : Type} (e : Event) (op : W -> Outcome A * W) : Task A :=
  fun st =>
    let '(r, w') := op (world st) in
    (r, {| world := w'; sshHelper := sshHelper st; events := events st ++ [e] |}).

(** [sshHelper = new SshHelper(sshConfig)] *)
Definition newSshHelper (cfg : SshConfig) : Task unit :=
  fun st =>
    (Returned tt,
     {| world := world st; sshHelper := Some cfg; events := events st |}).

Definition readSshHelper : Task (option SshConfig) :=
  fun st => (Returned (sshHelper st), st).

(** A required input: the task library throws when it is missing. *)
Definition required (err : Msg) (v : option string) : Task string :=
  match v with
  | Some s => if JsString.isEmpty s then throw err else mret s
  | None => throw err
  end.

(** An optional input: a missing value and the empty string are both
    falsy. *)
Definition optional (v : option string) : option string :=
  if truthy v then v else None.

(** [getReadyTimeoutVariable()] (lines 262-267) *)
Definition getReadyTimeoutVariable (inputs : Inputs) : Task (option Z) :=
  readyTimeoutString ← required (Loc1 "LIB_InputRequired" (Text "readyTimeout"))
                                (in_readyTimeout inputs);
  mret (parseInt10 host readyTimeoutString).

(** Lines 210-217. *)
Definition relativePathOf (flattenFolders : bool)
    (sourceFolder fileToCopy : string) : string :=
  if flattenFolders then basename (path host) fileToCopy
  else
    JsString.stripLeading "/"
      (JsString.stripLeading "\"
         (JsString.substringFrom fileToCopy (String.length sourceFolder))).

(** Line 219. *)
Definition targetPathOf (flattenFolders : bool)
    (sourceFolder targetFolder fileToCopy : string) : string :=
  join (path_posix host) targetFolder
    (relativePathOf flattenFolders sourceFolder fileToCopy).

(** Lines 208-229: the body of the [try] for one file. *)
Definition copyFile (flattenFolders overwrite : bool)
    (sourceFolder targetFolder fileToCopy : string) : Task unit :=
  let targetPath := targetPathOf flattenFolders sourceFolder targetFolder fileToCopy in
  emit (ConsoleLog (Loc2 "StartedFileCopy" (Text fileToCopy) (Text targetPath)));;
  (if negb overwrite then
     fileExists ← callRemote (SshCheckRemotePathExists targetPath)
                    (checkRemotePathExists remote targetPath);
     if (fileExists : bool) then throw (Loc1 "FileExists" (Text targetPath))
     else mret tt
   else mret tt);;
  callRemote (SshUploadFile fileToCopy targetPath)
    (uploadFile remote fileToCopy targetPath);;
  mret tt.

(** Lines 206-234: the loop, threading [failureCount]. *)
Fixpoint copyLoop (flattenFolders overwrite : bool)
    (sourceFolder targetFolder : string) (filesToCopy : list string)
    (failureCount : nat) : Task nat :=
  match filesToCopy with
  | [] => mret failureCount
  | fileToCopy :: rest =>
      failureCount' ←
        tryCatch
          (copyFile flattenFolders overwrite sourceFolder targetFolder fileToCopy;;
           mret failureCount)
          (fun err =>
             emit (TlError (Loc2 "FailedOnFile" (Text fileToCopy) err));;
             mret (S failureCount));
      copyLoop flattenFolders overwrite sourceFolder targetFolder rest failureCount'
  end.

Definition arrayElements (v : JsValue) : list string :=
  match v with
  | JsArray elements => elements
  | JsUndefined | JsNull => []
  end.

(** Lines 121-179: the inputs are read and checked; nothing is sent to
    the remote side yet. *)
Definition readInputs (inputs : Inputs) : Task Settings :=
  sshEndpoint ← required (Loc1 "LIB_InputRequired" (Text "sshEndpoint"))
                         (in_sshEndpoint inputs);
  username ← required (Loc1 "LIB_EndpointAuthNotExist" (Text sshEndpoint))
                      (in_username inputs);
  let password := optional (in_password inputs) in
  let privateKey := optional (in_privateKey inputs) in
  hostname ← required (Loc1 "LIB_EndpointDataNotExist" (Text sshEndpoint))
                      (in_host inputs);
  port ← match optional (in_port inputs) with
         | Some port => mret port
         | None => emit (ConsoleLog (Loc0 "UseDefaultPort"));; mret "22"
         end;
  readyTimeout ← getReadyTimeoutVariable inputs;
  let sshConfig :=
    {| cfg_host := hostname; cfg_port := port; cfg_username := username;
       cfg_auth := match privateKey with
                   | Some key => AuthPrivateKey key password
                   | None => AuthPassword password
                   end;
       cfg_readyTimeout := readyTimeout |} in
  contents ← match in_contents inputs with
             | Some contents => mret contents
             | None => throw (Loc1 "LIB_InputRequired" (Text "contents"))
             end;
  sourceFolder ← required (Loc1 "LIB_InputRequired" (Text "sourceFolder"))
                          (in_sourceFolder inputs);
  (if exist host sourceFolder then mret tt
   else throw (Loc2 "LIB_PathNotFound" (Text "sourceFolder") (Text sourceFolder)));;
  let targetFolder :=
    match optional (in_targetFolder inputs) with
    | None => "./"
    | Some targetFolder => JsString.replaceHomePrefix targetFolder
    end in
  (if negb (isDirectory host sourceFolder) then throw (Loc0 "SourceNotFolder")
   else mret tt);;
  mret {| sshConfig := sshConfig; contents := contents;
          sourceFolder := sourceFolder; targetFolder := targetFolder;
          cleanTargetFolder := in_cleanTargetFolder inputs;
          overwrite := in_overwrite inputs;
          failOnEmptySource := in_failOnEmptySource inputs;
          flattenFolders := in_flattenFolders inputs;
          isWindowsOnTarget := in_isWindowsOnTarget inputs |}.

(** Lines 181-194: the helper is created, the connection set up and the
    target folder cleaned when asked for. *)
Definition connect (s : Settings) : Task unit :=
  newSshHelper (sshConfig s);;
  callRemote (SshSetupConnection (sshConfig s))
    (setupConnection remote (sshConfig s));;
  if cleanTargetFolder s then
    emit (ConsoleLog (Loc1 "CleanTargetFolder" (Text (targetFolder s))));;
    let cleanTargetFolderCmd :=
      getCleanTargetFolderCmd (isWindowsOnTarget s) (targetFolder s) in
    tryCatch
      (callRemote (SshRunCommand cleanTargetFolderCmd)
         (runCommandOnRemoteMachine remote cleanTargetFolderCmd);;
       mret tt)
      (fun err => throw (Loc1 "CleanTargetFolderFailed" err))
  else mret tt.

(** Lines 196-243: selection, then the copy loop or one of the two
    branches for a falsy [filesToCopy].  An error of [getFilesToCopy]
    leaves the block. *)
Definition copyFiles (s : Settings) : Task unit :=
  selected ← call (getFilesToCopy host (sourceFolder s) (contents s));
  let filesToCopy := JsArray selected in
  if ToBoolean filesToCopy then
    let count := List.length (arrayElements filesToCopy) in
    emit (ConsoleLog (Loc1 "CopyingFiles" (Count count)));;
    failureCount ← copyLoop (flattenFolders s) (overwrite s) (sourceFolder s)
                     (targetFolder s) (arrayElements filesToCopy) 0;
    emit (ConsoleLog (Loc1 "CopyCompleted" (Count count)));;
    if (failureCount =? 0)%nat then mret tt
    else emit (SetResultFailed (Loc1 "NumberFailed" (Count failureCount)))
  else if failOnEmptySource s then throw (Loc0 "NothingToCopy")
  else emit (TlWarning (Loc0 "NothingToCopy")).

(** Lines 119-243: the body of the outer [try]. *)
Definition runBody (inputs : Inputs) : Task unit :=
  s ← readInputs inputs;
  connect s;;
  copyFiles s.

(** Lines 246-252: the [finally] block. *)
Definition disconnect : Task unit :=
  helper ← readSshHelper;
  match helper with
  | Some _ =>
      callRemote SshCloseConnection
        (fun w => (Returned tt, closeConnection remote w))
  | None => mret tt
  end.

(** [run()] *)
Definition run (inputs : Inputs) : Task unit :=
  tryFinally
    (tryCatch (runBody inputs) (fun err => emit (SetResultFailed err)))
    disconnect.

(** The state in which the script starts, for a remote side in state
    [w]. *)
Definition initially (w : W) : TaskState W :=
  {| world := w; sshHelper := None; events := [] |}.

Definition runTask (inputs : Inputs) (w : W) : Outcome unit * TaskState W :=
  run inputs (initially w).

(** The script up to line 197: the inputs are read, the connection is
    set up, the target folder cleaned and the files selected.  What
    follows is the copy loop. *)
Definition beforeCopy (inputs : Inputs) : Task (Settings * list string) :=
  s ← readInputs inputs;
  connect s;;
  selected ← call (getFilesToCopy host (sourceFolder s) (contents s));
  mret (s, selected).

(** Whether an error was thrown before the copy loop. *)
Definition fatalBeforeCopy (inputs : Inputs) (w : W) : bool :=
  match beforeCopy inputs (initially w) with
  | (Threw _, _) => true
  | (Returned _, _) => false
  end.

(** The value of [failureCount] after the loop; 0 when the loop is not
    reached. *)
Definition failureCountOf (inputs : Inputs) (w : W) : nat :=
  match beforeCopy inputs (initially w) with
  | (Returned (s, selected), st) =>
      match copyLoop (flattenFolders s) (overwrite s) (sourceFolder s)
              (targetFolder s) selected 0 st with
      | (Returned failureCount, _) => failureCount
      | (Threw _, _) => 0
      end
  | (Threw _, _) => 0
  end.

End Orchestrator.

(** ** Reading the log *)

Definition isSetResultFailed (e : Event) : bool :=
  match e with SetResultFailed _ => true | _ => false end.

Definition isCloseConnection (e : Event) : bool :=
  match e with SshCloseConnection => true | _ => false end.

Definition isWarning (e : Event) : bool :=
  match e with TlWarning _ => true | _ => false end.

Definition isTransfer (e : Event) : bool :=
  match e with SshUploadFile _ _ => true | _ => false end.

Definition isFileError (e : Event) : bool :=
  match e with
  | TlError (Loc2 key _ _) => String.eqb key "FailedOnFile"
  | _ => false
  end.

(** What the script logs before selection starts: console lines with at
    most one argument, the connection set-up and the clean-up command. *)
Definition isPreparation (e : Event) : bool :=
  match e with
  | ConsoleLog (Loc0 _) | ConsoleLog (Loc1 _ _)
  | SshSetupConnection _ | SshRunCommand _ => true
  | _ => false
  end.

(** What the copy loop logs: console lines, per-file errors, existence
    checks and transfers. *)
Definition isCopyEvent (e : Event) : bool :=
  match e with
  | ConsoleLog _ | TlError _ | SshCheckRemotePathExists _ | SshUploadFile _ _ => true
  | _ => false
  end.

(** The task is reported failed when [tl.setResult(Failed, ...)] was
    called. *)
Definition taskFailed (log : list Event) : bool :=
  existsb isSetResultFailed log.

Definition countEvents (p : Event -> bool) (log : list Event) : nat :=
  List.length (List.filter p log).

(** The source files for which a copy was started, in order. *)
Definition startedFile (e : Event) : option string :=
  match e with
  | ConsoleLog (Loc2 key (Text fileToCopy) _) =>
      if String.eqb key "StartedFileCopy" then Some fileToCopy else None
  | _ => None
  end.

Definition startedFiles (log : list Event) : list string :=
  omap startedFile log.

(** ** The vocabulary of the specification *)

(** The number of consecutive ['!'] characters at the start. *)
Fixpoint leadingBangCount (s : string) : nat :=
  match s with
  | String c r => if Ascii.eqb c "!" then S (leadingBangCount r) else 0
  | EmptyString => 0
  end.

(** The pattern without its leading ['!'] characters. *)
Fixpoint dropBangs (s : string) : string :=
  match s with
  | String c r => if Ascii.eqb c "!" then dropBangs r else s
  | EmptyString => EmptyString
  end.

(** [n] characters ['!']. *)
Fixpoint bangs (n : nat) : string :=
  match n with
  | O => EmptyString
  | S m => String "!" (bangs m)
  end.

Definition isExclude (pattern : string) : bool :=
  Nat.odd (leadingBangCount pattern).

(** The glob expression the specification gives for a trimmed pattern. *)
Definition globExpression (host : Host) (sourceRoot pattern : string) : string :=
  if isExclude pattern then
    bangs (leadingBangCount pattern)
    +:+ join (path host) sourceRoot (dropBangs pattern)
  else join (path host) sourceRoot pattern.

Definition member (x : string) (l : list string) : bool :=
  existsb (String.eqb x) l.

(** Removal of duplicates that keeps, of each element, its first
    occurrence, in the order of these first occurrences. *)
Fixpoint dedupFirst (l : list string) : list string :=
  match l with
  | [] => []
  | x :: r => x :: List.filter (fun y => negb (String.eqb y x)) (dedupFirst r)
  end.

(** The matches of each include pattern against the full file set, one
    after the other in declared order. *)
Definition includeMatches (host : Host) (allFiles includes : list string) : list string :=
  List.concat (map (fun pattern => minimatch_match host allFiles pattern (matchOptions host))
                   includes).

(** What survives one exclude expression: the paths it matches. *)
Definition narrow (host : Host) (files : list string) (pattern : string) : list string :=
  List.filter (fun f => minimatch host f pattern (matchOptions host)) files.

(** The files under the source root that are not directories, in the
    order of the listing. *)
Definition nonDirectories (host : Host) (sourceRoot : string) : list string :=
  List.filter (fun p => negb (isDirectory host p)) (find host sourceRoot).

(** The same host with another flavour of [path] and another platform
    name. *)
Definition onPlatform (host : Host) (flavour : PathModule) (name : string) : Host :=
  {| path := flavour; path_posix := path_posix host; platform := name;
     find := find host; isDirectory := isDirectory host; exist := exist host;
     parseInt10 := parseInt10 host; minimatch := minimatch host |}.

(** The string without its first [n] characters. *)
Fixpoint dropChars (n : nat) (s : string) : string :=
  match n, s with
  | O, _ => s
  | S _, EmptyString => EmptyString
  | S m, String _ r => dropChars m r
  end.

(** One leading path separator of either style removed, if there is
    one. *)
Definition stripOneSeparator (s : string) : string :=
  match s with
  | String c r => if Ascii.eqb c "/" || Ascii.eqb c "\" then r else s
  | EmptyString => EmptyString
  end.

(** ** A concrete host and remote side

    Stand-ins for the libraries, on which the definitions above can be
    run: Node's [path.posix], a small glob matcher with the features of
    [minimatch] that the examples use, a directory listing, and a remote
    machine that is a list of paths. *)

Module Sample.

Definition isSlash (c : ascii) : bool := Ascii.eqb c "/".

(** [s.split('/')] *)
Fixpoint segments (s : string) : list string :=
  match s with
  | EmptyString => [EmptyString]
  | String c r =>
      if isSlash c then EmptyString :: segments r
      else match segments r with
           | seg :: more => String c seg :: more
           | [] => [String c EmptyString]
           end
  end.

(** One step of [normalizeString]; the stack holds the segments kept so
    far, the last one first. *)
Definition normalizeStep (allowAboveRoot : bool) (stack : list string)
    (seg : string) : list string :=
  if JsString.isEmpty seg || String.eqb seg "." then stack
  else if String.eqb seg ".." then
    match stack with
    | top :: below =>
        if String.eqb top ".."
        then (if allowAboveRoot then seg :: stack else stack)
        else below
    | [] => if allowAboveRoot then [seg] else []
    end
  else seg :: stack.

Definition endsWithSlash (s : string) : bool :=
  match last (segments s) with
  | Some seg => JsString.isEmpty seg && negb (JsString.isEmpty s)
  | None => false
  end.

Definition startsWithSlash (s : string) : bool :=
  match s with String c _ => isSlash c | EmptyString => false end.

(** [path.posix.normalize] *)
Definition normalize (p : string) : string :=
  if JsString.isEmpty p then "."
  else
    let isAbsolute := startsWithSlash p in
    let trailingSeparator := endsWithSlash p in
    let kept := rev (fold_left (normalizeStep (negb isAbsolute)) (segments p) []) in
    let body := String.concat "/" kept in
    if JsString.isEmpty body then
      (if isAbsolute then "/" else if trailingSeparator then "./" else ".")
    else
      let body := if trailingSeparator then body +:+ "/" else body in
      if isAbsolute then "/" +:+ body else body.

(** [path.posix.join(a, b)] *)
Definition posixJoin (a b : string) : string :=
  match JsString.isEmpty a, JsString.isEmpty b with
  | true, true => "."
  | true, false => normalize b
  | false, true => normalize a
  | false, false => normalize (a +:+ "/" +:+ b)
  end.

(** [path.posix.basename(p)] *)
Definition posixBasename (p : string) : string :=
  match List.filter (fun seg => negb (JsString.isEmpty seg)) (rev (segments p)) with
  | seg :: _ => seg
  | [] => EmptyString
  end.

Definition posixPath : PathModule :=
  {| join := posixJoin; basename := posixBasename |}.

(** One path segment against one pattern segment: ['*'] stands for any
    run of characters, ['?'] for one character. *)
Fixpoint wildSegment (p f : string) {struct p} : bool :=
  match p with
  | EmptyString => JsString.isEmpty f
  | String c p' =>
      if Ascii.eqb c "*" then
        (fix try (f : string) : bool :=
           wildSegment p' f
           || match f with String _ f' => try f' | EmptyString => false end) f
      else
        match f with
        | String d f' => (Ascii.eqb c "?" || Ascii.eqb c d) && wildSegment p' f'
        | EmptyString => false
        end
  end.

(** Segment lists; a segment ["**"] stands for any number of
    segments. *)
Fixpoint globSegments (ps fs : list string) {struct ps} : bool :=
  match ps with
  | [] => match fs with [] => true | _ :: _ => false end
  | p :: ps' =>
      if String.eqb p "**" then
        (fix try (fs : list string) : bool :=
           globSegments ps' fs
           || match fs with _ :: fs' => try fs' | [] => false end) fs
      else
        match fs with
        | f :: fs' => wildSegment p f && globSegments ps' fs'
        | [] => false
        end
  end.

(** The stand-in for [minimatch(file, pattern, options)]: an odd number
    of leading ['!'] negates; with [matchBase], a pattern without slash
    is compared with the base name.  [dot] and [nocase] play no role:
    no segment is hidden, and letters are compared as they are. *)
Definition glob (file pattern : string) (options : MatchOptions) : bool :=
  let core := dropBangs pattern in
  let ps := segments core in
  let fs :=
    if matchBase options && (List.length ps =? 1)%nat
    then [posixBasename file] else segments file in
  xorb (Nat.odd (leadingBangCount pattern)) (globSegments ps fs).

Definition digit (c : ascii) : option Z :=
  let n := nat_of_ascii c in
  if (48 <=? n)%nat && (n <=? 57)%nat then Some (Z.of_nat n - 48)%Z else None.

Fixpoint digits (s : string) (acc : option Z) : option Z :=
  match s with
  | String c r =>
      match digit c with
      | Some d => digits r (Some (10 * default 0%Z acc + d)%Z)
      | None => acc
      end
  | EmptyString => acc
  end.

(** [parseInt(s, 10)] on integers that a double holds exactly. *)
Definition decimal (s : string) : option Z :=
  match JsString.trimStart s with
  | String "-" r => Z.opp <$> digits r None
  | String "+" r => digits r None
  | t => digits t None
  end.

(** A POSIX host whose [tl.find] lists [paths], of which [dirs] are
    directories. *)
Definition hostOf (paths dirs : list string) : Host :=
  {| path := posixPath; path_posix := posixPath; platform := "linux";
     find := fun _ => paths;
     isDirectory := fun p => member p dirs;
     exist := fun p => member p paths;
     parseInt10 := decimal;
     minimatch := glob |}.

(** The tree of the specification's scenarios: [a.txt], [.hidden] and
    [sub/b.txt] under [/src]. *)
Definition tree : Host :=
  hostOf ["/src"; "/src/.hidden"; "/src/a.txt"; "/src/sub"; "/src/sub/b.txt"]
         ["/src"; "/src/sub"].

(** The remote machine: the paths that exist on it, which operations
    are set to fail, and how often the connection was closed. *)
Record Machine : Type := {
  remoteFiles : list string;
  refuseConnection : bool;
  refuseCommands : bool;
  refusedUploads : list string;
  closed : nat
}.

Definition sshHelperOf : Remote Machine :=
  {| setupConnection := fun _ m =>
       (if refuseConnection m then Threw (Text "connection refused")
        else Returned tt, m);
     runCommandOnRemoteMachine := fun _ m =>
       if refuseCommands m then (Threw (Text "command failed"), m)
       else (Returned EmptyString,
             {| remoteFiles := []; refuseConnection := refuseConnection m;
                refuseCommands := refuseCommands m;
                refusedUploads := refusedUploads m; closed := closed m |});
     checkRemotePathExists := fun p m => (Returned (member p (remoteFiles m)), m);
     uploadFile := fun src dst m =>
       if member src (refusedUploads m) then (Threw (Text "upload failed"), m)
       else (Returned dst,
             {| remoteFiles := dst :: remoteFiles m;
                refuseConnection := refuseConnection m;
                refuseCommands := refuseCommands m;
                refusedUploads := refusedUploads m; closed := closed m |});
     closeConnection := fun m =>
       {| remoteFiles := remoteFiles m; refuseConnection := refuseConnection m;
          refuseCommands := refuseCommands m;
          refusedUploads := refusedUploads m; closed := S (closed m) |} |}.

Definition machine : Machine :=
  {| remoteFiles := []; refuseConnection := false; refuseCommands := false;
     refusedUploads := []; closed := 0 |}.

(** Inputs that pass every check, for the tree above. *)
Definition inputsOf (contents : list string) (failOnEmptySource : bool) : Inputs :=
  {| in_sshEndpoint := Some "endpoint";
     in_username := Some "user";
     in_password := Some "secret";
     in_privateKey := None;
     in_host := Some "example.org";
     in_port := None;
     in_readyTimeout := Some "20000";
     in_contents := Some contents;
     in_sourceFolder := Some "/src";
     in_targetFolder := Some "~/drop";
     in_cleanTargetFolder := false;
     in_overwrite := false;
     in_failOnEmptySource := failOnEmptySource;
     in_flattenFolders := false;
     in_isWindowsOnTarget := false |}.

(** The same inputs with clean-up of the target folder switched on. *)
Definition withCleaning (i : Inputs) : Inputs :=
  {| in_sshEndpoint := in_sshEndpoint i;
     in_username := in_username i;
     in_password := in_password i;
     in_privateKey := in_privateKey i;
     in_host := in_host i;
     in_port := in_port i;
     in_readyTimeout := in_readyTimeout i;
     in_contents := in_contents i;
     in_sourceFolder := in_sourceFolder i;
     in_targetFolder := in_targetFolder i;
     in_cleanTargetFolder := true;
     in_overwrite := in_overwrite i;
     in_failOnEmptySource := in_failOnEmptySource i;
     in_flattenFolders := in_flattenFolders i;
     in_isWindowsOnTarget := in_isWindowsOnTarget i |}.

(** The same inputs with another source folder. *)
Definition withSourceFolder (i : Inputs) (sourceFolder : string) : Inputs :=
  {| in_sshEndpoint := in_sshEndpoint i;
     in_username := in_username i;
     in_password := in_password i;
     in_privateKey := in_privateKey i;
     in_host := in_host i;
     in_port := in_port i;
     in_readyTimeout := in_readyTimeout i;
     in_contents := in_contents i;
     in_sourceFolder := Some sourceFolder;
     in_targetFolder := in_targetFolder i;
     in_cleanTargetFolder := in_cleanTargetFolder i;
     in_overwrite := in_overwrite i;
     in_failOnEmptySource := in_failOnEmptySource i;
     in_flattenFolders := in_flattenFolders i;
     in_isWindowsOnTarget := in_isWindowsOnTarget i |}.

(** A remote machine on which every command fails. *)
Definition unwilling : Machine :=
  {| remoteFiles := []; refuseConnection := false; refuseCommands := true;
     refusedUploads := []; closed := 0 |}.

End Sample.

(** ** Further vocabulary: selection, inputs and the remote protocol *)

(** Whether one of the include expressions matches [f]. *)
Definition selectedBy (host : Host) (includes : list string) (f : string) : bool :=
  existsb (fun p => minimatch host f p (matchOptions host)) includes.

(** Whether every exclude expression matches [f], that is, lets it
    through. *)
Definition survives (host : Host) (excludes : list string) (f : string) : bool :=
  forallb (fun e => minimatch host f e (matchOptions host)) excludes.

(** Every input that the script requires is there. *)
Definition inputsPresent (inputs : Inputs) : bool :=
  truthy (in_sshEndpoint inputs)
  && truthy (in_username inputs)
  && truthy (in_host inputs)
  && truthy (in_readyTimeout inputs)
  && match in_contents inputs with Some _ => true | None => false end
  && truthy (in_sourceFolder inputs).

(** The inputs pass every check of lines 121-179: they are there, and
    the source folder exists and is a directory. *)
Definition validInputs (host : Host) (inputs : Inputs) : bool :=
  inputsPresent inputs
  && match in_sourceFolder inputs with
     | Some sourceFolder => exist host sourceFolder && isDirectory host sourceFolder
     | None => false
     end.

(** The target folder the script works with (lines 162-169). *)
Definition normalisedTargetFolder (inputs : Inputs) : string :=
  match in_targetFolder inputs with
  | Some targetFolder =>
      if JsString.isEmpty targetFolder then "./"
      else JsString.replaceHomePrefix targetFolder
  | None => "./"
  end.

Definition isSetup (e : Event) : bool :=
  match e with SshSetupConnection _ => true | _ => false end.

Definition isRunCommand (e : Event) : bool :=
  match e with SshRunCommand _ => true | _ => false end.

Definition isExistenceCheck (e : Event) : bool :=
  match e with SshCheckRemotePathExists _ => true | _ => false end.

(** A call on the SSH helper. *)
Definition isRemoteCall (e : Event) : bool :=
  match e with
  | SshSetupConnection _ | SshRunCommand _ | SshCheckRemotePathExists _
  | SshUploadFile _ _ | SshCloseConnection => true
  | _ => false
  end.

(** The transfers in the log, as pairs of source and target path. *)
Definition transferOf (e : Event) : option (string * string) :=
  match e with
  | SshUploadFile sourcePath targetPath => Some (sourcePath, targetPath)
  | _ => None
  end.

Definition transfers (log : list Event) : list (string * string) :=
  omap transferOf log.

(** The remote paths whose existence was asked for. *)
Definition checkOf (e : Event) : option string :=
  match e with
  | SshCheckRemotePathExists remotePath => Some remotePath
  | _ => None
  end.

Definition existenceChecks (log : list Event) : list string :=
  omap checkOf log.

(** Where a run stands in its dealings with the remote side. *)
Inductive Phase : Type :=
| Unconnected
| Connected
| Cleaned
| Copying
| Closed.

(** The calls on the SSH helper that may follow one another: the
    connection is set up first, the clean-up command comes at most once
    and directly after it, existence checks and transfers follow, and
    the connection is closed last.  Events that are no calls on the
    helper leave the phase as it is. *)
Definition nextPhase (ph : Phase) (e : Event) : option Phase :=
  if negb (isRemoteCall e) then Some ph
  else
    match ph, e with
    | Unconnected, SshSetupConnection _ => Some Connected
    | Connected, SshRunCommand _ => Some Cleaned
    | (Connected | Cleaned | Copying), (SshCheckRemotePathExists _ | SshUploadFile _ _) =>
        Some Copying
    | (Connected | Cleaned | Copying), SshCloseConnection => Some Closed
    | _, _ => None
    end.

Definition stepPhase (ph : option Phase) (e : Event) : option Phase :=
  match ph with
  | Some ph => nextPhase ph e
  | None => None
  end.

(** The phase a log ends in; [None] when its calls are out of order. *)
Definition phaseAfter (log : list Event) : option Phase :=
  fold_left stepPhase log (Some Unconnected).

(** A remote side on which every call succeeds and nothing ever exists:
    the state counts the calls. *)
Definition obliging : Remote nat :=
  {| setupConnection := fun _ n => (Returned tt, S n);
     runCommandOnRemoteMachine := fun _ n => (Returned EmptyString, S n);
     checkRemotePathExists := fun _ n => (Returned false, S n);
     uploadFile := fun _ targetPath n => (Returned targetPath, S n);
     closeConnection := fun n => S n |}.

(** A machine that refuses the connection, and one on which the target
    of [a.txt] exists already. *)
Definition unreachable : Sample.Machine :=
  {| Sample.remoteFiles := []; Sample.refuseConnection := true;
     Sample.refuseCommands := false; Sample.refusedUploads := [];
     Sample.closed := 0 |}.

Definition occupied : Sample.Machine :=
  {| Sample.remoteFiles := ["drop/a.txt"]; Sample.refuseConnection := false;
     Sample.refuseCommands := false; Sample.refusedUploads := [];
     Sample.closed := 0 |}.

(** The inputs with another value of [failOnEmptySource]. *)
Definition withFailOnEmptySource (i : Inputs) (flag : bool) : Inputs :=
  {| in_sshEndpoint := in_sshEndpoint i;
     in_username := in_username i;
     in_password := in_password i;
     in_privateKey := in_privateKey i;
     in_host := in_host i;
     in_port := in_port i;
     in_readyTimeout := in_readyTimeout i;
     in_contents := in_contents i;
     in_sourceFolder := in_sourceFolder i;
     in_targetFolder := in_targetFolder i;
     in_cleanTargetFolder := in_cleanTargetFolder i;
     in_overwrite := in_overwrite i;
     in_failOnEmptySource := flag;
     in_flattenFolders := in_flattenFolders i;
     in_isWindowsOnTarget := in_isWindowsOnTarget i |}.

(** ** Selection, in the words of the specification and on lists *)

(** The selection as the specification describes it: of the matches of
    the include patterns the first occurrences, narrowed by the exclude
    expressions one after the other. *)
Definition specifiedSelection (host : Host) (sourceRoot : string)
    (contents : list string) : list string :=
  let filters := addIncludeAll (classifyContents host sourceRoot contents) in
  fold_left (narrow host) (excludeContents filters)
    (dedupFirst
       (includeMatches host (nonDirectories host sourceRoot)
          (includeContents filters))).

(** The matches that the include loop of a call meets, in its order. *)
Definition matchesOf (host : Host) (sourceFolder : string)
    (contents : list string) : list string :=
  includeMatches host (nonDirectories host sourceFolder)
    (includeContents (addIncludeAll (classifyContents host sourceFolder contents))).

(** None of the paths is one of the two names that [pathsSeen] does not
    store like the others. *)
Definition ordinaryPaths (l : list string) : bool :=
  negb (member "__proto__" l) && negb (member "hasOwnProperty" l).

(** A path [hasOwnProperty] among the matches with another match after
    it. *)
Definition cutShort (matches : list string) : bool :=
  member "hasOwnProperty" (removelast matches).

(** The value that a call returns, changed by [f]. *)
Definition mapOutcome {A B : Type} (f : A -> B) (o : Outcome A) : Outcome B :=
  match o with
  | Returned a => Returned (f a)
  | Threw err => Threw err
  end.

(** The include loop told from the array [files] alone.  A match is
    passed over when it is in [files] already and is not [__proto__];
    the loop throws when it meets a match while [hasOwnProperty] is in
    [files]. *)
Fixpoint collect (files matches : list string) : Outcome (list string) :=
  match matches with
  | [] => Returned files
  | x :: rest =>
      if member "hasOwnProperty" files then Threw notAFunction
      else if member x files && negb (String.eqb x "__proto__")
           then collect files rest
           else collect (files ++ [x]) rest
  end.

(** What the loop appends to [files] when it is not cut short. *)
Fixpoint firstMatches (seen matches : list string) : list string :=
  match matches with
  | [] => []
  | x :: rest =>
      if member x seen && negb (String.eqb x "__proto__")
      then firstMatches seen rest
      else x :: firstMatches (seen ++ [x]) rest
  end.

(** The own properties of [pathsSeen] are the paths in [files] other
    than [__proto__]. *)
Definition tracks (st : IncludeState) : Prop :=
  forall x, is_Some (pathsSeen st !! x) <-> In x (files st) /\ x <> "__proto__".

(** The working directory as source folder: [tl.find(".")] lists [.]
    and the names in it as they are. *)
Definition workingDirectory (names : list string) : Host :=
  Sample.hostOf ("." :: names) ["."].

(** The characters of a string before the first [c]. *)
Fixpoint upTo (c : ascii) (s : string) : string :=
  match s with
  | EmptyString => EmptyString
  | String d r => if Ascii.eqb d c then EmptyString else String d (upTo c r)
  end.

(** What the [bash] command of line 112 holds between its first single
    quote and the next one: the quoted word that stands for the folder
    in the script. *)
Definition quotedFolder (command : string) : string :=
  upTo "'" (dropChars (String.length ("bash -c " +:+ dq +:+ "rm -rf '")) command).

(** How often a character occurs in a string. *)
Fixpoint countChar (c : ascii) (s : string) : nat :=
  match s with
  | EmptyString => 0
  | String d r => (if Ascii.eqb d c then 1 else 0) + countChar c r
  end.

(** ** The answers of the NuGet mock helper

    [Tasks/NuGetInstallerV0/Tests/NugetMockHelper.ts], method
    [setAnswers] (lines 77-82).  The argument is the answers object of
    the mock task library; the helper writes three entries into two of
    its maps and hands the very same object to the mock runner. *)

Module NugetMockHelper.

(** The answers object: the two maps the helper writes to, each of
    which the caller may have left out, and everything else in
    [others]. *)
Record Answers (T : Type) : Type := {
  osType : option (gmap string string);
  exist : option (gmap string bool);
  others : T
}.

Arguments osType {T} _.
Arguments exist {T} _.
Arguments others {T} _.

Definition nugetExe : string :=
  "c:\agent\home\directory\externals\nuget\nuget.exe".

Definition credentialProvider : string :=
  "c:\agent\home\directory\externals\nuget\CredentialProvider\CredentialProvider.TeamBuild.exe".

(** What a call leaves behind: whether it threw a [TypeError], the
    caller's object as it is afterwards, and the object handed to
    [tmr.setAnswers], if the call got that far. *)
Record Effect (T : Type) : Type := {
  threw : bool;
  object : Answers T;
  handed : option (Answers T)
}.

Arguments threw {T} _.
Arguments object {T} _.
Arguments handed {T} _.

(** [a.osType["osType"] = "Windows_NT"]; [None] when [a.osType] is
    undefined and the assignment throws. *)
Definition writeOsType {T : Type} (a : Answers T) : option (Answers T) :=
  match osType a with
  | Some m =>
      Some {| osType := Some (<["osType" := "Windows_NT"]> m);
              exist := exist a; others := others a |}
  | None => None
  end.

(** [a.exist[path] = true]; [None] when [a.exist] is undefined. *)
Definition writeExist {T : Type} (remotePath : string) (a : Answers T) :
    option (Answers T) :=
  match exist a with
  | Some m =>
      Some {| osType := osType a;
              exist := Some (<[remotePath := true]> m); others := others a |}
  | None => None
  end.

(** [setAnswers(a)] *)
Definition setAnswers {T : Type} (a : Answers T) : Effect T :=
  match writeOsType a with
  | None => {| threw := true; object := a; handed := None |}
  | Some a1 =>
      match writeExist nugetExe a1 with
      | None => {| threw := true; object := a1; handed := None |}
      | Some a2 =>
          match writeExist credentialProvider a2 with
          | None => {| threw := true; object := a2; handed := None |}
          | Some a3 => {| threw := false; object := a3; handed := Some a3 |}
          end
      end
  end.

End NugetMockHelper.

(** * Properties *)

(** ** JavaScript strings *)

Section StringFacts.

Lemma substring_whole (s : string) :
  String.substring 0 (String.length s) s = s.
Proof. induction s as [|c r IH]; simpl; [reflexivity | now rewrite IH]. Qed.

Lemma leadingBangCount_le (s : string) :
  leadingBangCount s <= String.length s.
Proof.
  induction s as [|c r IH]; simpl; [lia|].
  destruct (Ascii.eqb c "!"); lia.
Qed.

Lemma substring_leading_bangs (s : string) :
  String.substring 0 (leadingBangCount s) s = bangs (leadingBangCount s).
Proof.
  induction s as [|c r IH]; simpl; [reflexivity|].
  destruct (Ascii.eqb c "!") eqn:E; simpl; [|reflexivity].
  apply Ascii.eqb_eq in E. subst c. now rewrite IH.
Qed.

Lemma substring_after_bangs (s : string) :
  String.substring (leadingBangCount s)
    (String.length s - leadingBangCount s) s = dropBangs s.
Proof.
  induction s as [|c r IH]; simpl; [reflexivity|].
  destruct (Ascii.eqb c "!") eqn:E; simpl.
  - exact IH.
  - now rewrite substring_whole.
Qed.

(** [pattern.substring(0, n)] for the number [n] of leading marks. *)
Lemma js_substring_bangs (s : string) :
  JsString.substring s 0 (leadingBangCount s) = bangs (leadingBangCount s).
Proof.
  unfold JsString.substring. pose proof (leadingBangCount_le s) as Hle.
  rewrite Nat.min_0_l, (Nat.min_l _ _ Hle), Nat.min_0_l, Nat.max_0_l, Nat.sub_0_r.
  apply substring_leading_bangs.
Qed.

(** [pattern.substring(n)] for the number [n] of leading marks. *)
Lemma js_substringFrom_bangs (s : string) :
  JsString.substringFrom s (leadingBangCount s) = dropBangs s.
Proof.
  unfold JsString.substringFrom, JsString.substring.
  pose proof (leadingBangCount_le s) as Hle.
  rewrite (Nat.min_l _ _ Hle), Nat.min_id, (Nat.min_l _ _ Hle), (Nat.max_r _ _ Hle).
  apply substring_after_bangs.
Qed.

Lemma substring_skip_prefix (p rest : string) (m : nat) :
  String.substring (String.length p) m (p +:+ rest) = String.substring 0 m rest.
Proof. induction p as [|c r IH]; simpl; [reflexivity | exact IH]. Qed.

Lemma append_cons (x : ascii) (r b : string) :
  String x r +:+ b = String x (r +:+ b).
Proof. reflexivity. Qed.

Lemma append_assoc (a b c : string) :
  (a +:+ b) +:+ c = a +:+ (b +:+ c).
Proof.
  induction a as [|x r IH]; [reflexivity|].
  now rewrite !append_cons, IH.
Qed.

Lemma length_append (p rest : string) :
  String.length (p +:+ rest) = String.length p + String.length rest.
Proof. induction p as [|c r IH]; simpl; [reflexivity | now rewrite IH]. Qed.

(** [file.substring(root.length)] removes [root] when [file] starts
    with it. *)
Lemma js_substringFrom_prefix (p rest : string) :
  JsString.substringFrom (p +:+ rest) (String.length p) = rest.
Proof.
  unfold JsString.substringFrom, JsString.substring.
  rewrite length_append.
  rewrite (Nat.min_l (String.length p)) by lia.
  rewrite Nat.min_id, (Nat.min_l (String.length p)) by lia.
  rewrite Nat.max_r by lia.
  rewrite substring_skip_prefix.
  replace (String.length p + String.length rest - String.length p)
    with (String.length rest) by lia.
  apply substring_whole.
Qed.

(** [s.substring(n)] cuts off the first [n] characters. *)
Lemma js_substringFrom_drop (s : string) (n : nat) :
  JsString.substringFrom s n = dropChars n s.
Proof.
  unfold JsString.substringFrom, JsString.substring.
  rewrite Nat.min_id.
  rewrite (Nat.min_l (Nat.min n (String.length s))) by apply Nat.le_min_r.
  rewrite (Nat.max_r (Nat.min n (String.length s))) by apply Nat.le_min_r.
  revert s. induction n as [|m IH]; intros s.
  - simpl. rewrite Nat.sub_0_r. apply substring_whole.
  - destruct s as [|c r]; [reflexivity|]. simpl. apply IH.
Qed.

End StringFacts.

(** ** Classification *)

Section ClassifierFacts.

Variable host : Host.

(** The scan returns the parity and the number of the leading marks,
    on top of what it was started with. *)
Lemma scanNegations_count (pattern : string) (negate : bool) (n : nat) :
  scanNegations pattern negate n
  = (xorb negate (Nat.odd (leadingBangCount pattern)),
     n + leadingBangCount pattern).
Proof.
  revert negate n.
  induction pattern as [|c r IH]; intros negate n; simpl.
  - now rewrite xorb_false_r, Nat.add_0_r.
  - destruct (Ascii.eqb c "!").
    + rewrite IH, Nat.odd_succ, <- Nat.negb_odd.
      f_equal; [|lia].
      now destruct negate, (Nat.odd (leadingBangCount r)).
    + now rewrite xorb_false_r, Nat.add_0_r.
Qed.

Lemma classifyPattern_globExpression (sourceFolder pattern : string) :
  classifyPattern host sourceFolder pattern
  = if isExclude pattern
    then ExcludePattern (globExpression host sourceFolder pattern)
    else IncludePattern (globExpression host sourceFolder pattern).
Proof.
  unfold classifyPattern, globExpression, isExclude.
  rewrite scanNegations_count. simpl.
  destruct (Nat.odd (leadingBangCount pattern)); [|reflexivity].
  now rewrite js_substring_bangs, js_substringFrom_bangs.
Qed.

(** The loop over the patterns sorts them into the two lists without
    changing their relative order. *)
Lemma classify_fold (sourceFolder : string) (patterns : list string) (acc : Filters) :
  let out :=
    fold_left
      (fun acc pattern => pushClassified acc (classifyPattern host sourceFolder pattern))
      patterns acc in
  includeContents out
  = includeContents acc
    ++ map (globExpression host sourceFolder)
         (List.filter (fun p => negb (isExclude p)) patterns)
  /\ excludeContents out
     = excludeContents acc
       ++ map (globExpression host sourceFolder) (List.filter isExclude patterns).
Proof.
  revert acc. induction patterns as [|p r IH]; intros acc; simpl.
  - now rewrite !app_nil_r.
  - destruct (IH (pushClassified acc (classifyPattern host sourceFolder p)))
      as [Hi He].
    simpl in Hi, He. rewrite Hi, He, classifyPattern_globExpression.
    destruct (isExclude p); simpl; rewrite <- ?app_assoc; auto.
Qed.

Lemma classifyContents_lists (sourceFolder : string) (contents : list string) :
  includeContents (classifyContents host sourceFolder contents)
  = map (globExpression host sourceFolder)
      (List.filter (fun p => negb (isExclude p)) (map JsString.trim contents))
  /\ excludeContents (classifyContents host sourceFolder contents)
     = map (globExpression host sourceFolder)
         (List.filter isExclude (map JsString.trim contents)).
Proof. apply (classify_fold sourceFolder (map JsString.trim contents) noFilters). Qed.

End ClassifierFacts.

(** C1. A trimmed pattern with an odd number of leading ['!'] is an
    exclude pattern whose glob expression is these marks followed by the
    join of the source root and the rest of the pattern; with none or an
    even number it is an include pattern whose glob expression is the
    join of the source root and the whole pattern, marks included.  The
    loop over the raw patterns trims each one and files its glob
    expression accordingly. *)
Theorem pattern_classification (host : Host) (sourceRoot : string) :
  (forall pattern,
     classifyPattern host sourceRoot pattern
     = if Nat.odd (leadingBangCount pattern)
       then ExcludePattern
              (bangs (leadingBangCount pattern)
               +:+ join (path host) sourceRoot (dropBangs pattern))
       else IncludePattern (join (path host) sourceRoot pattern))
  /\ (forall contents,
        includeContents (classifyContents host sourceRoot contents)
        = map (fun pattern => join (path host) sourceRoot pattern)
            (List.filter (fun p => Nat.even (leadingBangCount p))
               (map JsString.trim contents))
        /\ excludeContents (classifyContents host sourceRoot contents)
           = map (fun pattern =>
                    bangs (leadingBangCount pattern)
                    +:+ join (path host) sourceRoot (dropBangs pattern))
               (List.filter (fun p => Nat.odd (leadingBangCount p))
                  (map JsString.trim contents))).
Proof.
  split.
  - intros pattern. rewrite classifyPattern_globExpression.
    unfold globExpression, isExclude.
    now destruct (Nat.odd (leadingBangCount pattern)).
  - intros contents.
    destruct (classifyContents_lists host sourceRoot contents) as [Hi He].
    rewrite Hi, He. split.
    + rewrite (filter_ext _ (fun p => Nat.even (leadingBangCount p)))
        by (intros p; unfold isExclude; now rewrite Nat.negb_odd).
      apply map_ext_in. intros p Hp. apply filter_In in Hp as [_ Hp].
      unfold globExpression, isExclude. rewrite <- Nat.negb_odd in Hp.
      now destruct (Nat.odd (leadingBangCount p)).
    + apply map_ext_in. intros p Hp. apply filter_In in Hp as [_ Hp].
      unfold globExpression, isExclude in *. now rewrite Hp.
Qed.

(** ** Lists of paths *)

Section PathListFacts.

Lemma member_In (x : string) (l : list string) :
  member x l = true <-> In x l.
Proof.
  unfold member. rewrite existsb_exists. split.
  - intros [y [Hy E]]. apply String.eqb_eq in E. now subst y.
  - intros H. exists x. split; [exact H | apply String.eqb_refl].
Qed.

Lemma member_app (x : string) (l1 l2 : list string) :
  member x (l1 ++ l2) = member x l1 || member x l2.
Proof. apply existsb_app. Qed.

(** Pushing the accepted elements one by one is filtering. *)
Lemma push_if_filter (keep : string -> bool) (l acc : list string) :
  fold_left (fun acc p => if keep p then acc ++ [p] else acc) l acc
  = acc ++ List.filter keep l.
Proof.
  revert acc. induction l as [|x r IH]; intros acc; simpl.
  - now rewrite app_nil_r.
  - rewrite IH. destruct (keep x); [|reflexivity].
    now rewrite <- app_assoc.
Qed.

(** Pushing every element one by one is copying. *)
Lemma push_all (l acc : list string) :
  fold_left (fun files matchPath => files ++ [matchPath]) l acc = acc ++ l.
Proof.
  revert acc. induction l as [|x r IH]; intros acc; simpl.
  - now rewrite app_nil_r.
  - now rewrite IH, <- app_assoc.
Qed.

Lemma filter_filter_comm (p q : string -> bool) (l : list string) :
  List.filter p (List.filter q l) = List.filter q (List.filter p l).
Proof.
  induction l as [|x r IH]; simpl; [reflexivity|].
  destruct (p x) eqn:Ep, (q x) eqn:Eq; simpl; rewrite ?Ep, ?Eq, IH; reflexivity.
Qed.

(** Filtering by a predicate that rejects [x] makes the removal of [x]
    redundant. *)
Lemma filter_without_rejected (p : string -> bool) (x : string) (l : list string) :
  p x = false ->
  List.filter p (List.filter (fun y => negb (String.eqb y x)) l) = List.filter p l.
Proof.
  intros Hx. induction l as [|y r IH]; simpl; [reflexivity|].
  destruct (String.eqb y x) eqn:E; simpl.
  - apply String.eqb_eq in E. subst y. now rewrite Hx.
  - now rewrite IH.
Qed.

(** Removing duplicates commutes with filtering. *)
Lemma dedupFirst_filter (p : string -> bool) (l : list string) :
  dedupFirst (List.filter p l) = List.filter p (dedupFirst l).
Proof.
  induction l as [|x r IH]; simpl; [reflexivity|].
  destruct (p x) eqn:Ex; simpl.
  - now rewrite IH, filter_filter_comm.
  - now rewrite IH, filter_without_rejected.
Qed.

Lemma dedupFirst_In (x : string) (l : list string) :
  In x (dedupFirst l) <-> In x l.
Proof.
  induction l as [|y r IH]; simpl; [tauto|].
  rewrite filter_In, IH, negb_true_iff, String.eqb_neq.
  destruct (String.eqb_spec y x) as [->|Hne]; [tauto|].
  split; [tauto|]. intros [H|H]; [tauto|]. right. split; [exact H|].
  intros ->. now apply Hne.
Qed.

Lemma NoDup_filter (p : string -> bool) (l : list string) :
  NoDup l -> NoDup (List.filter p l).
Proof.
  induction 1 as [|x r Hx Hr IH]; simpl; [constructor|].
  destruct (p x); [|exact IH].
  constructor; [|exact IH].
  rewrite list_elem_of_In, filter_In. rewrite list_elem_of_In in Hx. tauto.
Qed.

Lemma dedupFirst_NoDup (l : list string) : NoDup (dedupFirst l).
Proof.
  induction l as [|x r IH]; simpl; constructor.
  - rewrite list_elem_of_In, filter_In, negb_true_iff, String.eqb_neq. tauto.
  - now apply NoDup_filter.
Qed.

(** A list without duplicates is left as it is. *)
Lemma dedupFirst_id (l : list string) : NoDup l -> dedupFirst l = l.
Proof.
  induction 1 as [|x r Hx Hr IH]; simpl; [reflexivity|].
  rewrite IH. f_equal.
  rewrite <- (filter_ext_in (fun _ => true)).
  - clear. induction r as [|y r IH]; simpl; [reflexivity | now rewrite IH].
  - intros y Hy. symmetry. apply negb_true_iff, String.eqb_neq.
    intros ->. apply Hx. now apply list_elem_of_In.
Qed.

Lemma filter_none (p : string -> bool) (l : list string) :
  Forall (fun x => p x = false) l -> List.filter p l = [].
Proof.
  induction 1 as [|x r Hx Hr IH]; simpl; [reflexivity|]. now rewrite Hx.
Qed.

Lemma filter_every (p : string -> bool) (l : list string) :
  Forall (fun x => p x = true) l -> List.filter p l = l.
Proof.
  induction 1 as [|x r Hx Hr IH]; simpl; [reflexivity|]. now rewrite Hx, IH.
Qed.

Lemma sublist_filter (p : string -> bool) (l : list string) :
  sublist (List.filter p l) l.
Proof.
  induction l as [|x r IH]; simpl; [constructor|].
  destruct (p x); [now apply sublist_skip | now apply sublist_cons].
Qed.

End PathListFacts.

(** ** Selection *)

Section SelectionFacts.

Variable host : Host.

Lemma enumerateFiles_nonDirectories (sourceFolder : string) :
  enumerateFiles host sourceFolder = nonDirectories host sourceFolder.
Proof. unfold enumerateFiles, nonDirectories. now rewrite push_if_filter. Qed.

Lemma applyExclude_narrow (files : list string) (pattern : string) :
  applyExclude host files pattern = narrow host files pattern.
Proof. unfold applyExclude, minimatch_match, narrow. now rewrite push_all. Qed.

Lemma excludePhase_narrow (excludes files : list string) :
  excludePhase host files excludes = fold_left (narrow host) excludes files.
Proof.
  unfold excludePhase. revert files.
  induction excludes as [|p r IH]; intros files; simpl; [reflexivity|].
  now rewrite IH, applyExclude_narrow.
Qed.

Lemma filter_both (p q : string -> bool) (l : list string) :
  List.filter (fun y => p y && q y) l = List.filter p (List.filter q l).
Proof.
  induction l as [|x r IH]; simpl; [reflexivity|].
  destruct (q x); simpl.
  - rewrite andb_true_r. destruct (p x); now rewrite IH.
  - now rewrite andb_false_r.
Qed.

(** The exclude loop is one filter by all exclude expressions. *)
Lemma narrow_all_survives (excludes files : list string) :
  fold_left (narrow host) excludes files
  = List.filter (survives host excludes) files.
Proof.
  revert files. induction excludes as [|e r IH]; intros files; simpl.
  - symmetry. apply filter_every, Forall_forall. reflexivity.
  - rewrite IH. unfold narrow. rewrite <- filter_both.
    apply filter_ext. intros f. unfold survives. simpl. apply andb_comm.
Qed.

Lemma narrow_all_sublist (excludes files : list string) :
  sublist (fold_left (narrow host) excludes files) files.
Proof. rewrite narrow_all_survives. apply sublist_filter. Qed.

Lemma forEach_app {S A : Type} (body : S -> A -> Outcome S) (l1 l2 : list A)
    (st : S) :
  forEach body (l1 ++ l2) st
  = match forEach body l1 st with
    | Returned st' => forEach body l2 st'
    | Threw err => Threw err
    end.
Proof.
  revert st. induction l1 as [|x r IH]; intros st; simpl; [reflexivity|].
  destruct (body st x); [apply IH | reflexivity].
Qed.

(** The two nested include loops are one loop over all matches. *)
Lemma applyInclude_concat (allFiles includes : list string) (st : IncludeState) :
  forEach (applyInclude host allFiles) includes st
  = forEach recordMatch (includeMatches host allFiles includes) st.
Proof.
  unfold includeMatches. revert st.
  induction includes as [|p r IH]; intros st; simpl; [reflexivity|].
  rewrite forEach_app. unfold applyInclude at 1.
  destruct (forEach recordMatch _ st); [apply IH | reflexivity].
Qed.

Lemma member_false (x : string) (l : list string) :
  member x l = false <-> ~ In x l.
Proof. rewrite <- member_In. now destruct (member x l). Qed.

Lemma member_cons (x y : string) (l : list string) :
  member x (y :: l) = String.eqb x y || member x l.
Proof. reflexivity. Qed.

(** One turn of the inner include loop, told from [files]. *)
Lemma recordMatch_tracks (st : IncludeState) (x : string) :
  tracks st ->
  if member "hasOwnProperty" (files st) then recordMatch st x = Threw notAFunction
  else if member x (files st) && negb (String.eqb x "__proto__")
       then recordMatch st x = Returned st
       else exists st',
              recordMatch st x = Returned st'
              /\ files st' = files st ++ [x]
              /\ tracks st'.
Proof.
  intros Hst. unfold recordMatch, hasOwnProperty.
  destruct (member "hasOwnProperty" (files st)) eqn:Eh.
  - apply member_In in Eh.
    destruct (proj2 (Hst "hasOwnProperty")) as [b ->]; [|reflexivity].
    split; [exact Eh | discriminate].
  - destruct (pathsSeen st !! "hasOwnProperty") as [b|] eqn:E.
    { destruct (proj1 (Hst "hasOwnProperty")) as [Hin _]; [now rewrite E|].
      apply member_In in Hin. congruence. }
    destruct (member x (files st) && negb (String.eqb x "__proto__")) eqn:Ex.
    + apply andb_true_iff in Ex as [Hx Hp].
      apply member_In in Hx. apply negb_true_iff, String.eqb_neq in Hp.
      destruct (proj2 (Hst x) (conj Hx Hp)) as [b ->]. reflexivity.
    + destruct (pathsSeen st !! x) as [b|] eqn:Elook.
      { exfalso. destruct (proj1 (Hst x)) as [Hin Hne]; [now rewrite Elook|].
        apply member_In in Hin. rewrite Hin in Ex. simpl in Ex.
        apply negb_false_iff, String.eqb_eq in Ex. contradiction. }
      eexists. split; [reflexivity|]. split; [reflexivity|].
      intros y. simpl. unfold setProperty.
      destruct (String.eqb_spec x "__proto__") as [->|Hne]; cbv iota.
      * rewrite (Hst y), in_app_iff. simpl. split; [tauto|].
        intros [[H|[H|[]]] Hy]; [tauto | congruence].
      * rewrite lookup_insert_is_Some, (Hst y), in_app_iff. simpl.
        destruct (decide (x = y)) as [->|Hxy]; tauto.
Qed.

(** The inner include loop does what [collect] does with [files]. *)
Lemma recordMatch_collect (matches : list string) (st : IncludeState) :
  tracks st ->
  mapOutcome files (forEach recordMatch matches st) = collect (files st) matches.
Proof.
  revert st. induction matches as [|x r IH]; intros st Hst; simpl; [reflexivity|].
  pose proof (recordMatch_tracks st x Hst) as H.
  destruct (member "hasOwnProperty" (files st)); [now rewrite H|].
  destruct (member x (files st) && negb (String.eqb x "__proto__")).
  - rewrite H. now apply IH.
  - destruct H as (st' & -> & Hf & Ht). rewrite <- Hf. now apply IH.
Qed.

Lemma includePhase_collect (allFiles includes : list string) :
  includePhase host allFiles includes
  = collect [] (includeMatches host allFiles includes).
Proof.
  unfold includePhase. rewrite applyInclude_concat.
  change (@nil string) with (files includeStart).
  rewrite <- recordMatch_collect.
  - now destruct (forEach recordMatch _ includeStart).
  - intros x. simpl. rewrite lookup_empty.
    split; [intros [? ?]; discriminate | tauto].
Qed.

(** When the loop is cut short, and what it yields when it is not. *)
Lemma collect_result (matches files : list string) :
  member "hasOwnProperty" files = false ->
  collect files matches
  = if cutShort matches then Threw notAFunction
    else Returned (files ++ firstMatches files matches).
Proof.
  unfold cutShort. revert files.
  induction matches as [|x r IH]; intros files Hf.
  - simpl. now rewrite app_nil_r.
  - cbn [collect firstMatches]. rewrite Hf.
    destruct (member x files && negb (String.eqb x "__proto__")) eqn:Ex.
    + rewrite (IH files Hf). destruct r as [|y r']; [reflexivity|].
      change (removelast (x :: y :: r')) with (x :: removelast (y :: r')).
      rewrite member_cons.
      assert (String.eqb "hasOwnProperty" x = false) as ->; [|reflexivity].
      apply andb_true_iff in Ex as [Hx _]. apply String.eqb_neq.
      intros <-. congruence.
    + destruct (String.eqb_spec "hasOwnProperty" x) as [<-|Hne].
      * destruct r as [|y r']; [reflexivity|].
        change (removelast ("hasOwnProperty" :: y :: r'))
          with ("hasOwnProperty" :: removelast (y :: r')).
        cbn [collect]. rewrite member_app, member_cons, String.eqb_refl.
        now rewrite orb_true_r.
      * assert (member "hasOwnProperty" (files ++ [x]) = false) as Hf'.
        { rewrite member_app, Hf, member_cons.
          change (member "hasOwnProperty" []) with false.
          rewrite orb_false_l, orb_false_r. now apply String.eqb_neq. }
        rewrite (IH _ Hf'), <- app_assoc. simpl.
        destruct r as [|y r']; [reflexivity|].
        change (removelast (x :: y :: r')) with (x :: removelast (y :: r')).
        rewrite member_cons.
        apply String.eqb_neq in Hne. now rewrite Hne.
Qed.

(** A path is appended when it is among the matches and either is not
    in [files] yet or is [__proto__]. *)
Lemma firstMatches_In (matches seen : list string) (f : string) :
  In f (firstMatches seen matches)
  <-> In f matches /\ (~ In f seen \/ f = "__proto__").
Proof.
  revert seen. induction matches as [|x r IH]; intros seen; simpl; [tauto|].
  destruct (member x seen && negb (String.eqb x "__proto__")) eqn:Ex.
  - apply andb_true_iff in Ex as [Hx Hp].
    apply member_In in Hx. apply negb_true_iff, String.eqb_neq in Hp.
    rewrite IH. split; [tauto|].
    intros [[->|H] Hc]; [|tauto]. destruct Hc; contradiction.
  - assert (~ In x seen \/ x = "__proto__") as Hnew.
    { apply andb_false_iff in Ex as [Hx|Hp].
      - left. now apply member_false.
      - right. now apply negb_false_iff, String.eqb_eq in Hp. }
    simpl. rewrite IH, in_app_iff. simpl. split.
    + intros [<-|(Hr & Hc)]; [tauto|]. tauto.
    + intros [[->|Hr] Hc]; [tauto|].
      destruct (string_dec x f) as [->|Hne]; [tauto|]. right. tauto.
Qed.

(** Of every path but [__proto__], one occurrence at most is
    appended. *)
Lemma firstMatches_NoDup (matches seen : list string) :
  NoDup (List.filter (fun f => negb (String.eqb f "__proto__"))
           (firstMatches seen matches)).
Proof.
  revert seen. induction matches as [|x r IH]; intros seen; simpl; [constructor|].
  destruct (member x seen && negb (String.eqb x "__proto__")) eqn:Ex; [apply IH|].
  simpl. destruct (String.eqb_spec x "__proto__") as [->|Hne]; simpl; [apply IH|].
  constructor; [|apply IH].
  rewrite list_elem_of_In, filter_In, firstMatches_In, in_app_iff. simpl.
  tauto.
Qed.

(** Without [__proto__] among the matches, what is appended are the
    first occurrences of the matches that [files] does not hold. *)
Lemma firstMatches_dedup (matches seen : list string) :
  member "__proto__" matches = false ->
  firstMatches seen matches
  = dedupFirst (List.filter (fun y => negb (member y seen)) matches).
Proof.
  revert seen. induction matches as [|x r IH]; intros seen Hp; [reflexivity|].
  rewrite member_cons in Hp. apply orb_false_iff in Hp as [Hx Hr].
  simpl. rewrite String.eqb_sym in Hx. rewrite Hx, andb_true_r.
  destruct (member x seen) eqn:Es; simpl; [now apply IH|].
  rewrite (IH _ Hr). f_equal.
  rewrite <- dedupFirst_filter, <- filter_both. f_equal.
  apply filter_ext. intros y.
  rewrite member_app, member_cons. simpl. rewrite orb_false_r, negb_orb.
  apply andb_comm.
Qed.

Lemma removelast_In (x : string) (l : list string) :
  In x (removelast l) -> In x l.
Proof.
  induction l as [|y r IH]; [tauto|].
  destruct r as [|z r']; [intros []|].
  change (removelast (y :: z :: r')) with (y :: removelast (z :: r')).
  intros [->|H]; [now left | right; now apply IH].
Qed.

Lemma cutShort_ordinary (matches : list string) :
  member "hasOwnProperty" matches = false -> cutShort matches = false.
Proof.
  unfold cutShort. rewrite !member_false.
  intros H Hin. now apply H, removelast_In.
Qed.

Lemma includeMatches_In (allFiles includes : list string) (f : string) :
  In f (includeMatches host allFiles includes)
  <-> In f allFiles /\ selectedBy host includes f = true.
Proof.
  unfold includeMatches, selectedBy. rewrite in_concat, existsb_exists. split.
  - intros (l & Hl & Hf). apply in_map_iff in Hl as (p & <- & Hp).
    unfold minimatch_match in Hf. apply filter_In in Hf as [Hf Hm]. eauto.
  - intros (Hf & p & Hp & Hm). eexists. split.
    + apply in_map_iff. exists p. split; [reflexivity | exact Hp].
    + unfold minimatch_match. apply filter_In. auto.
Qed.

(** Matches of ordinary paths are ordinary. *)
Lemma includeMatches_ordinary (allFiles includes : list string) :
  ordinaryPaths allFiles = true ->
  member "__proto__" (includeMatches host allFiles includes) = false
  /\ member "hasOwnProperty" (includeMatches host allFiles includes) = false.
Proof.
  unfold ordinaryPaths. rewrite andb_true_iff, !negb_true_iff, !member_false.
  intros [Hp Hh]. split; intros Hin; apply includeMatches_In in Hin; tauto.
Qed.

(** The function as a whole: classification, the include loop over the
    matches among the files that are no directories, then the exclude
    phase. *)
Lemma getFilesToCopy_phases (sourceFolder : string) (contents : list string) :
  getFilesToCopy host sourceFolder contents
  = mapOutcome
      (fun files =>
         fold_left (narrow host)
           (excludeContents
              (addIncludeAll (classifyContents host sourceFolder contents)))
           files)
      (collect [] (matchesOf host sourceFolder contents)).
Proof.
  unfold getFilesToCopy, matchesOf.
  rewrite includePhase_collect, enumerateFiles_nonDirectories.
  destruct (collect [] _); simpl; [now rewrite excludePhase_narrow | reflexivity].
Qed.

(** Either the call throws, because the include loop is cut short, or
    it returns what the loop has appended, as far as every exclude
    expression matches it. *)
Lemma getFilesToCopy_outcome (sourceFolder : string) (contents : list string) :
  getFilesToCopy host sourceFolder contents
  = if cutShort (matchesOf host sourceFolder contents) then Threw notAFunction
    else Returned
           (List.filter
              (survives host
                 (excludeContents
                    (addIncludeAll (classifyContents host sourceFolder contents))))
              (firstMatches [] (matchesOf host sourceFolder contents))).
Proof.
  rewrite getFilesToCopy_phases, collect_result by reflexivity.
  destruct (cutShort _); simpl; [reflexivity|].
  now rewrite narrow_all_survives.
Qed.

Lemma specifiedSelection_filter (sourceFolder : string) (contents : list string) :
  specifiedSelection host sourceFolder contents
  = List.filter
      (survives host
         (excludeContents (addIncludeAll (classifyContents host sourceFolder contents))))
      (dedupFirst (matchesOf host sourceFolder contents)).
Proof. unfold specifiedSelection. now rewrite narrow_all_survives. Qed.

(** Where none of the matches has one of the two names, the call
    returns the selection of the specification. *)
Lemma getFilesToCopy_ordinary_matches (sourceFolder : string)
    (contents : list string) :
  ordinaryPaths (matchesOf host sourceFolder contents) = true ->
  getFilesToCopy host sourceFolder contents
  = Returned (specifiedSelection host sourceFolder contents).
Proof.
  unfold ordinaryPaths. rewrite andb_true_iff, !negb_true_iff. intros [Hp Hh].
  rewrite getFilesToCopy_outcome.
  rewrite (cutShort_ordinary _ Hh), (firstMatches_dedup _ _ Hp).
  rewrite specifiedSelection_filter. do 3 f_equal.
  apply filter_every, Forall_forall. reflexivity.
Qed.

(** Patterns that are all includes: what classification returns. *)
Lemma classify_includes_only (sourceFolder : string) (contents : list string) :
  Forall (fun p => isExclude (JsString.trim p) = false) contents ->
  classifyContents host sourceFolder contents
  = {| includeContents :=
         map (fun p => join (path host) sourceFolder (JsString.trim p)) contents;
       excludeContents := [] |}.
Proof.
  intros Hall.
  destruct (classifyContents_lists host sourceFolder contents) as [Hi He].
  destruct (classifyContents host sourceFolder contents) as [inc exc].
  simpl in *. subst inc exc. f_equal.
  - rewrite filter_every, map_map.
    + apply map_ext_in. intros p Hp. unfold globExpression.
      rewrite Forall_forall in Hall. rewrite Hall; [reflexivity|].
      now apply list_elem_of_In.
    + apply Forall_map. eapply Forall_impl; [exact Hall|].
      simpl. intros p Hp. now rewrite Hp.
  - rewrite filter_none; [reflexivity|]. now apply Forall_map.
Qed.

(** Patterns that are all excludes: what classification returns. *)
Lemma classify_excludes_only (sourceFolder : string) (contents : list string) :
  Forall (fun p => isExclude (JsString.trim p) = true) contents ->
  classifyContents host sourceFolder contents
  = {| includeContents := [];
       excludeContents :=
         map (fun p => globExpression host sourceFolder (JsString.trim p)) contents |}.
Proof.
  intros Hall.
  destruct (classifyContents_lists host sourceFolder contents) as [Hi He].
  destruct (classifyContents host sourceFolder contents) as [inc exc].
  simpl in *. subst inc exc. f_equal.
  - rewrite filter_none; [reflexivity|]. apply Forall_map.
    eapply Forall_impl; [exact Hall|]. simpl. intros p Hp. now rewrite Hp.
  - rewrite filter_every, map_map; [reflexivity|]. now apply Forall_map.
Qed.

End SelectionFacts.

(** C2. The specification asks for the union of the include matches
    without duplicates.  In a working directory that holds the files
    [__proto__] and [z], the patterns [**] and [*] match both files
    each.  The script selects [__proto__] twice: the object [pathsSeen]
    never holds that name, so each of its matches counts as new.  Where
    the first match is a file [hasOwnProperty], the next test of
    [pathsSeen] throws, and the call returns no selection at all. *)
Theorem duplicates_not_eliminated :
  let host := workingDirectory ["__proto__"; "z"] in
  let matches :=
    List.concat
      (map (fun p =>
              minimatch_match host (nonDirectories host ".")
                (join (path host) "." (JsString.trim p)) (matchOptions host))
         ["**"; "*"]) in
  Forall (fun p => isExclude (JsString.trim p) = false) ["**"; "*"]
  /\ matches = ["__proto__"; "z"; "__proto__"; "z"]
  /\ dedupFirst matches = ["__proto__"; "z"]
  /\ getFilesToCopy host "." ["**"; "*"] = Returned ["__proto__"; "z"; "__proto__"]
  /\ getFilesToCopy (workingDirectory ["hasOwnProperty"; "z"]) "." ["**"; "*"]
     = Threw notAFunction.
Proof. vm_compute. repeat split; repeat constructor. Qed.

(** C3. The exclude phase starts from the result of the include phase;
    every exclude pattern is matched against what the patterns before it
    have left, what it leaves is a part of that, in the same order, and
    so one more exclude pattern never makes the selection longer; the
    selection is a part of the result of the include phase. *)
Theorem exclude_narrowing (host : Host) :
  (forall sourceRoot contents,
     let filters := addIncludeAll (classifyContents host sourceRoot contents) in
     getFilesToCopy host sourceRoot contents
     = match includePhase host (enumerateFiles host sourceRoot)
               (includeContents filters) with
       | Returned files =>
           Returned (excludePhase host files (excludeContents filters))
       | Threw err => Threw err
       end)
  /\ (forall files, excludePhase host files [] = files)
  /\ (forall files applied pattern,
        let before := excludePhase host files applied in
        let after := excludePhase host files (applied ++ [pattern]) in
        after = minimatch_match host before pattern (matchOptions host)
        /\ sublist after before
        /\ after ⊆ before
        /\ List.length after <= List.length before)
  /\ (forall files excludes, sublist (excludePhase host files excludes) files).
Proof.
  split; [reflexivity|]. split; [reflexivity|].
  split; [|intros files excludes; rewrite excludePhase_narrow;
           apply narrow_all_sublist].
  intros files applied pattern before after.
  assert (after = narrow host before pattern) as E.
  { subst after before. unfold excludePhase.
    now rewrite fold_left_app, <- applyExclude_narrow. }
  assert (sublist after before) as Hsub
    by (rewrite E; apply sublist_filter).
  repeat split.
  - exact E.
  - exact Hsub.
  - now apply sublist_subseteq.
  - now apply sublist_length.
Qed.

(** The same at the level of the pattern list.  A further exclude
    pattern at the end of a list that is not empty narrows the selection
    by its glob expression. *)
Lemma classifyContents_snoc (host : Host) (sourceFolder : string)
    (contents : list string) (p : string) :
  classifyContents host sourceFolder (contents ++ [p])
  = pushClassified (classifyContents host sourceFolder contents)
      (classifyPattern host sourceFolder (JsString.trim p)).
Proof. unfold classifyContents. now rewrite map_app, fold_left_app. Qed.

Lemma classified_somewhere (host : Host) (sourceFolder : string)
    (contents : list string) :
  contents <> [] ->
  includeContents (classifyContents host sourceFolder contents) = [] ->
  excludeContents (classifyContents host sourceFolder contents) <> [].
Proof.
  destruct (classifyContents_lists host sourceFolder contents) as [-> ->].
  destruct contents as [|c r]; [contradiction|]. intros _. simpl.
  destruct (isExclude (JsString.trim c)); simpl; discriminate.
Qed.

Lemma one_more_exclude_pattern (host : Host) (sourceRoot : string)
    (contents : list string) (p : string) :
  contents <> [] ->
  isExclude (JsString.trim p) = true ->
  getFilesToCopy host sourceRoot (contents ++ [p])
  = mapOutcome
      (fun files =>
         narrow host files (globExpression host sourceRoot (JsString.trim p)))
      (getFilesToCopy host sourceRoot contents).
Proof.
  intros Hne Hp.
  rewrite !getFilesToCopy_phases. unfold matchesOf.
  rewrite classifyContents_snoc, classifyPattern_globExpression, Hp.
  pose proof (classified_somewhere host sourceRoot contents Hne) as Hsome.
  destruct (classifyContents host sourceRoot contents) as [inc exc].
  unfold addIncludeAll. simpl in *.
  destruct inc as [|i inc]; simpl.
  - destruct exc as [|e exc]; [now elim Hsome|]. simpl.
    destruct (collect [] _); simpl; [now rewrite fold_left_app | reflexivity].
  - destruct (collect [] _); simpl; [now rewrite fold_left_app | reflexivity].
Qed.

(** On the empty list there is nothing to narrow: its selection is
    empty, and the first exclude pattern brings the implicit ["**"]
    with it. *)
Example first_exclude_on_empty_contents :
  getFilesToCopy Sample.tree "/src" [] = Returned []
  /\ getFilesToCopy Sample.tree "/src" ["!sub/**"]
     = Returned ["/src/.hidden"; "/src/a.txt"].
Proof. split; reflexivity. Qed.

(** C4. The specification asks that patterns which are all exclude
    patterns select every file, narrowed by them.  The implicit [**] is
    added to the include list as asked for.  But in a working directory
    that holds the files [hasOwnProperty] and [z], where the narrowing
    would leave both files, the include loop records [hasOwnProperty]
    and throws at the next match, and the call returns no selection.
    The defect is the one of C2. *)
Theorem implicit_include_all_cut_short :
  let host := workingDirectory ["hasOwnProperty"; "z"] in
  let filters := addIncludeAll (classifyContents host "." ["!nothing"]) in
  Forall (fun p => isExclude (JsString.trim p) = true) ["!nothing"]
  /\ includeContents filters = ["**"]
  /\ excludeContents filters = ["!nothing"]
  /\ nonDirectories host "." = ["hasOwnProperty"; "z"]
  /\ fold_left (narrow host) (excludeContents filters) (nonDirectories host ".")
     = ["hasOwnProperty"; "z"]
  /\ getFilesToCopy host "." ["!nothing"] = Threw notAFunction.
Proof. vm_compute. repeat split; repeat constructor. Qed.

(** ** The event log *)

Section LogFacts.

Lemma countEvents_app (p : Event -> bool) (l1 l2 : list Event) :
  countEvents p (l1 ++ l2) = countEvents p l1 + countEvents p l2.
Proof. unfold countEvents. now rewrite List.filter_app, List.length_app. Qed.

(** Events of one sort contain none of a sort disjoint from it. *)
Lemma countEvents_none (p q : Event -> bool) (l : list Event) :
  (forall e, q e = true -> p e = false) ->
  forallb q l = true -> countEvents p l = 0.
Proof.
  intros Hpq. unfold countEvents.
  induction l as [|e r IH]; simpl; [reflexivity|].
  intros H. apply andb_true_iff in H as [He Hr].
  rewrite (Hpq e He). now apply IH.
Qed.

Lemma taskFailed_app (l1 l2 : list Event) :
  taskFailed (l1 ++ l2) = taskFailed l1 || taskFailed l2.
Proof. apply existsb_app. Qed.

Lemma taskFailed_none (q : Event -> bool) (l : list Event) :
  (forall e, q e = true -> isSetResultFailed e = false) ->
  forallb q l = true -> taskFailed l = false.
Proof.
  intros Hq. unfold taskFailed.
  induction l as [|e r IH]; simpl; [reflexivity|].
  intros H. apply andb_true_iff in H as [He Hr].
  rewrite (Hq e He). now apply IH.
Qed.

Lemma startedFiles_app (l1 l2 : list Event) :
  startedFiles (l1 ++ l2) = startedFiles l1 ++ startedFiles l2.
Proof. unfold startedFiles. apply omap_app. Qed.

Lemma startedFiles_none (l : list Event) :
  forallb isPreparation l = true -> startedFiles l = [].
Proof.
  unfold startedFiles.
  induction l as [|e r IH]; simpl; [reflexivity|].
  intros H. apply andb_true_iff in H as [He Hr].
  assert (startedFile e = None) as E.
  { destruct e as [m| | | | | | | |]; try discriminate; try reflexivity.
    destruct m; try discriminate; reflexivity. }
  cbn [omap]. rewrite E. now apply IH.
Qed.

Lemma preparation_not_failed (e : Event) :
  isPreparation e = true -> isSetResultFailed e = false.
Proof. destruct e as [m| | | | | | | |]; try discriminate; reflexivity. Qed.

Lemma preparation_not_close (e : Event) :
  isPreparation e = true -> isCloseConnection e = false.
Proof. destruct e as [m| | | | | | | |]; try discriminate; reflexivity. Qed.


Lemma preparation_not_transfer (e : Event) :
  isPreparation e = true -> isTransfer e = false.
Proof. destruct e as [m| | | | | | | |]; try discriminate; reflexivity. Qed.

Lemma preparation_not_file_error (e : Event) :
  isPreparation e = true -> isFileError e = false.
Proof. destruct e as [m| | | | | | | |]; try discriminate; reflexivity. Qed.

Lemma copy_not_failed (e : Event) :
  isCopyEvent e = true -> isSetResultFailed e = false.
Proof. destruct e; try discriminate; reflexivity. Qed.

Lemma copy_not_close (e : Event) :
  isCopyEvent e = true -> isCloseConnection e = false.
Proof. destruct e; try discriminate; reflexivity. Qed.


End LogFacts.

(** ** The orchestrator *)

(** Unfolding of the combinators of the task monad. *)
Ltac unfold_task :=
  unfold getReadyTimeoutVariable, required, optional, truthy, newSshHelper,
    readSshHelper, callRemote, emit, throw, call, tryCatch, tryFinally,
    mbind, task_bind, mret, task_ret in *.

(** Case analysis on every [match] whose scrutinee holds no [match]. *)
Ltac split_matches :=
  repeat match goal with
         | |- context [match ?x with _ => _ end] =>
             lazymatch x with
             | context [match _ with _ => _ end] => fail
             | _ => destruct x eqn:?
             end
         end.

Section OrchestratorFacts.

Context {W : Type}.
Variable host : Host.
Variable remote : Remote W.

(** Reading the inputs leaves the remote side and [sshHelper] alone,
    whether it returns or throws, and logs nothing but console lines. *)
Lemma readInputs_log (inputs : Inputs) (st : TaskState W) :
  exists added,
    (readInputs host inputs st).2
    = {| world := world st; sshHelper := sshHelper st; events := events st ++ added |}
    /\ forallb isPreparation added = true.
Proof.
  unfold readInputs. unfold_task. destruct st as [w h ev].
  split_matches; simpl in *;
    solve [ exists []; split; [now rewrite app_nil_r | reflexivity]
          | eexists [_]; split; reflexivity ].
Qed.

(** The settings that a successful reading returns. *)
Lemma readInputs_settings (inputs : Inputs) (st st1 : TaskState W) (s : Settings) :
  readInputs host inputs st = (Returned s, st1) ->
  cleanTargetFolder s = in_cleanTargetFolder inputs
  /\ overwrite s = in_overwrite inputs
  /\ failOnEmptySource s = in_failOnEmptySource inputs
  /\ flattenFolders s = in_flattenFolders inputs
  /\ isWindowsOnTarget s = in_isWindowsOnTarget inputs
  /\ in_contents inputs = Some (contents s)
  /\ in_sourceFolder inputs = Some (sourceFolder s)
  /\ isDirectory host (sourceFolder s) = true
  /\ targetFolder s
     = match optional (in_targetFolder inputs) with
       | None => "./"
       | Some targetFolder => JsString.replaceHomePrefix targetFolder
       end.
Proof.
  unfold readInputs. unfold_task. destruct st as [w h ev].
  split_matches; simpl in *; intros H; inversion H; subst; simpl;
    repeat split; try reflexivity; try assumption;
    try (now apply negb_false_iff).
Qed.

(** Once [connect] has run, [sshHelper] is set, whether the connection
    and the clean-up succeeded or not. *)
Lemma connect_log (s : Settings) (st : TaskState W) :
  exists w added,
    (connect remote s st).2
    = {| world := w; sshHelper := Some (sshConfig s); events := events st ++ added |}
    /\ forallb isPreparation added = true.
Proof.
  unfold connect. unfold_task. destruct st as [w h ev]. simpl.
  split_matches; simpl in *;
    eexists; eexists; (split; [rewrite <- ?app_assoc; reflexivity | reflexivity]).
Qed.

Lemma disconnect_result (st : TaskState W) :
  disconnect remote st
  = (Returned tt,
     match sshHelper st with
     | Some _ =>
         {| world := closeConnection remote (world st); sshHelper := sshHelper st;
            events := events st ++ [SshCloseConnection] |}
     | None => st
     end).
Proof.
  unfold disconnect. unfold_task. destruct st as [w h ev]. simpl.
  now destruct h.
Qed.

(** One file: the copy is announced with the target path, then the
    remote side is asked whether the target exists, unless overwriting
    is allowed, and the file is sent unless the target exists. *)
Lemma copyFile_log (flatten overwriteAllowed : bool)
    (source target fileToCopy : string) (st : TaskState W) :
  let targetPath := targetPathOf host flatten source target fileToCopy in
  exists w tail,
    (copyFile host remote flatten overwriteAllowed source target fileToCopy st).2
    = {| world := w; sshHelper := sshHelper st;
         events := events st
                   ++ ConsoleLog (Loc2 "StartedFileCopy" (Text fileToCopy) (Text targetPath))
                      :: tail |}
    /\ Forall (fun e => e = SshCheckRemotePathExists targetPath
                        \/ e = SshUploadFile fileToCopy targetPath) tail.
Proof.
  intros targetPath. unfold copyFile. fold targetPath. unfold_task.
  destruct st as [w h ev]. simpl.
  split_matches; simpl in *;
    eexists; eexists;
    (split;
     [ rewrite <- ?app_assoc; simpl; reflexivity
     | repeat (constructor; [first [now left | now right]|]); constructor ]).
Qed.

Lemma startedFiles_cons (e : Event) (l : list Event) :
  startedFiles (e :: l)
  = match startedFile e with
    | Some f => f :: startedFiles l
    | None => startedFiles l
    end.
Proof. reflexivity. Qed.

Lemma countEvents_cons (p : Event -> bool) (e : Event) (l : list Event) :
  countEvents p (e :: l) = (if p e then 1 else 0) + countEvents p l.
Proof. unfold countEvents. simpl. now destruct (p e). Qed.

(** What one file adds to the log after the announcement is neither a
    console line nor an error. *)
Lemma copy_tail_facts (targetPath fileToCopy : string) (tail : list Event) :
  Forall (fun e => e = SshCheckRemotePathExists targetPath
                   \/ e = SshUploadFile fileToCopy targetPath) tail ->
  forallb isCopyEvent tail = true
  /\ startedFiles tail = []
  /\ countEvents isFileError tail = 0.
Proof.
  induction 1 as [|e r He Hr IH]; [now repeat split|].
  destruct IH as (IH1 & IH2 & IH3).
  unfold startedFiles, countEvents in *.
  destruct He as [-> | ->]; simpl; rewrite IH1; repeat split; assumption.
Qed.

(** The result of one copy and its effect on the remote side depend on
    the remote side only. *)
Lemma copyFile_frame (flatten overwriteAllowed : bool)
    (source target fileToCopy : string) (st st' : TaskState W) :
  world st = world st' ->
  (copyFile host remote flatten overwriteAllowed source target fileToCopy st).1
  = (copyFile host remote flatten overwriteAllowed source target fileToCopy st').1
  /\ world (copyFile host remote flatten overwriteAllowed source target fileToCopy st).2
     = world (copyFile host remote flatten overwriteAllowed source target fileToCopy st').2.
Proof.
  destruct st as [w h ev], st' as [w' h' ev']. simpl. intros <-.
  unfold copyFile. unfold_task. simpl.
  split_matches; simpl in *; split; congruence.
Qed.

(** One turn of the loop: an error of [copyFile] is logged and counted,
    and in either case the loop goes on with the files that remain. *)
Lemma copyLoop_step (flatten overwriteAllowed : bool) (source target : string)
    (fileToCopy : string) (rest : list string) (n : nat) (st : TaskState W) :
  copyLoop host remote flatten overwriteAllowed source target (fileToCopy :: rest) n st
  = match copyFile host remote flatten overwriteAllowed source target fileToCopy st with
    | (Returned _, st1) =>
        copyLoop host remote flatten overwriteAllowed source target rest n st1
    | (Threw err, st1) =>
        copyLoop host remote flatten overwriteAllowed source target rest (S n)
          {| world := world st1; sshHelper := sshHelper st1;
             events := events st1
                       ++ [TlError (Loc2 "FailedOnFile" (Text fileToCopy) err)] |}
    end.
Proof.
  simpl. unfold_task.
  destruct (copyFile host remote flatten overwriteAllowed source target fileToCopy st)
    as [[u|err] st1]; reflexivity.
Qed.

(** The loop as a whole never throws: it starts a copy for every file,
    in order, and returns the count it was given plus the number of
    per-file errors it logged. *)
Lemma copyLoop_log (flatten overwriteAllowed : bool) (source target : string)
    (filesToCopy : list string) (n : nat) (st : TaskState W) :
  exists n' w added,
    copyLoop host remote flatten overwriteAllowed source target filesToCopy n st
    = (Returned n',
       {| world := w; sshHelper := sshHelper st; events := events st ++ added |})
    /\ forallb isCopyEvent added = true
    /\ startedFiles added = filesToCopy
    /\ n' = n + countEvents isFileError added.
Proof.
  revert n st. induction filesToCopy as [|f rest IH]; intros n st.
  - exists n, (world st), []. destruct st as [w h ev]. simpl.
    rewrite app_nil_r. repeat split. unfold countEvents. simpl. lia.
  - rewrite copyLoop_step.
    destruct (copyFile_log flatten overwriteAllowed source target f st)
      as (w1 & tail & Hst & Htail).
    destruct (copy_tail_facts _ _ _ Htail) as (T1 & T2 & T3).
    destruct (copyFile host remote flatten overwriteAllowed source target f st)
      as [[u|err] st1]; simpl in Hst; subst st1.
    + edestruct IH as (n' & w' & added & E & A1 & A2 & A3). rewrite E. simpl.
      exists n', w',
        (ConsoleLog (Loc2 "StartedFileCopy" (Text f)
                       (Text (targetPathOf host flatten source target f)))
           :: tail ++ added).
      split; [now rewrite <- app_assoc|].
      split; [simpl; now rewrite forallb_app, T1, A1|].
      split; [now rewrite startedFiles_cons, startedFiles_app, T2, A2|].
      rewrite countEvents_cons, countEvents_app, T3. simpl. lia.
    + edestruct IH as (n' & w' & added & E & A1 & A2 & A3). rewrite E. simpl.
      exists n', w',
        (ConsoleLog (Loc2 "StartedFileCopy" (Text f)
                       (Text (targetPathOf host flatten source target f)))
           :: tail ++ TlError (Loc2 "FailedOnFile" (Text f) err) :: added).
      split; [now rewrite <- !app_assoc|].
      split; [simpl; now rewrite forallb_app, T1; simpl; rewrite A1|].
      split; [now rewrite startedFiles_cons, startedFiles_app, startedFiles_cons, T2, A2|].
      rewrite countEvents_cons, countEvents_app, countEvents_cons, T3.
      simpl. lia.
Qed.

(** The count the loop returns depends on the remote side only, not on
    what has been logged before. *)
Lemma copyLoop_frame (flatten overwriteAllowed : bool) (source target : string)
    (filesToCopy : list string) (n : nat) (st st' : TaskState W) :
  world st = world st' ->
  (copyLoop host remote flatten overwriteAllowed source target filesToCopy n st).1
  = (copyLoop host remote flatten overwriteAllowed source target filesToCopy n st').1.
Proof.
  revert n st st'. induction filesToCopy as [|f rest IH]; intros n st st' Hw.
  - reflexivity.
  - rewrite !copyLoop_step.
    destruct (copyFile_frame flatten overwriteAllowed source target f st st' Hw)
      as [Hr Hw1].
    destruct (copyFile host remote flatten overwriteAllowed source target f st)
      as [[u|err] st1],
      (copyFile host remote flatten overwriteAllowed source target f st')
      as [[u'|err'] st1']; simpl in Hr, Hw1; try discriminate.
    + now apply IH.
    + injection Hr as <-. now apply IH.
Qed.

(** Selection and copying.  An error of the selection leaves the block
    as it is.  Otherwise the test of [filesToCopy] takes the first
    branch: the result is the announcement, what the loop logs, the
    completion line and, when the count is not zero, the failure of
    the task. *)
Lemma copyFiles_log (s : Settings) (st : TaskState W) :
  match getFilesToCopy host (sourceFolder s) (contents s) with
  | Threw err => copyFiles host remote s st = (Threw err, st)
  | Returned filesToCopy =>
      exists n w added,
        copyFiles host remote s st
        = (Returned tt,
           {| world := w; sshHelper := sshHelper st;
              events :=
                events st
                ++ ConsoleLog (Loc1 "CopyingFiles" (Count (List.length filesToCopy)))
                   :: added
                ++ ConsoleLog (Loc1 "CopyCompleted" (Count (List.length filesToCopy)))
                   :: (if (n =? 0)%nat then []
                       else [SetResultFailed (Loc1 "NumberFailed" (Count n))]) |})
        /\ forallb isCopyEvent added = true
        /\ startedFiles added = filesToCopy
        /\ n = countEvents isFileError added
        /\ (copyLoop host remote (flattenFolders s) (overwrite s) (sourceFolder s)
              (targetFolder s) filesToCopy 0 st).1 = Returned n
  end.
Proof.
  unfold copyFiles.
  destruct (getFilesToCopy host (sourceFolder s) (contents s))
    as [filesToCopy|err]; [|reflexivity].
  simpl. unfold_task. destruct st as [w0 h ev]. simpl.
  destruct (copyLoop_log (flattenFolders s) (overwrite s) (sourceFolder s)
              (targetFolder s) filesToCopy 0
              {| world := w0; sshHelper := h;
                 events := ev ++ [ConsoleLog (Loc1 "CopyingFiles"
                                                (Count (List.length filesToCopy)))] |})
    as (n & w & added & E & A1 & A2 & A3).
  simpl in E, A3. rewrite E.
  exists n, w, added. repeat split; try assumption.
  - destruct (n =? 0)%nat; simpl; rewrite <- !app_assoc; reflexivity.
  - erewrite copyLoop_frame; [rewrite E; reflexivity | reflexivity].
Qed.

(** The ways a run can go: an input is rejected, the connection or the
    clean-up fails, the selection throws, or the copy loop is reached.
    In each case [run] itself returns. *)
Lemma run_outcome (inputs : Inputs) (w : W) :
  match readInputs host inputs (initially w) with
  | (Threw err, st1) =>
      runTask host remote inputs w
      = (Returned tt,
         {| world := world st1; sshHelper := None;
            events := events st1 ++ [SetResultFailed err] |})
  | (Returned s, st1) =>
      match connect remote s st1 with
      | (Threw err, st2) =>
          runTask host remote inputs w
          = (Returned tt,
             {| world := closeConnection remote (world st2);
                sshHelper := Some (sshConfig s);
                events := events st2 ++ [SetResultFailed err; SshCloseConnection] |})
      | (Returned _, st2) =>
          match getFilesToCopy host (sourceFolder s) (contents s) with
          | Threw err =>
              runTask host remote inputs w
              = (Returned tt,
                 {| world := closeConnection remote (world st2);
                    sshHelper := Some (sshConfig s);
                    events := events st2
                              ++ [SetResultFailed err; SshCloseConnection] |})
          | Returned _ =>
              exists st3,
                copyFiles host remote s st2 = (Returned tt, st3)
                /\ runTask host remote inputs w
                   = (Returned tt,
                      {| world := closeConnection remote (world st3);
                         sshHelper := Some (sshConfig s);
                         events := events st3 ++ [SshCloseConnection] |})
          end
      end
  end.
Proof.
  unfold runTask, run, runBody, tryFinally, tryCatch, mbind, task_bind.
  destruct (readInputs_log inputs (initially w)) as (added1 & H1 & _).
  destruct (readInputs host inputs (initially w)) as [[s|err] st1]; simpl in H1.
  - destruct (connect_log s st1) as (w2 & added2 & H2 & _).
    destruct (connect remote s st1) as [[u|err] st2]; simpl in H2.
    + pose proof (copyFiles_log s st2) as H3.
      destruct (getFilesToCopy host (sourceFolder s) (contents s)) as [sel|err].
      * destruct H3 as (n & w3 & added3 & H3 & _).
        rewrite H3. eexists. split; [reflexivity|].
        rewrite disconnect_result. simpl. rewrite H2. reflexivity.
      * rewrite H3. unfold emit. rewrite disconnect_result. simpl. rewrite H2.
        simpl. now rewrite <- !app_assoc.
    + unfold emit. rewrite disconnect_result. simpl. rewrite H2. simpl.
      now rewrite <- !app_assoc.
  - unfold emit. rewrite disconnect_result. simpl. rewrite H1. reflexivity.
Qed.

Lemma forallb_append (p : Event -> bool) (l1 l2 : list Event) :
  forallb p l1 = true -> forallb p l2 = true -> forallb p (l1 ++ l2) = true.
Proof. intros H1 H2. now rewrite forallb_app, H1, H2. Qed.

(** The log of a run, told from the state in which the copy loop starts
    or in which the error before it was thrown. *)
Lemma run_log (inputs : Inputs) (w : W) :
  match beforeCopy host remote inputs (initially w) with
  | (Threw err, st) =>
      forallb isPreparation (events st) = true
      /\ sshHelper st
         = match (readInputs host inputs (initially w)).1 with
           | Returned s => Some (sshConfig s)
           | Threw _ => None
           end
      /\ (runTask host remote inputs w).1 = Returned tt
      /\ events (runTask host remote inputs w).2
         = events st
           ++ SetResultFailed err
              :: match sshHelper st with
                 | Some _ => [SshCloseConnection]
                 | None => []
                 end
  | (Returned (s, filesToCopy), st) =>
      forallb isPreparation (events st) = true
      /\ (readInputs host inputs (initially w)).1 = Returned s
      /\ getFilesToCopy host (sourceFolder s) (contents s) = Returned filesToCopy
      /\ exists n added,
           (copyLoop host remote (flattenFolders s) (overwrite s) (sourceFolder s)
              (targetFolder s) filesToCopy 0 st).1 = Returned n
           /\ forallb isCopyEvent added = true
           /\ startedFiles added = filesToCopy
           /\ n = countEvents isFileError added
           /\ (runTask host remote inputs w).1 = Returned tt
           /\ events (runTask host remote inputs w).2
              = events st
                ++ ConsoleLog (Loc1 "CopyingFiles" (Count (List.length filesToCopy)))
                   :: added
                ++ ConsoleLog (Loc1 "CopyCompleted" (Count (List.length filesToCopy)))
                   :: (if (n =? 0)%nat then []
                       else [SetResultFailed (Loc1 "NumberFailed" (Count n))])
                ++ [SshCloseConnection]
  end.
Proof.
  pose proof (run_outcome inputs w) as Hrun.
  unfold beforeCopy, call, mbind, task_bind, mret, task_ret.
  destruct (readInputs_log inputs (initially w)) as (added1 & H1 & P1).
  destruct (readInputs host inputs (initially w)) as [[s|err] st1]; simpl in H1.
  - destruct (connect_log s st1) as (w2 & added2 & H2 & P2).
    destruct (connect remote s st1) as [[u|err] st2]; simpl in H2.
    + assert (forallb isPreparation (events st2) = true) as P.
      { rewrite H2, H1. simpl. now apply forallb_append. }
      pose proof (copyFiles_log s st2) as H3'.
      destruct (getFilesToCopy host (sourceFolder s) (contents s))
        as [sel|err] eqn:Hsel.
      * destruct Hrun as (st3 & H3 & Hrun).
        destruct H3' as (n & w3 & added3 & H3' & A1 & A2 & A3 & A4).
        rewrite H3 in H3'. injection H3' as ->.
        simpl. split; [exact P|]. split; [reflexivity|]. split; [exact Hsel|].
        exists n, added3. rewrite Hrun. simpl.
        repeat split; try assumption.
        rewrite <- !app_assoc. simpl. rewrite <- !app_assoc. reflexivity.
      * rewrite Hrun. simpl. split; [exact P|]. rewrite H2. simpl.
        now repeat split.
    + rewrite Hrun. simpl. rewrite H2, H1. simpl.
      repeat split. now apply forallb_append.
  - rewrite Hrun. simpl. rewrite H1. simpl. now repeat split.
Qed.

End OrchestratorFacts.

(** C5. The specification asks that a run whose selection is empty fails
    when [failOnEmptySource] is set and logs a warning otherwise.  On
    the sample tree no file matches [*.md].  With the flag set the
    script returns without having failed the task; without the flag it
    returns without having logged a warning.  The two branches for
    [NothingToCopy] sit behind [if (filesToCopy)], and an empty array
    passes that test. *)
Theorem fail_on_empty_source_not_honoured :
  let outcome failOnEmptySource :=
    runTask Sample.tree Sample.sshHelperOf
      (Sample.inputsOf ["*.md"] failOnEmptySource) Sample.machine in
  getFilesToCopy Sample.tree "/src" ["*.md"] = Returned []
  /\ in_failOnEmptySource (Sample.inputsOf ["*.md"] true) = true
  /\ (outcome true).1 = Returned tt
  /\ taskFailed (events (outcome true).2) = false
  /\ in_failOnEmptySource (Sample.inputsOf ["*.md"] false) = false
  /\ (outcome false).1 = Returned tt
  /\ countEvents isWarning (events (outcome false).2) = 0
  /\ events (outcome true).2 = events (outcome false).2.
Proof. vm_compute. repeat split. Qed.

(** C6. The specification asks that [getFilesToCopy] returns an array
    for every input, and that a run whose selection is empty ends
    without a failure.  In a working directory that holds the files
    [hasOwnProperty] and [z], the patterns [*] and [!*] select nothing
    in the words of the specification.  The call returns no array: it
    throws, and the run fails the task with that error.  The defect is
    the one of C2. *)
Theorem selection_throws_instead_of_returning :
  let host := workingDirectory ["hasOwnProperty"; "z"] in
  let inputs := Sample.withSourceFolder (Sample.inputsOf ["*"; "!*"] false) "." in
  specifiedSelection host "." ["*"; "!*"] = []
  /\ getFilesToCopy host "." ["*"; "!*"] = Threw notAFunction
  /\ ~ (exists filesToCopy,
          getFilesToCopy host "." ["*"; "!*"] = Returned filesToCopy)
  /\ events (runTask host Sample.sshHelperOf inputs Sample.machine).2
     = [ConsoleLog (Loc0 "UseDefaultPort");
        SshSetupConnection
          {| cfg_host := "example.org"; cfg_port := "22"; cfg_username := "user";
             cfg_auth := AuthPassword (Some "secret");
             cfg_readyTimeout := Some 20000%Z |};
        SetResultFailed notAFunction;
        SshCloseConnection].
Proof.
  vm_compute. repeat split. intros [filesToCopy H]. discriminate H.
Qed.



Section LoopStep.

Context {W : Type}.
Variable host : Host.
Variable remote : Remote W.

(** One turn of the loop, by what the remote side answers.  The copy is
    announced; unless overwriting is allowed the remote side is asked
    whether the target exists; the file is sent unless it does.  An
    error of the check, a target that exists and an error of the
    transfer each end the turn with the error logged against the file
    and counted, and in every case the loop goes on with the files that
    remain. *)
Lemma copyLoop_cases (flatten overwriteAllowed : bool) (source target : string)
    (fileToCopy : string) (rest : list string) (n : nat) (st : TaskState W) :
  let targetPath := targetPathOf host flatten source target fileToCopy in
  let continue failureCount w added :=
    copyLoop host remote flatten overwriteAllowed source target rest failureCount
      {| world := w; sshHelper := sshHelper st;
         events := events st
                   ++ ConsoleLog (Loc2 "StartedFileCopy" (Text fileToCopy)
                                    (Text targetPath))
                      :: added |} in
  let failed err := TlError (Loc2 "FailedOnFile" (Text fileToCopy) err) in
  let send w checked :=
    match uploadFile remote fileToCopy targetPath w with
    | (Returned _, w') =>
        continue n w' (checked ++ [SshUploadFile fileToCopy targetPath])
    | (Threw err, w') =>
        continue (S n) w'
          (checked ++ [SshUploadFile fileToCopy targetPath; failed err])
    end in
  copyLoop host remote flatten overwriteAllowed source target (fileToCopy :: rest) n st
  = if overwriteAllowed then send (world st) []
    else
      match checkRemotePathExists remote targetPath (world st) with
      | (Threw err, w') =>
          continue (S n) w' [SshCheckRemotePathExists targetPath; failed err]
      | (Returned true, w') =>
          continue (S n) w'
            [SshCheckRemotePathExists targetPath;
             failed (Loc1 "FileExists" (Text targetPath))]
      | (Returned false, w') => send w' [SshCheckRemotePathExists targetPath]
      end.
Proof.
  intros targetPath continue failed send. subst continue failed send.
  rewrite copyLoop_step. unfold copyFile. fold targetPath. unfold_task.
  destruct st as [w h ev]. simpl.
  destruct overwriteAllowed; simpl.
  - destruct (uploadFile remote fileToCopy targetPath w) as [[r|err] w'];
      simpl; rewrite <- ?app_assoc; reflexivity.
  - destruct (checkRemotePathExists remote targetPath w) as [[[|]|err] w'];
      simpl; rewrite <- ?app_assoc; try reflexivity.
    destruct (uploadFile remote fileToCopy targetPath w') as [[r|err] w''];
      simpl; rewrite <- ?app_assoc; reflexivity.
Qed.

End LoopStep.

(** C7. The files are taken one after the other in the order of the
    selection.  An error thrown while a file is checked or sent is
    caught, logged with [tl.error] and counted, and the loop goes on
    with the next file, so a copy is started for every file.  The task
    is reported failed exactly when the count is not zero or an error
    was thrown before the loop. *)
Theorem per_file_failures {W : Type} (host : Host) (remote : Remote W) :
  (forall flatten overwriteAllowed source target fileToCopy rest n st,
     let targetPath := targetPathOf host flatten source target fileToCopy in
     let continue failureCount w added :=
       copyLoop host remote flatten overwriteAllowed source target rest
         failureCount
         {| world := w; sshHelper := sshHelper st;
            events := events st
                      ++ ConsoleLog (Loc2 "StartedFileCopy" (Text fileToCopy)
                                       (Text targetPath))
                         :: added |} in
     let failed err := TlError (Loc2 "FailedOnFile" (Text fileToCopy) err) in
     let send w checked :=
       match uploadFile remote fileToCopy targetPath w with
       | (Returned _, w') =>
           continue n w' (checked ++ [SshUploadFile fileToCopy targetPath])
       | (Threw err, w') =>
           continue (S n) w'
             (checked ++ [SshUploadFile fileToCopy targetPath; failed err])
       end in
     copyLoop host remote flatten overwriteAllowed source target
       (fileToCopy :: rest) n st
     = if overwriteAllowed then send (world st) []
       else
         match checkRemotePathExists remote targetPath (world st) with
         | (Threw err, w') =>
             continue (S n) w' [SshCheckRemotePathExists targetPath; failed err]
         | (Returned true, w') =>
             continue (S n) w'
               [SshCheckRemotePathExists targetPath;
                failed (Loc1 "FileExists" (Text targetPath))]
         | (Returned false, w') => send w' [SshCheckRemotePathExists targetPath]
         end)
  /\ (forall flatten overwriteAllowed source target filesToCopy n st,
        exists n' st' added,
          copyLoop host remote flatten overwriteAllowed source target
            filesToCopy n st = (Returned n', st')
          /\ events st' = events st ++ added
          /\ startedFiles added = filesToCopy
          /\ n' = n + countEvents isFileError added)
  /\ (forall inputs w,
        let log := events (runTask host remote inputs w).2 in
        taskFailed log
        = fatalBeforeCopy host remote inputs w
          || negb (failureCountOf host remote inputs w =? 0)%nat
        /\ countEvents isFileError log = failureCountOf host remote inputs w
        /\ startedFiles log
           = match beforeCopy host remote inputs (initially w) with
             | (Returned (_, filesToCopy), _) => filesToCopy
             | (Threw _, _) => []
             end).
Proof.
  split; [apply copyLoop_cases|].
  split.
  { intros flatten overwriteAllowed source target filesToCopy n st.
    destruct (copyLoop_log host remote flatten overwriteAllowed source target
                filesToCopy n st) as (n' & w & added & E & _ & A2 & A3).
    exists n'. eexists. exists added. rewrite E. now repeat split. }
  intros inputs w log. subst log.
  pose proof (run_log host remote inputs w) as H.
  unfold fatalBeforeCopy, failureCountOf.
  destruct (beforeCopy host remote inputs (initially w)) as [[[s sel]|err] st].
  - destruct H as (P & _ & _ & n & added & Hn & A1 & A2 & A3 & _ & ->).
    destruct (copyLoop host remote (flattenFolders s) (overwrite s) (sourceFolder s)
                (targetFolder s) sel 0 st)
      as [r st']. simpl in Hn. subst r.
    rewrite taskFailed_app, (taskFailed_none _ _ preparation_not_failed P).
    rewrite countEvents_app,
      (countEvents_none _ _ _ preparation_not_file_error P).
    rewrite startedFiles_app, (startedFiles_none _ P).
    change (?x :: added ++ ?y :: ?z) with ([x] ++ added ++ [y] ++ z).
    rewrite !taskFailed_app, !countEvents_app, !startedFiles_app.
    rewrite (taskFailed_none _ _ copy_not_failed A1), A2, <- A3.
    destruct (n =? 0)%nat eqn:En; simpl; rewrite ?app_nil_r; repeat split;
      unfold countEvents; simpl; lia.
  - destruct H as (P & _ & _ & ->).
    rewrite taskFailed_app, countEvents_app, startedFiles_app.
    rewrite (countEvents_none _ _ _ preparation_not_file_error P),
      (startedFiles_none _ P).
    destruct (sshHelper st); simpl; rewrite orb_true_r; now repeat split.
Qed.

(** C8, as the specification states it, fails.  When what follows the
    source root in the path begins with a backslash and then a slash,
    the script removes both characters, not one.  And the script does
    not look for the source root at the start of the path: it cuts off
    as many characters as the source root has.  For the source folder
    [./src], whose files are listed as [src/...], that cuts into the
    name of the file. *)
Lemma single_separator_counterexample :
  relativePathOf Sample.tree false "/src/" ("/src/" +:+ "\/x") = "x"
  /\ stripOneSeparator "\/x" = "/x"
  /\ relativePathOf Sample.tree false "/src/" ("/src/" +:+ "\/x")
     <> stripOneSeparator "\/x"
  /\ relativePathOf (Sample.hostOf ["src"; "src/a.txt"] ["src"]) false
       "./src" "src/a.txt" = ".txt".
Proof. repeat split. discriminate. Qed.

(** C8, amended.  With [flattenFolders] the relative path is the base
    name of the file.  Otherwise it is the path without as many leading
    characters as the source root has, which for a path that begins
    with the source root is what follows the source root, then without
    one leading backslash if there is one and then without one leading
    slash if there is one: one separator of either style is removed,
    and two when a backslash is followed by a slash.  The target path
    is the POSIX join of the target root and the relative path whatever
    the flavour of [path] on the host, and it is the path that is
    announced, checked and sent to. *)
Theorem target_path_resolution {W : Type} (host : Host) (remote : Remote W) :
  (forall source fileToCopy,
     relativePathOf host true source fileToCopy = basename (path host) fileToCopy)
  /\ (forall source fileToCopy,
        relativePathOf host false source fileToCopy
        = JsString.stripLeading "/"
            (JsString.stripLeading "\"
               (dropChars (String.length source) fileToCopy)))
  /\ (forall source rest,
        relativePathOf host false source (source +:+ rest)
        = JsString.stripLeading "/" (JsString.stripLeading "\" rest))
  /\ (forall source rest,
        relativePathOf host false source (source +:+ rest)
        = match rest with
          | String "\" (String "/" rest') => rest'
          | _ => stripOneSeparator rest
          end)
  /\ (forall flatten source target fileToCopy,
        targetPathOf host flatten source target fileToCopy
        = join (path_posix host) target
            (relativePathOf host flatten source fileToCopy))
  /\ (forall flavour name source target fileToCopy,
        targetPathOf (onPlatform host flavour name) false source target fileToCopy
        = targetPathOf host false source target fileToCopy)
  /\ (forall flatten overwriteAllowed source target fileToCopy st,
        let targetPath := targetPathOf host flatten source target fileToCopy in
        exists tail,
          events (copyFile host remote flatten overwriteAllowed source target
                    fileToCopy st).2
          = events st
            ++ ConsoleLog (Loc2 "StartedFileCopy" (Text fileToCopy) (Text targetPath))
               :: tail
          /\ Forall (fun e => e = SshCheckRemotePathExists targetPath
                              \/ e = SshUploadFile fileToCopy targetPath) tail).
Proof.
  split; [reflexivity|].
  split.
  { intros source fileToCopy. unfold relativePathOf.
    now rewrite js_substringFrom_drop. }
  assert (forall source rest,
            relativePathOf host false source (source +:+ rest)
            = JsString.stripLeading "/" (JsString.stripLeading "\" rest)) as Hrel
    by (intros source rest; unfold relativePathOf;
        now rewrite js_substringFrom_prefix).
  split; [exact Hrel|].
  split.
  { intros source rest. rewrite Hrel.
    destruct rest as [|c r]; [reflexivity|]. simpl.
    destruct (Ascii.eqb_spec c "\") as [->|Hc].
    - destruct r as [|d r']; [reflexivity|]. simpl.
      destruct (Ascii.eqb_spec d "/") as [->|Hd]; [reflexivity|].
      destruct d as [[] [] [] [] [] [] [] []]; try reflexivity. now elim Hd.
    - simpl. destruct (Ascii.eqb c "/") eqn:E; simpl.
      + apply Ascii.eqb_eq in E. now subst c.
      + destruct c as [[] [] [] [] [] [] [] []]; try reflexivity;
          solve [discriminate E | now elim Hc]. }
  split; [reflexivity|].
  split; [reflexivity|].
  intros flatten overwriteAllowed source target fileToCopy st targetPath.
  destruct (copyFile_log host remote flatten overwriteAllowed source target
              fileToCopy st) as (w & tail & E & Htail).
  exists tail. rewrite E. split; [reflexivity | exact Htail].
Qed.

(** C9. The specification asks for a command that empties the target
    folder whatever its path.  The script puts the folder between
    quotes, but as it is.  For the folder [it's] the script handed to
    [bash] is [rm -rf 'it's'/*]: the quoted word ends after [it], and
    of the three single quotes the last one is never closed.  For a
    folder without a quote, such as [./drop], the quoted word is the
    folder. *)
Theorem cleanup_command_breaks_on_quote :
  getCleanTargetFolderCmd false "it's"
  = "bash -c " +:+ dq +:+ "rm -rf 'it's'/*" +:+ dq
  /\ quotedFolder (getCleanTargetFolderCmd false "it's") = "it"
  /\ countChar "'" (getCleanTargetFolderCmd false "it's") = 3
  /\ quotedFolder (getCleanTargetFolderCmd false "./drop") = "./drop"
  /\ countChar "'" (getCleanTargetFolderCmd false "./drop") = 2.
Proof. vm_compute. repeat split. Qed.

(** X25. When clean-up is asked for and running the command throws, the
    run is over: the task is failed with [CleanTargetFolderFailed] and
    the error of the helper, the connection is closed, no file is
    selected and no copy is started. *)
Theorem cleanup_failure_is_fatal {W : Type} (host : Host) (remote : Remote W)
    (inputs : Inputs) (w w1 w2 : W) (s : Settings) (st1 : TaskState W) (err : Msg) :
  readInputs host inputs (initially w) = (Returned s, st1) ->
  cleanTargetFolder s = true ->
  setupConnection remote (sshConfig s) w = (Returned tt, w1) ->
  runCommandOnRemoteMachine remote
    (getCleanTargetFolderCmd (isWindowsOnTarget s) (targetFolder s)) w1
  = (Threw err, w2) ->
  runTask host remote inputs w
  = (Returned tt,
     {| world := closeConnection remote w2;
        sshHelper := Some (sshConfig s);
        events :=
          events st1
          ++ [SshSetupConnection (sshConfig s);
              ConsoleLog (Loc1 "CleanTargetFolder" (Text (targetFolder s)));
              SshRunCommand
                (getCleanTargetFolderCmd (isWindowsOnTarget s) (targetFolder s));
              SetResultFailed (Loc1 "CleanTargetFolderFailed" err);
              SshCloseConnection] |})
  /\ taskFailed (events (runTask host remote inputs w).2) = true
  /\ countEvents isTransfer (events (runTask host remote inputs w).2) = 0
  /\ startedFiles (events (runTask host remote inputs w).2) = [].
Proof.
  intros Hread Hclean Hsetup Hcommand.
  assert (runTask host remote inputs w
          = (Returned tt,
             {| world := closeConnection remote w2;
                sshHelper := Some (sshConfig s);
                events :=
                  events st1
                  ++ [SshSetupConnection (sshConfig s);
                      ConsoleLog (Loc1 "CleanTargetFolder" (Text (targetFolder s)));
                      SshRunCommand
                        (getCleanTargetFolderCmd (isWindowsOnTarget s)
                           (targetFolder s));
                      SetResultFailed (Loc1 "CleanTargetFolderFailed" err);
                      SshCloseConnection] |})) as E.
  { pose proof (run_outcome host remote inputs w) as H.
    destruct (readInputs_log host inputs (initially w)) as (added & Hst & _).
    rewrite Hread in H, Hst. simpl in Hst. subst st1.
    unfold connect in H. unfold_task. simpl in H.
    rewrite Hsetup, Hclean in H. simpl in H. rewrite Hcommand in H.
    rewrite H. simpl. now rewrite <- !app_assoc. }
  split; [exact E|]. rewrite E.
  destruct (readInputs_log host inputs (initially w)) as (added & Hst & P).
  rewrite Hread in Hst. simpl in Hst. subst st1. simpl.
  rewrite taskFailed_app, countEvents_app, startedFiles_app.
  rewrite (countEvents_none _ _ _ preparation_not_transfer P),
    (startedFiles_none _ P).
  split; [|split; reflexivity].
  apply orb_true_r.
Qed.

(** Clean-up on a machine that refuses every command. *)
Lemma cleanup_failure_is_fatal_witness :
  exists s st1 w1 w2 err,
    readInputs Sample.tree (Sample.withCleaning (Sample.inputsOf ["**"] false))
      (initially Sample.unwilling) = (Returned s, st1)
    /\ cleanTargetFolder s = true
    /\ setupConnection Sample.sshHelperOf (sshConfig s) Sample.unwilling
       = (Returned tt, w1)
    /\ runCommandOnRemoteMachine Sample.sshHelperOf
         (getCleanTargetFolderCmd (isWindowsOnTarget s) (targetFolder s)) w1
       = (Threw err, w2)
    /\ taskFailed
         (events (runTask Sample.tree Sample.sshHelperOf
                    (Sample.withCleaning (Sample.inputsOf ["**"] false))
                    Sample.unwilling).2) = true
    /\ startedFiles
         (events (runTask Sample.tree Sample.sshHelperOf
                    (Sample.withCleaning (Sample.inputsOf ["**"] false))
                    Sample.unwilling).2) = [].
Proof.
  do 5 eexists.
  split; [vm_compute; reflexivity|].
  split; [reflexivity|].
  split; [vm_compute; reflexivity|].
  split; [vm_compute; reflexivity|].
  edestruct (cleanup_failure_is_fatal Sample.tree Sample.sshHelperOf
               (Sample.withCleaning (Sample.inputsOf ["**"] false))
               Sample.unwilling)
    as (_ & Hfailed & _ & Hstarted);
    [vm_compute; reflexivity | reflexivity | vm_compute; reflexivity
    | vm_compute; reflexivity |].
  split; [exact Hfailed | exact Hstarted].
Defined.

(** C10, as the specification states it, fails: when the source folder
    turns out not to be a directory the script throws before the helper
    is created, and the [finally] block does not close anything. *)
Lemma disconnect_every_run_counterexample :
  let inputs := Sample.withSourceFolder (Sample.inputsOf ["**"] false) "/src/a.txt" in
  let out := runTask Sample.tree Sample.sshHelperOf inputs Sample.machine in
  events out.2 = [ConsoleLog (Loc0 "UseDefaultPort"); SetResultFailed (Loc0 "SourceNotFolder")]
  /\ countEvents isCloseConnection (events out.2) = 0
  /\ countEvents isCloseConnection (events out.2) <> 1.
Proof. vm_compute. repeat split. discriminate. Qed.

(** C10, amended.  [run] always returns.  When the inputs were read and
    checked without error the helper exists, and the connection is
    closed exactly once, as the last thing the run does, whether
    connecting, cleaning or copying then failed or not.  When reading
    the inputs threw there is no helper and nothing is closed. *)
Theorem disconnect_once_helper_exists {W : Type} (host : Host) (remote : Remote W)
    (inputs : Inputs) (w : W) :
  let out := runTask host remote inputs w in
  out.1 = Returned tt
  /\ countEvents isCloseConnection (events out.2)
     = match (readInputs host inputs (initially w)).1 with
       | Returned _ => 1
       | Threw _ => 0
       end
  /\ match (readInputs host inputs (initially w)).1 with
     | Returned _ =>
         last (events out.2) = Some SshCloseConnection
         /\ world out.2
            = closeConnection remote
                (world (tryCatch (runBody host remote inputs)
                          (fun err => emit (SetResultFailed err)) (initially w)).2)
     | Threw _ => sshHelper out.2 = None
     end.
Proof.
  intros out. subst out.
  pose proof (run_log host remote inputs w) as H.
  pose proof (run_outcome host remote inputs w) as Hout.
  unfold beforeCopy, call, mbind, task_bind, mret, task_ret in H.
  unfold tryCatch, runBody, mbind, task_bind.
  destruct (readInputs host inputs (initially w)) as [[s|err] st1]; simpl.
  - destruct (connect remote s st1) as [[u|err] st2]; simpl in *.
    + pose proof (copyFiles_log host remote s st2) as Hcopy.
      destruct (getFilesToCopy host (sourceFolder s) (contents s)) as [sel|err].
      * destruct H as (P & _ & _ & n & added & _ & A1 & _ & _ & Hr & E).
        destruct Hout as (st3 & H3 & Hout). rewrite H3.
        split; [exact Hr|]. rewrite E. split.
        -- rewrite countEvents_app, countEvents_cons, countEvents_app,
             countEvents_cons, countEvents_app.
           rewrite (countEvents_none _ _ _ preparation_not_close P),
             (countEvents_none _ _ _ copy_not_close A1).
           now destruct (n =? 0)%nat.
        -- split; [|now rewrite Hout].
           change (?x :: added ++ ?y :: ?z ++ ?c)
             with ([x] ++ added ++ [y] ++ z ++ c).
           rewrite !app_assoc. apply last_snoc.
      * destruct H as (P & Hh & Hr & E). rewrite Hh in E. rewrite Hcopy.
        split; [exact Hr|]. rewrite E. split.
        -- rewrite countEvents_app, (countEvents_none _ _ _ preparation_not_close P).
           reflexivity.
        -- split; [|now rewrite Hout].
           change (?x :: [?c]) with ([x] ++ [c]).
           rewrite !app_assoc. apply last_snoc.
    + destruct H as (P & Hh & Hr & E). rewrite Hh in E.
      split; [exact Hr|]. rewrite E. split.
      * rewrite countEvents_app, (countEvents_none _ _ _ preparation_not_close P).
        reflexivity.
      * split; [|now rewrite Hout].
        change (?x :: [?c]) with ([x] ++ [c]).
        rewrite !app_assoc. apply last_snoc.
  - destruct H as (P & Hh & Hr & E). rewrite Hh in E.
    split; [exact Hr|]. rewrite E. split.
    + rewrite countEvents_app, (countEvents_none _ _ _ preparation_not_close P).
      reflexivity.
    + now rewrite Hout.
Qed.

(** * Further properties of the code *)

(** ** Selection *)

Section SelectionAlgebra.

Variable host : Host.

(** One include pattern on its own. *)
Lemma specifiedSelection_single (sourceFolder p : string) :
  isExclude (JsString.trim p) = false ->
  specifiedSelection host sourceFolder [p]
  = dedupFirst
      (minimatch_match host (nonDirectories host sourceFolder)
         (join (path host) sourceFolder (JsString.trim p)) (matchOptions host)).
Proof.
  intros Hp. unfold specifiedSelection.
  rewrite (classify_includes_only host sourceFolder [p])
    by (repeat constructor; exact Hp).
  unfold addIncludeAll, includeMatches. simpl. now rewrite app_nil_r.
Qed.

Lemma filter_ordinary (l : list string) :
  ~ In "__proto__" l ->
  List.filter (fun f => negb (String.eqb f "__proto__")) l = l.
Proof.
  intros Hp. apply filter_every, Forall_forall. intros f Hf.
  apply list_elem_of_In in Hf. apply negb_true_iff, String.eqb_neq.
  intros ->. contradiction.
Qed.

End SelectionAlgebra.


(** X2. Whatever the patterns, a call that returns has selected paths
    of the listing that are no directories only, and none but
    [__proto__] twice; a selection without [__proto__] holds no path
    twice. *)
Theorem selection_distinct_files (host : Host) (sourceFolder : string)
    (contents filesToCopy : list string) :
  getFilesToCopy host sourceFolder contents = Returned filesToCopy ->
  NoDup (List.filter (fun f => negb (String.eqb f "__proto__")) filesToCopy)
  /\ filesToCopy ⊆ nonDirectories host sourceFolder
  /\ (~ In "__proto__" filesToCopy -> NoDup filesToCopy).
Proof.
  rewrite getFilesToCopy_outcome.
  destruct (cutShort _); [discriminate|]. intros H. injection H as <-.
  assert (NoDup
            (List.filter (fun f => negb (String.eqb f "__proto__"))
               (List.filter
                  (survives host
                     (excludeContents
                        (addIncludeAll (classifyContents host sourceFolder contents))))
                  (firstMatches [] (matchesOf host sourceFolder contents)))))
    as Hnodup
    by (rewrite filter_filter_comm; apply NoDup_filter, firstMatches_NoDup).
  split; [exact Hnodup|]. split.
  - intros f Hf. apply list_elem_of_In. apply list_elem_of_In in Hf.
    apply filter_In in Hf as [Hf _]. apply firstMatches_In in Hf as [Hf _].
    unfold matchesOf in Hf. now apply includeMatches_In in Hf as [Hf _].
  - intros Hp. now rewrite (filter_ordinary _ Hp) in Hnodup.
Qed.

(** The two patterns of the working directory with [__proto__] in it:
    the only path selected twice is [__proto__]. *)
Lemma selection_distinct_files_witness :
  getFilesToCopy (workingDirectory ["__proto__"; "z"]) "." ["**"; "*"]
  = Returned ["__proto__"; "z"; "__proto__"]
  /\ NoDup (List.filter (fun f => negb (String.eqb f "__proto__"))
              ["__proto__"; "z"; "__proto__"]).
Proof.
  split; [vm_compute; reflexivity|].
  destruct (selection_distinct_files (workingDirectory ["__proto__"; "z"]) "."
              ["**"; "*"] ["__proto__"; "z"; "__proto__"]) as [H _];
    [vm_compute; reflexivity | exact H].
Defined.

Section SelectionOrder.

Variable host : Host.

Lemma forallb_same_elements (p : string -> bool) (l1 l2 : list string) :
  (forall e, In e l1 <-> In e l2) -> forallb p l1 = forallb p l2.
Proof.
  intros H. apply Bool.eq_iff_eq_true. rewrite !forallb_forall.
  split; intros Hp e He; apply Hp, H, He.
Qed.

Lemma member_same (x : string) (l1 l2 : list string) :
  (In x l1 <-> In x l2) -> member x l1 = member x l2.
Proof. intros H. apply Bool.eq_iff_eq_true. now rewrite !member_In. Qed.

Lemma member_filter (p : string -> bool) (x : string) (l : list string) :
  member x (List.filter p l) = p x && member x l.
Proof.
  apply Bool.eq_iff_eq_true.
  rewrite andb_true_iff, !member_In, filter_In. tauto.
Qed.

Lemma member_dedupFirst (x : string) (l : list string) :
  member x (dedupFirst l) = member x l.
Proof. apply member_same, dedupFirst_In. Qed.

(** First occurrences of a concatenation: those of the first list, then
    those of the second that the first does not hold. *)
Lemma dedupFirst_app (l1 l2 : list string) :
  dedupFirst (l1 ++ l2)
  = dedupFirst l1 ++ List.filter (fun y => negb (member y l1)) (dedupFirst l2).
Proof.
  induction l1 as [|x r IH]; simpl.
  - symmetry. apply filter_every, Forall_forall. reflexivity.
  - f_equal. rewrite IH, List.filter_app. f_equal.
    rewrite <- filter_both. apply filter_ext. intros y.
    now rewrite negb_orb.
Qed.

(** Classification of a list that ends with an include pattern. *)
Lemma classify_snoc_include (sourceFolder : string) (contents : list string)
    (p : string) :
  isExclude (JsString.trim p) = false ->
  classifyContents host sourceFolder (contents ++ [p])
  = {| includeContents :=
         includeContents (classifyContents host sourceFolder contents)
         ++ [join (path host) sourceFolder (JsString.trim p)];
       excludeContents :=
         excludeContents (classifyContents host sourceFolder contents) |}.
Proof.
  intros Hp. rewrite classifyContents_snoc, classifyPattern_globExpression.
  unfold globExpression. now rewrite Hp.
Qed.

Lemma includes_present (sourceFolder : string) (contents : list string) :
  Exists (fun q => isExclude (JsString.trim q) = false) contents ->
  includeContents (classifyContents host sourceFolder contents) <> [].
Proof.
  destruct (classifyContents_lists host sourceFolder contents) as [-> _].
  induction 1 as [q r Hq | q r Hr IH]; simpl.
  - now rewrite Hq.
  - destruct (isExclude (JsString.trim q)); simpl; [exact IH | discriminate].
Qed.

Lemma addIncludeAll_includes (f : Filters) :
  includeContents f <> [] -> addIncludeAll f = f.
Proof.
  unfold addIncludeAll. destruct (includeContents f); [contradiction|]. reflexivity.
Qed.

(** The selection of the specification when an include pattern is
    added at the end. *)
Lemma specifiedSelection_snoc_include (sourceFolder : string)
    (contents : list string) (p : string) :
  Exists (fun q => isExclude (JsString.trim q) = false) contents ->
  isExclude (JsString.trim p) = false ->
  specifiedSelection host sourceFolder (contents ++ [p])
  = specifiedSelection host sourceFolder contents
    ++ List.filter
         (fun f =>
            negb (member f (specifiedSelection host sourceFolder contents))
            && survives host
                 (excludeContents (classifyContents host sourceFolder contents)) f)
         (specifiedSelection host sourceFolder [p]).
Proof.
  intros Hinc Hp.
  pose proof (includes_present sourceFolder contents Hinc) as Hne.
  rewrite (specifiedSelection_single host sourceFolder p Hp).
  rewrite !specifiedSelection_filter. unfold matchesOf.
  rewrite classify_snoc_include by exact Hp.
  rewrite (addIncludeAll_includes (classifyContents host sourceFolder contents))
    by exact Hne.
  rewrite addIncludeAll_includes
    by (simpl; intros H; now apply app_eq_nil in H as [_ H]).
  simpl.
  set (exc := excludeContents (classifyContents host sourceFolder contents)).
  set (inc := includeContents (classifyContents host sourceFolder contents)).
  unfold includeMatches. rewrite map_app, concat_app. simpl. rewrite app_nil_r.
  rewrite dedupFirst_app, List.filter_app. f_equal.
  rewrite <- filter_both. apply filter_ext. intros f.
  rewrite member_filter, member_dedupFirst.
  destruct (survives host exc f);
    match goal with |- context [member f ?l] => destruct (member f l) end;
    reflexivity.
Qed.

(** Where the listing is ordinary, so are the matches of any call. *)
Lemma matchesOf_ordinary (sourceFolder : string) (contents : list string) :
  ordinaryPaths (nonDirectories host sourceFolder) = true ->
  ordinaryPaths (matchesOf host sourceFolder contents) = true.
Proof.
  intros Hord. unfold matchesOf.
  destruct (includeMatches_ordinary host (nonDirectories host sourceFolder)
              (includeContents
                 (addIncludeAll (classifyContents host sourceFolder contents)))
              Hord) as [Hp Hh].
  unfold ordinaryPaths. now rewrite Hp, Hh.
Qed.

End SelectionOrder.

(** X3. The selection depends on the include patterns in their order
    and on the set of exclude patterns only: where an exclude pattern
    stands among the others, and how often it is repeated, makes no
    difference. *)
Theorem exclude_position_irrelevant (host : Host) (sourceFolder : string)
    (contents1 contents2 : list string) :
  List.filter (fun p => negb (isExclude p)) (map JsString.trim contents1)
  = List.filter (fun p => negb (isExclude p)) (map JsString.trim contents2) ->
  (forall e,
     In e (List.filter isExclude (map JsString.trim contents1))
     <-> In e (List.filter isExclude (map JsString.trim contents2))) ->
  getFilesToCopy host sourceFolder contents1
  = getFilesToCopy host sourceFolder contents2.
Proof.
  intros Hinc Hexc. rewrite !getFilesToCopy_outcome. unfold matchesOf.
  destruct (classifyContents_lists host sourceFolder contents1) as [Hi1 He1].
  destruct (classifyContents_lists host sourceFolder contents2) as [Hi2 He2].
  destruct (classifyContents host sourceFolder contents1) as [inc1 exc1].
  destruct (classifyContents host sourceFolder contents2) as [inc2 exc2].
  simpl in *. rewrite Hinc in Hi1. rewrite <- Hi2 in Hi1. subst inc1.
  assert (forall e, In e exc1 <-> In e exc2) as Hsame.
  { intros e. subst exc1 exc2. rewrite !in_map_iff.
    split; intros (x & Hx & Hin); exists x; (split; [exact Hx|]); now apply Hexc. }
  assert (exc1 = [] <-> exc2 = []) as Hempty.
  { split; intros ->.
    - destruct exc2 as [|e r]; [reflexivity|]. now destruct (proj2 (Hsame e) (or_introl eq_refl)).
    - destruct exc1 as [|e r]; [reflexivity|]. now destruct (proj1 (Hsame e) (or_introl eq_refl)). }
  assert (includeContents (addIncludeAll {| includeContents := inc2; excludeContents := exc1 |})
          = includeContents (addIncludeAll {| includeContents := inc2; excludeContents := exc2 |})
          /\ excludeContents (addIncludeAll {| includeContents := inc2; excludeContents := exc1 |}) = exc1
          /\ excludeContents (addIncludeAll {| includeContents := inc2; excludeContents := exc2 |}) = exc2)
    as (E1 & E2 & E3).
  { unfold addIncludeAll. simpl.
    destruct inc2; simpl; [|now repeat split].
    destruct exc1 as [|a1 r1], exc2 as [|a2 r2]; simpl; try now repeat split.
    - discriminate (proj1 Hempty eq_refl).
    - discriminate (proj2 Hempty eq_refl). }
  rewrite E1, E2, E3. destruct (cutShort _); [reflexivity|]. f_equal.
  apply filter_ext. intros f.
  unfold survives. now apply forallb_same_elements.
Qed.

(** The exclude pattern moved to the front and repeated. *)
Lemma exclude_position_irrelevant_witness :
  getFilesToCopy Sample.tree "/src" ["**"; "!sub/**"; "!*.txt"]
  = getFilesToCopy Sample.tree "/src" ["!*.txt"; "**"; "!sub/**"; " !*.txt"].
Proof.
  apply exclude_position_irrelevant.
  - reflexivity.
  - intros e. vm_compute. tauto.
Defined.

(** X4. Where no listed file is named [__proto__] or [hasOwnProperty],
    a further include pattern at the end of a list that holds an
    include pattern already leaves the files selected so far where they
    are and appends what the new pattern selects on its own, as far as
    the exclude patterns let it through and it is not selected yet. *)
Theorem one_more_include_pattern (host : Host) (sourceFolder : string)
    (contents : list string) (p : string) :
  Exists (fun q => isExclude (JsString.trim q) = false) contents ->
  isExclude (JsString.trim p) = false ->
  ordinaryPaths (nonDirectories host sourceFolder) = true ->
  exists selected added,
    getFilesToCopy host sourceFolder contents = Returned selected
    /\ getFilesToCopy host sourceFolder [p] = Returned added
    /\ getFilesToCopy host sourceFolder (contents ++ [p])
       = Returned
           (selected
            ++ List.filter
                 (fun f =>
                    negb (member f selected)
                    && survives host
                         (excludeContents
                            (classifyContents host sourceFolder contents)) f)
                 added).
Proof.
  intros Hinc Hp Hord.
  rewrite !getFilesToCopy_ordinary_matches by now apply matchesOf_ordinary.
  do 2 eexists. split; [reflexivity|]. split; [reflexivity|].
  f_equal. now apply specifiedSelection_snoc_include.
Qed.

(** An include pattern added to one include and one exclude pattern. *)
Lemma one_more_include_pattern_witness :
  Exists (fun q => isExclude (JsString.trim q) = false) ["*.txt"; "!sub/**"]
  /\ isExclude (JsString.trim "**") = false
  /\ ordinaryPaths (nonDirectories Sample.tree "/src") = true
  /\ getFilesToCopy Sample.tree "/src" (["*.txt"; "!sub/**"] ++ ["**"])
     = Returned (["/src/a.txt"] ++ ["/src/.hidden"]).
Proof.
  split; [now constructor|]. split; [reflexivity|]. split; [reflexivity|].
  destruct (one_more_include_pattern Sample.tree "/src" ["*.txt"; "!sub/**"] "**")
    as (selected & added & H1 & H2 & H3);
    [now constructor | reflexivity | reflexivity |].
  rewrite H3. vm_compute in H1, H2.
  injection H1 as <-. injection H2 as <-. reflexivity.
Defined.

(** X26. Without exclude patterns, and where none of the matches is
    named [__proto__] or [hasOwnProperty], the selection is the union
    without duplicates of the matches of the include patterns: every
    pattern is matched against all files under the source root that are
    no directories, and a file stands where its first match stands when
    the patterns are taken in declared order. *)
Theorem ordinary_include_only_selection (host : Host) (sourceRoot : string)
    (contents : list string) :
  let matches :=
    List.concat
      (map (fun p =>
              minimatch_match host (nonDirectories host sourceRoot)
                (join (path host) sourceRoot (JsString.trim p))
                (matchOptions host))
         contents) in
  Forall (fun p => isExclude (JsString.trim p) = false) contents ->
  ordinaryPaths matches = true ->
  getFilesToCopy host sourceRoot contents = Returned (dedupFirst matches)
  /\ NoDup (dedupFirst matches).
Proof.
  intros matches Hall Hord. split; [|apply dedupFirst_NoDup].
  assert (matchesOf host sourceRoot contents = matches) as Hm.
  { unfold matchesOf. rewrite (classify_includes_only host _ _ Hall).
    unfold addIncludeAll. simpl. rewrite andb_false_r.
    unfold includeMatches. simpl. now rewrite map_map. }
  rewrite getFilesToCopy_ordinary_matches by now rewrite Hm.
  unfold specifiedSelection. fold (matchesOf host sourceRoot contents).
  rewrite Hm, (classify_includes_only host _ _ Hall).
  unfold addIncludeAll. simpl. now rewrite andb_false_r.
Qed.

(** Two include patterns with overlapping matches on the sample tree. *)
Lemma ordinary_include_only_selection_witness :
  Forall (fun p => isExclude (JsString.trim p) = false) ["*.txt"; " ** "]
  /\ getFilesToCopy Sample.tree "/src" ["*.txt"; " ** "]
     = Returned ["/src/a.txt"; "/src/.hidden"; "/src/sub/b.txt"].
Proof.
  split.
  - repeat constructor.
  - destruct (ordinary_include_only_selection Sample.tree "/src" ["*.txt"; " ** "])
      as [E _]; [repeat constructor | reflexivity |].
    rewrite E. vm_compute. reflexivity.
Defined.

(** X27. When every pattern is an exclude pattern and there is at
    least one, the include list becomes the single pattern ["**"].
    Where that pattern, with [dot] set, matches every file under the
    source root, and no such file is named [__proto__] or
    [hasOwnProperty], the selection is the set of all files under the
    source root that are no directories, narrowed by the exclude
    expressions one after the other. *)
Theorem ordinary_implicit_include_all (host : Host) (sourceRoot : string)
    (contents : list string) :
  contents <> [] ->
  Forall (fun p => isExclude (JsString.trim p) = true) contents ->
  (forall options,
     dot options = true ->
     Forall (fun f => minimatch host f "**" options = true)
       (nonDirectories host sourceRoot)) ->
  ordinaryPaths (nonDirectories host sourceRoot) = true ->
  includeContents (addIncludeAll (classifyContents host sourceRoot contents)) = ["**"]
  /\ getFilesToCopy host sourceRoot contents
     = Returned
         (fold_left (narrow host)
            (map (fun p => globExpression host sourceRoot (JsString.trim p)) contents)
            (dedupFirst (nonDirectories host sourceRoot))).
Proof.
  intros Hne Hall Hstar Hord.
  assert (addIncludeAll (classifyContents host sourceRoot contents)
          = {| includeContents := ["**"];
               excludeContents :=
                 map (fun p => globExpression host sourceRoot (JsString.trim p))
                   contents |}) as E.
  { rewrite (classify_excludes_only host _ _ Hall).
    unfold addIncludeAll. simpl. rewrite length_map.
    destruct contents; [contradiction | reflexivity]. }
  split; [now rewrite E|].
  rewrite getFilesToCopy_ordinary_matches by now apply matchesOf_ordinary.
  unfold specifiedSelection. rewrite E. simpl. unfold includeMatches. simpl.
  rewrite app_nil_r. unfold minimatch_match.
  rewrite filter_every; [reflexivity|]. now apply Hstar.
Qed.

(** One exclude pattern and no include pattern on the sample tree. *)
Lemma ordinary_implicit_include_all_witness :
  ["!sub/**"] <> []
  /\ Forall (fun p => isExclude (JsString.trim p) = true) ["!sub/**"]
  /\ ordinaryPaths (nonDirectories Sample.tree "/src") = true
  /\ getFilesToCopy Sample.tree "/src" ["!sub/**"]
     = Returned ["/src/.hidden"; "/src/a.txt"].
Proof.
  split; [discriminate|].
  split; [repeat constructor|].
  split; [reflexivity|].
  destruct (ordinary_implicit_include_all Sample.tree "/src" ["!sub/**"]) as [_ E];
    [discriminate | repeat constructor
    | intros [[] ? ?] _; vm_compute; repeat constructor | reflexivity |].
  rewrite E. reflexivity.
Defined.

(** ** Classification *)

Section ClassificationShape.

Lemma filter_split_permutation (p : string -> bool) (l : list string) :
  List.filter (fun x => negb (p x)) l ++ List.filter p l ≡ₚ l.
Proof.
  induction l as [|x r IH]; simpl; [reflexivity|].
  destruct (p x); simpl.
  - rewrite <- Permutation_middle. now constructor.
  - now constructor.
Qed.

Lemma sublist_map (g : string -> string) (l1 l2 : list string) :
  sublist l1 l2 -> sublist (map g l1) (map g l2).
Proof. induction 1; simpl; now constructor. Qed.

Lemma leadingBangCount_bangs (n : nat) (s : string) :
  leadingBangCount (bangs n +:+ s) = n + leadingBangCount s.
Proof. induction n as [|n IH]; [reflexivity|]. simpl. now rewrite <- IH. Qed.

End ClassificationShape.

(** X5. Classification neither drops nor repeats a pattern: the two
    lists together hold the glob expression of every trimmed pattern
    once, and each list keeps the order in which its patterns were
    given. *)
Theorem classification_partition (host : Host) (sourceFolder : string)
    (contents : list string) :
  let filters := classifyContents host sourceFolder contents in
  let all := map (fun p => globExpression host sourceFolder (JsString.trim p)) contents in
  includeContents filters ++ excludeContents filters ≡ₚ all
  /\ sublist (includeContents filters) all
  /\ sublist (excludeContents filters) all
  /\ List.length (includeContents filters) + List.length (excludeContents filters)
     = List.length contents.
Proof.
  intros filters all. subst filters all.
  destruct (classifyContents_lists host sourceFolder contents) as [-> ->].
  rewrite <- (map_map JsString.trim (globExpression host sourceFolder)).
  assert (map (globExpression host sourceFolder)
            (List.filter (fun p => negb (isExclude p)) (map JsString.trim contents))
          ++ map (globExpression host sourceFolder)
               (List.filter isExclude (map JsString.trim contents))
          ≡ₚ map (globExpression host sourceFolder) (map JsString.trim contents)) as Hperm.
  { rewrite <- map_app. apply Permutation_map, filter_split_permutation. }
  split; [exact Hperm|].
  split; [apply sublist_map, sublist_filter|].
  split; [apply sublist_map, sublist_filter|].
  apply Permutation_length in Hperm.
  rewrite List.length_app, !List.length_map in Hperm.
  now rewrite !List.length_map.
Qed.

(** X6. The glob expression of an exclude pattern begins with the marks
    of the pattern and then with whatever the joined path begins with,
    and that of an include pattern with whatever the joined path begins
    with.  So the matcher is handed an expression with an odd number of
    leading marks exactly when the pattern is an exclude pattern and the
    joined path begins with an even number of marks, or the other way
    round. *)
Theorem marks_of_glob_expression (host : Host) (sourceFolder pattern : string) :
  let joined :=
    join (path host) sourceFolder
      (if isExclude pattern then dropBangs pattern else pattern) in
  leadingBangCount (globExpression host sourceFolder pattern)
  = (if isExclude pattern then leadingBangCount pattern else 0)
    + leadingBangCount joined
  /\ isExclude (globExpression host sourceFolder pattern)
     = xorb (isExclude pattern) (isExclude joined).
Proof.
  intros joined. subst joined. unfold globExpression.
  destruct (isExclude pattern) eqn:E.
  - rewrite leadingBangCount_bangs. split; [reflexivity|].
    unfold isExclude in *. rewrite leadingBangCount_bangs, Nat.odd_add, E.
    reflexivity.
  - split; reflexivity.
Qed.

(** A source folder whose name begins with a mark: the exclude pattern
    reaches the matcher with two marks, the include pattern with one. *)
Example marks_of_source_folder :
  let host := Sample.hostOf ["!src"; "!src/a"] ["!src"] in
  classifyContents host "!src" ["!a"; "b"]
  = {| includeContents := ["!src/b"]; excludeContents := ["!!src/a"] |}.
Proof. reflexivity. Qed.

(** ** Reading the inputs *)

Section InputFacts.

Context {W : Type}.
Variable host : Host.

(** Case analysis on the inputs and on what the host says about the
    source folder. *)
Ltac split_inputs inputs :=
  destruct inputs as [endpoint user pass key hostname port timeout cont source
                        target clean over failEmpty flat win];
  destruct endpoint as [[|? ?]|], user as [[|? ?]|], hostname as [[|? ?]|],
    timeout as [[|? ?]|], cont as [?|], source as [[|? ?]|];
  simpl; try reflexivity; try discriminate.

Lemma readInputs_valid (inputs : Inputs) (st : TaskState W) :
  match (readInputs host inputs st).1 with
  | Returned _ => validInputs host inputs = true
  | Threw _ => validInputs host inputs = false
  end.
Proof.
  unfold validInputs, inputsPresent, readInputs. unfold_task.
  split_inputs inputs; split_matches; simpl in *; try reflexivity;
    try discriminate; try congruence.
  all: repeat match goal with
              | H : negb _ = _ |- _ => rewrite ?negb_true_iff, ?negb_false_iff in H
              end; try congruence.
Qed.

(** Reading the inputs logs console lines only. *)
Lemma readInputs_quiet (inputs : Inputs) (st : TaskState W) :
  exists added,
    (readInputs host inputs st).2
    = {| world := world st; sshHelper := sshHelper st; events := events st ++ added |}
    /\ forallb (fun e => negb (isRemoteCall e)) added = true
    /\ taskFailed added = false.
Proof.
  unfold readInputs. unfold_task. destruct st as [w h ev].
  split_matches; simpl in *;
    solve [ exists []; split; [now rewrite app_nil_r | split; reflexivity]
          | eexists [_]; split; [reflexivity | split; reflexivity] ].
Qed.

End InputFacts.

(** X7. The inputs are accepted exactly when the endpoint, the user
    name, the host, the time-out, the contents and the source folder
    are there and the source folder exists and is a directory; the
    settings then carry the contents, the source folder and the five
    switches as they were given. *)
Theorem inputs_validation {W : Type} (host : Host) (inputs : Inputs)
    (st : TaskState W) :
  match readInputs host inputs st with
  | (Returned s, _) =>
      validInputs host inputs = true
      /\ in_contents inputs = Some (contents s)
      /\ in_sourceFolder inputs = Some (sourceFolder s)
      /\ cleanTargetFolder s = in_cleanTargetFolder inputs
      /\ overwrite s = in_overwrite inputs
      /\ failOnEmptySource s = in_failOnEmptySource inputs
      /\ flattenFolders s = in_flattenFolders inputs
      /\ isWindowsOnTarget s = in_isWindowsOnTarget inputs
  | (Threw _, _) => validInputs host inputs = false
  end.
Proof.
  pose proof (readInputs_valid host inputs st) as Hvalid.
  destruct (readInputs host inputs st) as [[s|err] st1] eqn:E; simpl in Hvalid;
    [|exact Hvalid].
  split; [exact Hvalid|].
  destruct (readInputs_settings host inputs st st1 s E)
    as (H1 & H2 & H3 & H4 & H5 & H6 & H7 & _).
  now repeat split.
Qed.

(** X8. [SourceNotFolder] is the error of a run in which every required
    input is there and the source folder exists but is no directory,
    and of no other run. *)
Theorem source_not_folder {W : Type} (host : Host) (inputs : Inputs)
    (st : TaskState W) :
  (readInputs host inputs st).1 = Threw (Loc0 "SourceNotFolder")
  <-> inputsPresent inputs
      && match in_sourceFolder inputs with
         | Some sourceFolder =>
             exist host sourceFolder && negb (isDirectory host sourceFolder)
         | None => false
         end = true.
Proof.
  unfold inputsPresent, readInputs. unfold_task.
  destruct inputs as [endpoint user pass key hostname port timeout cont source
                        target clean over failEmpty flat win].
  destruct endpoint as [[|? ?]|], user as [[|? ?]|], hostname as [[|? ?]|],
    timeout as [[|? ?]|], cont as [?|], source as [[|? ?]|];
    simpl; try (split; discriminate).
  all: split_matches; simpl in *; split; try discriminate; try reflexivity;
    try congruence.
Qed.

(** The connection settings that accepted inputs give. *)
Lemma readInputs_config {W : Type} (host : Host) (inputs : Inputs)
    (st st1 : TaskState W) (s : Settings) :
  readInputs host inputs st = (Returned s, st1) ->
  cfg_port (sshConfig s)
  = (if truthy (in_port inputs) then default "22" (in_port inputs) else "22")
  /\ events st1
     = events st
       ++ (if truthy (in_port inputs) then []
           else [ConsoleLog (Loc0 "UseDefaultPort")])
  /\ cfg_auth (sshConfig s)
     = match in_privateKey inputs with
       | Some key =>
           if JsString.isEmpty key then AuthPassword (optional (in_password inputs))
           else AuthPrivateKey key (optional (in_password inputs))
       | None => AuthPassword (optional (in_password inputs))
       end
  /\ in_host inputs = Some (cfg_host (sshConfig s))
  /\ in_username inputs = Some (cfg_username (sshConfig s))
  /\ (exists t,
        in_readyTimeout inputs = Some t
        /\ cfg_readyTimeout (sshConfig s) = parseInt10 host t).
Proof.
  unfold readInputs. unfold_task. destruct st as [w h ev].
  destruct inputs as [endpoint user pass key hostname port timeout cont source
                        target clean over failEmpty flat win].
  destruct endpoint as [[|? ?]|], user as [[|? ?]|], hostname as [[|? ?]|],
    timeout as [[|? ?]|], cont as [?|], source as [[|? ?]|];
    simpl; try discriminate.
  destruct port as [[|? ?]|], key as [[|? ?]|]; simpl.
  all: split_matches; simpl in *; try discriminate; try congruence;
    intros H; inversion H; subst; simpl;
    rewrite ?app_nil_r; repeat split; eauto.
Qed.

(** X9. The connection settings of accepted inputs.  A port that is
    missing or empty becomes ["22"], and only then the default is
    announced on the console.  A private key is used exactly when one
    is there and not empty, with a password that is there as its pass
    phrase; otherwise the password is used.  The time-out is whatever
    [parseInt] makes of the input, a value that is no number
    included. *)
Theorem connection_settings {W : Type} (host : Host) (inputs : Inputs)
    (st st1 : TaskState W) (s : Settings) :
  readInputs host inputs st = (Returned s, st1) ->
  cfg_port (sshConfig s)
  = (if truthy (in_port inputs) then default "22" (in_port inputs) else "22")
  /\ events st1
     = events st
       ++ (if truthy (in_port inputs) then []
           else [ConsoleLog (Loc0 "UseDefaultPort")])
  /\ match cfg_auth (sshConfig s) with
     | AuthPrivateKey key passphrase =>
         in_privateKey inputs = Some key
         /\ JsString.isEmpty key = false
         /\ if truthy (in_password inputs) then passphrase = in_password inputs
            else True
     | AuthPassword password =>
         truthy (in_privateKey inputs) = false
         /\ if truthy (in_password inputs) then password = in_password inputs
            else True
     end
  /\ in_host inputs = Some (cfg_host (sshConfig s))
  /\ in_username inputs = Some (cfg_username (sshConfig s))
  /\ (exists t,
        in_readyTimeout inputs = Some t
        /\ cfg_readyTimeout (sshConfig s) = parseInt10 host t).
Proof.
  intros H.
  destruct (readInputs_config host inputs st st1 s H)
    as (Hport & Hlog & Hauth & Hhost & Huser & Htimeout).
  repeat split; try assumption.
  rewrite Hauth. unfold optional, truthy.
  destruct (in_privateKey inputs) as [[|c key]|],
    (in_password inputs) as [[|d pass]|]; simpl; repeat split.
Qed.

(** The sample inputs name no port and no private key. *)
Lemma connection_settings_witness :
  exists s st1,
    readInputs Sample.tree (Sample.inputsOf ["**"] false) (initially Sample.machine)
    = (Returned s, st1)
    /\ cfg_port (sshConfig s) = "22".
Proof.
  eexists. eexists. split; [vm_compute; reflexivity|].
  edestruct (connection_settings Sample.tree (Sample.inputsOf ["**"] false)
               (initially Sample.machine)) as (Hport & _);
    [vm_compute; reflexivity|].
  exact Hport.
Defined.

Section TargetFolderFacts.

Lemma replaceHomePrefix_shape (t : string) :
  JsString.isEmpty t = false ->
  JsString.isEmpty (JsString.replaceHomePrefix t) = false
  /\ forall r, JsString.replaceHomePrefix t <> String "~" (String "/" r).
Proof.
  destruct t as [|c t']; [discriminate|]. intros _.
  destruct (Ascii.eqb_spec c "~") as [->|Hc].
  - destruct t' as [|d t'']; [split; [reflexivity | discriminate]|].
    destruct (Ascii.eqb_spec d "/") as [->|Hd].
    + split; [reflexivity | discriminate].
    + assert (JsString.replaceHomePrefix (String "~" (String d t''))
              = String "~" (String d t'')) as ->
        by (destruct d as [[] [] [] [] [] [] [] []]; try reflexivity; now elim Hd).
      split; [reflexivity|]. intros r H. injection H as H _. now apply Hd.
  - assert (JsString.replaceHomePrefix (String c t') = String c t') as ->
      by (destruct c as [[] [] [] [] [] [] [] []]; try reflexivity; now elim Hc).
    split; [reflexivity|]. intros r H. injection H as H _. now apply Hc.
Qed.

Lemma readInputs_target {W : Type} (host : Host) (inputs : Inputs)
    (st st1 : TaskState W) (s : Settings) :
  readInputs host inputs st = (Returned s, st1) ->
  targetFolder s = normalisedTargetFolder inputs.
Proof.
  intros H.
  destruct (readInputs_settings host inputs st st1 s H)
    as (_ & _ & _ & _ & _ & _ & _ & _ & E).
  rewrite E. unfold normalisedTargetFolder, optional, truthy.
  destruct (in_targetFolder inputs) as [[|c t]|]; reflexivity.
Qed.

End TargetFolderFacts.

(** X10. The target folder the script works with is never empty and
    never begins with [~/]: a missing or empty input becomes [./], a
    leading [~/] becomes [./], and every other input is taken as it
    is. *)
Theorem target_folder_normalised {W : Type} (host : Host) (inputs : Inputs)
    (st st1 : TaskState W) (s : Settings) :
  readInputs host inputs st = (Returned s, st1) ->
  targetFolder s = normalisedTargetFolder inputs
  /\ JsString.isEmpty (targetFolder s) = false
  /\ (forall r, targetFolder s <> String "~" (String "/" r))
  /\ (forall r, in_targetFolder inputs = Some (String "~" (String "/" r)) ->
                targetFolder s = String "." (String "/" r)).
Proof.
  intros H.
  pose proof (readInputs_target host inputs st st1 s H) as Hn.
  split; [exact Hn|]. rewrite Hn. unfold normalisedTargetFolder.
  destruct (in_targetFolder inputs) as [t|].
  - destruct (JsString.isEmpty t) eqn:Et.
    + split; [reflexivity|]. split; [discriminate|].
      intros r Hr. injection Hr as ->. discriminate.
    + destruct (replaceHomePrefix_shape t Et) as [H1 H2].
      split; [exact H1|]. split; [exact H2|].
      intros r Hr. injection Hr as ->. reflexivity.
  - split; [reflexivity|]. split; discriminate.
Qed.

(** The sample inputs ask for [~/drop]. *)
Lemma target_folder_normalised_witness :
  exists s st1,
    readInputs Sample.tree (Sample.inputsOf ["**"] false) (initially Sample.machine)
    = (Returned s, st1)
    /\ targetFolder s = "./drop".
Proof.
  eexists. eexists. split; [vm_compute; reflexivity|].
  edestruct (target_folder_normalised Sample.tree (Sample.inputsOf ["**"] false)
               (initially Sample.machine)) as (_ & _ & _ & Hhome);
    [vm_compute; reflexivity|].
  apply (Hhome "drop"). reflexivity.
Defined.

(** X11. When the inputs are not accepted the remote side is left
    alone: no helper is created, no call is made on one, the state of
    the remote side is what it was, and the task is failed. *)
Theorem invalid_inputs_leave_remote_alone {W : Type} (host : Host)
    (remote : Remote W) (inputs : Inputs) (w : W) :
  validInputs host inputs = false ->
  world (runTask host remote inputs w).2 = w
  /\ sshHelper (runTask host remote inputs w).2 = None
  /\ countEvents isRemoteCall (events (runTask host remote inputs w).2) = 0
  /\ taskFailed (events (runTask host remote inputs w).2) = true.
Proof.
  intros Hinvalid.
  pose proof (readInputs_valid host inputs (initially w)) as Hvalid.
  pose proof (run_outcome host remote inputs w) as Hrun.
  destruct (readInputs_quiet host inputs (initially w)) as (added & Hst & Hq & _).
  destruct (readInputs host inputs (initially w)) as [[s|err] st1];
    simpl in Hvalid, Hst; [congruence|].
  rewrite Hrun, Hst. simpl.
  rewrite countEvents_app, taskFailed_app.
  rewrite (countEvents_none isRemoteCall (fun e => negb (isRemoteCall e)))
    by (exact Hq || (intros e He; now apply negb_true_iff)).
  repeat split. apply orb_true_r.
Qed.

(** The source folder of the sample inputs replaced by a file. *)
Lemma invalid_inputs_leave_remote_alone_witness :
  let inputs := Sample.withSourceFolder (Sample.inputsOf ["**"] false) "/src/a.txt" in
  validInputs Sample.tree inputs = false
  /\ world (runTask Sample.tree Sample.sshHelperOf inputs Sample.machine).2
     = Sample.machine.
Proof.
  split; [reflexivity|].
  apply (invalid_inputs_leave_remote_alone Sample.tree Sample.sshHelperOf).
  reflexivity.
Defined.

(** ** Connecting and cleaning *)

Section ConnectFacts.

Context {W : Type}.
Variable host : Host.
Variable remote : Remote W.

(** What [connect] does, by the outcome of the two calls it makes. *)
Lemma connect_cases (s : Settings) (st : TaskState W) :
  let command := getCleanTargetFolderCmd (isWindowsOnTarget s) (targetFolder s) in
  let after w added :=
    {| world := w; sshHelper := Some (sshConfig s); events := events st ++ added |} in
  match setupConnection remote (sshConfig s) (world st) with
  | (Threw err, w1) =>
      connect remote s st
      = (Threw err, after w1 [SshSetupConnection (sshConfig s)])
  | (Returned _, w1) =>
      if cleanTargetFolder s then
        match runCommandOnRemoteMachine remote command w1 with
        | (Returned _, w2) =>
            connect remote s st
            = (Returned tt,
               after w2 [SshSetupConnection (sshConfig s);
                         ConsoleLog (Loc1 "CleanTargetFolder" (Text (targetFolder s)));
                         SshRunCommand command])
        | (Threw err, w2) =>
            connect remote s st
            = (Threw (Loc1 "CleanTargetFolderFailed" err),
               after w2 [SshSetupConnection (sshConfig s);
                         ConsoleLog (Loc1 "CleanTargetFolder" (Text (targetFolder s)));
                         SshRunCommand command])
        end
      else connect remote s st
           = (Returned tt, after w1 [SshSetupConnection (sshConfig s)])
  end.
Proof.
  intros command after. subst command after.
  unfold connect. unfold_task. destruct st as [w h ev]. simpl.
  destruct (setupConnection remote (sshConfig s) w) as [[[]|err] w1]; simpl;
    [|reflexivity].
  destruct (cleanTargetFolder s); simpl; [|reflexivity].
  destruct (runCommandOnRemoteMachine remote _ w1) as [[out|err] w2]; simpl;
    now rewrite <- !app_assoc.
Qed.

Lemma phase_app (l1 l2 : list Event) (ph : option Phase) :
  fold_left stepPhase (l1 ++ l2) ph
  = fold_left stepPhase l2 (fold_left stepPhase l1 ph).
Proof. apply fold_left_app. Qed.

(** Events that are no calls on the helper leave the phase alone. *)
Lemma phase_quiet (l : list Event) (ph : Phase) :
  forallb (fun e => negb (isRemoteCall e)) l = true ->
  fold_left stepPhase l (Some ph) = Some ph.
Proof.
  induction l as [|e r IH]; simpl; [reflexivity|].
  intros H. apply andb_true_iff in H as [He Hr].
  unfold nextPhase. rewrite He. now apply IH.
Qed.

(** What the copy loop logs keeps a connected run in the copying
    phases. *)
Lemma phase_copy (l : list Event) (ph : Phase) :
  forallb isCopyEvent l = true ->
  ph = Connected \/ ph = Cleaned \/ ph = Copying ->
  exists ph',
    fold_left stepPhase l (Some ph) = Some ph'
    /\ (ph' = Connected \/ ph' = Cleaned \/ ph' = Copying).
Proof.
  revert ph. induction l as [|e r IH]; intros ph Hl Hph; simpl.
  - eauto.
  - simpl in Hl. apply andb_true_iff in Hl as [He Hr].
    destruct e; try discriminate He; simpl;
      destruct Hph as [->|[->| ->]]; simpl; apply IH; auto.
Qed.

End ConnectFacts.

(** X12. When the connection cannot be set up, the run ends there: the
    error of the helper fails the task as it is, no command is run and
    no copy is started.  The helper exists by then, so the connection is
    closed all the same. *)
Theorem connection_failure {W : Type} (host : Host) (remote : Remote W)
    (inputs : Inputs) (w w1 : W) (s : Settings) (st1 : TaskState W) (err : Msg) :
  readInputs host inputs (initially w) = (Returned s, st1) ->
  setupConnection remote (sshConfig s) w = (Threw err, w1) ->
  runTask host remote inputs w
  = (Returned tt,
     {| world := closeConnection remote w1;
        sshHelper := Some (sshConfig s);
        events := events st1
                  ++ [SshSetupConnection (sshConfig s);
                      SetResultFailed err;
                      SshCloseConnection] |}).
Proof.
  intros Hread Hsetup.
  pose proof (run_outcome host remote inputs w) as Hrun.
  destruct (readInputs_quiet host inputs (initially w)) as (added & Hst & _).
  rewrite Hread in Hrun, Hst. simpl in Hst. subst st1.
  pose proof (connect_cases remote s
                {| world := w; sshHelper := None; events := [] ++ added |}) as Hc.
  simpl in Hc. rewrite Hsetup in Hc.
  simpl in Hrun. rewrite Hc in Hrun. rewrite Hrun. simpl.
  now rewrite <- app_assoc.
Qed.

(** The sample run against a machine that refuses the connection. *)
Lemma connection_failure_witness :
  events (runTask Sample.tree Sample.sshHelperOf (Sample.inputsOf ["**"] false)
            unreachable).2
  = [ConsoleLog (Loc0 "UseDefaultPort");
     SshSetupConnection
       {| cfg_host := "example.org"; cfg_port := "22"; cfg_username := "user";
          cfg_auth := AuthPassword (Some "secret");
          cfg_readyTimeout := Some 20000%Z |};
     SetResultFailed (Text "connection refused");
     SshCloseConnection].
Proof.
  eassert (runTask Sample.tree Sample.sshHelperOf (Sample.inputsOf ["**"] false)
             unreachable = _) as H
    by (eapply (connection_failure Sample.tree Sample.sshHelperOf
                  (Sample.inputsOf ["**"] false) unreachable);
        vm_compute; reflexivity).
  rewrite H. reflexivity.
Defined.

(** X13. The calls on the helper come in a fixed order in every run.
    With inputs that are not accepted there is none.  Otherwise the
    connection is set up first, the clean-up command follows at most
    once and before any check or transfer, and closing the connection
    is the last call, after which there is no other. *)
Theorem remote_calls_in_order {W : Type} (host : Host) (remote : Remote W)
    (inputs : Inputs) (w : W) :
  phaseAfter (events (runTask host remote inputs w).2)
  = Some (if validInputs host inputs then Closed else Unconnected).
Proof.
  unfold phaseAfter.
  pose proof (readInputs_valid host inputs (initially w)) as Hvalid.
  pose proof (run_outcome host remote inputs w) as Hrun.
  destruct (readInputs_quiet host inputs (initially w)) as (added & Hst & Hq & _).
  destruct (readInputs host inputs (initially w)) as [[s|err] st1];
    simpl in Hvalid, Hst; rewrite Hvalid.
  - pose proof (connect_cases remote s st1) as Hc. simpl in Hc.
    assert (exists w2 added2 ph,
              (connect remote s st1).2
              = {| world := w2; sshHelper := Some (sshConfig s);
                   events := events st1 ++ added2 |}
              /\ fold_left stepPhase added2 (Some Unconnected) = Some ph
              /\ (ph = Connected \/ ph = Cleaned \/ ph = Copying)) as Hphase.
    { destruct (setupConnection remote (sshConfig s) (world st1)) as [[[]|err] w1].
      - destruct (cleanTargetFolder s).
        + destruct (runCommandOnRemoteMachine remote _ w1) as [[out|err] w2];
            rewrite Hc; simpl; do 2 eexists; exists Cleaned; auto.
        + rewrite Hc. simpl. do 2 eexists. exists Connected. auto.
      - rewrite Hc. simpl. do 2 eexists. exists Connected. auto. }
    destruct Hphase as (w2 & added2 & ph & Hst2 & Hph & Hready).
    assert (fold_left stepPhase added2
              (fold_left stepPhase (events st1) (Some Unconnected)) = Some ph)
      as Hbefore.
    { rewrite Hst. simpl. rewrite (phase_quiet _ _ Hq). exact Hph. }
    destruct (connect remote s st1) as [[u|err] st2]; simpl in Hst2.
    + pose proof (copyFiles_log host remote s st2) as Hlog.
      destruct (getFilesToCopy host (sourceFolder s) (contents s)) as [sel|err].
      * destruct Hrun as (st3 & H3 & ->). simpl.
        destruct Hlog as (n & w3 & added3 & E & A1 & _).
        rewrite H3 in E. injection E as ->. simpl. rewrite Hst2. simpl.
        change (?x :: added3 ++ ?y :: ?z) with ([x] ++ added3 ++ [y] ++ z).
        rewrite !phase_app, Hbefore.
        destruct (phase_copy added3 ph A1 Hready) as (ph' & Hcopy & Hready').
        assert (fold_left stepPhase
                  [ConsoleLog (Loc1 "CopyingFiles" (Count (List.length sel)))]
                  (Some ph) = Some ph) as -> by reflexivity.
        rewrite Hcopy.
        destruct (n =? 0)%nat; destruct Hready' as [->|[->| ->]]; reflexivity.
      * rewrite Hrun. simpl. rewrite Hst2. simpl.
        rewrite !phase_app, Hbefore.
        destruct Hready as [->|[->| ->]]; reflexivity.
    + rewrite Hrun. simpl. rewrite Hst2. simpl.
      rewrite !phase_app, Hbefore.
      destruct Hready as [->|[->| ->]]; reflexivity.
  - rewrite Hrun. simpl. rewrite Hst. simpl.
    rewrite phase_app, (phase_quiet _ _ Hq). reflexivity.
Qed.

Section CommandFacts.

Lemma filter_events_none (p q : Event -> bool) (l : list Event) :
  (forall e, q e = true -> p e = false) ->
  forallb q l = true -> List.filter p l = [].
Proof.
  intros Hpq Hq. apply length_zero_iff_nil.
  exact (countEvents_none p q l Hpq Hq).
Qed.

Lemma quiet_not_command (e : Event) :
  negb (isRemoteCall e) = true -> isRunCommand e = false.
Proof. destruct e; try discriminate; reflexivity. Qed.

Lemma copy_not_command (e : Event) :
  isCopyEvent e = true -> isRunCommand e = false.
Proof. destruct e; try discriminate; reflexivity. Qed.

End CommandFacts.

(** X14. The only command a run ever sends is the clean-up command for
    the target folder it works with, and it sends it only when
    [cleanTargetFolder] is set. *)
Theorem only_cleanup_command {W : Type} (host : Host) (remote : Remote W)
    (inputs : Inputs) (w : W) :
  let log := events (runTask host remote inputs w).2 in
  List.filter isRunCommand log = []
  \/ (in_cleanTargetFolder inputs = true
      /\ List.filter isRunCommand log
         = [SshRunCommand
              (getCleanTargetFolderCmd (in_isWindowsOnTarget inputs)
                 (normalisedTargetFolder inputs))]).
Proof.
  intros log. subst log.
  pose proof (run_outcome host remote inputs w) as Hrun.
  destruct (readInputs_quiet host inputs (initially w)) as (added & Hst & Hq & _).
  destruct (readInputs host inputs (initially w)) as [[s|err] st1] eqn:Hread;
    simpl in Hst.
  - destruct (readInputs_settings host inputs _ _ _ Hread)
      as (Hclean & _ & _ & _ & Hwin & _).
    pose proof (readInputs_target host inputs _ _ _ Hread) as Hfolder.
    rewrite <- Hclean, <- Hwin, <- Hfolder.
    assert (List.filter isRunCommand (events st1) = []) as Hnone.
    { rewrite Hst. simpl. now apply (filter_events_none _ _ _ quiet_not_command). }
    pose proof (connect_cases remote s st1) as Hc. simpl in Hc.
    assert (forall st2 (prepared : list Event) (commands : list Event),
              events st2 = events st1 ++ prepared ->
              List.filter isRunCommand prepared = commands ->
              match getFilesToCopy host (sourceFolder s) (contents s) with
              | Threw err =>
                  runTask host remote inputs w
                  = (Returned tt,
                     {| world := closeConnection remote (world st2);
                        sshHelper := Some (sshConfig s);
                        events := events st2
                                  ++ [SetResultFailed err; SshCloseConnection] |})
              | Returned _ =>
                  exists st3,
                    copyFiles host remote s st2 = (Returned tt, st3)
                    /\ runTask host remote inputs w
                       = (Returned tt,
                          {| world := closeConnection remote (world st3);
                             sshHelper := Some (sshConfig s);
                             events := events st3 ++ [SshCloseConnection] |})
              end ->
              List.filter isRunCommand (events (runTask host remote inputs w).2)
              = commands) as Hafter.
    { intros st2 prepared commands Hev Hcmd Hout.
      pose proof (copyFiles_log host remote s st2) as Hlog.
      destruct (getFilesToCopy host (sourceFolder s) (contents s)) as [sel|err].
      - destruct Hout as (st3 & H3 & ->). simpl.
        destruct Hlog as (n & w3 & added3 & E & A1 & _).
        rewrite H3 in E. injection E as ->. simpl. rewrite Hev.
        rewrite !List.filter_app, Hnone, Hcmd. simpl.
        rewrite List.filter_app, (filter_events_none _ _ _ copy_not_command A1).
        simpl. destruct (n =? 0)%nat; simpl; now rewrite !app_nil_r.
      - rewrite Hout. simpl. rewrite Hev.
        rewrite !List.filter_app, Hnone, Hcmd. simpl. now rewrite app_nil_r. }
    destruct (setupConnection remote (sshConfig s) (world st1)) as [[[]|err] w1].
    + destruct (cleanTargetFolder s) eqn:Eclean.
      * right. split; [reflexivity|].
        destruct (runCommandOnRemoteMachine remote _ w1) as [[out|err] w2];
          rewrite Hc in Hrun.
        -- eapply Hafter; [| |exact Hrun]; reflexivity.
        -- rewrite Hrun. simpl. rewrite !List.filter_app, Hnone. reflexivity.
      * left. rewrite Hc in Hrun.
        eapply Hafter; [| |exact Hrun]; reflexivity.
    + left. rewrite Hc in Hrun. rewrite Hrun. simpl.
      rewrite !List.filter_app, Hnone. reflexivity.
  - left. rewrite Hrun. simpl. rewrite Hst. simpl.
    rewrite List.filter_app, (filter_events_none _ _ _ quiet_not_command Hq).
    reflexivity.
Qed.

(** ** Copying *)

Section CopyFacts.

Context {W : Type}.
Variable host : Host.
Variable remote : Remote W.

(** What one file adds to the log, by the overwrite switch. *)
Lemma copyFile_events (flatten overwriteAllowed : bool)
    (source target fileToCopy : string) (st : TaskState W) :
  let targetPath := targetPathOf host flatten source target fileToCopy in
  exists w tail,
    (copyFile host remote flatten overwriteAllowed source target fileToCopy st).2
    = {| world := w; sshHelper := sshHelper st;
         events := events st
                   ++ ConsoleLog (Loc2 "StartedFileCopy" (Text fileToCopy) (Text targetPath))
                      :: tail |}
    /\ if overwriteAllowed then tail = [SshUploadFile fileToCopy targetPath]
       else tail = [SshCheckRemotePathExists targetPath]
            \/ tail = [SshCheckRemotePathExists targetPath;
                       SshUploadFile fileToCopy targetPath].
Proof.
  intros targetPath. unfold copyFile. fold targetPath. unfold_task.
  destruct st as [w h ev]. simpl.
  destruct overwriteAllowed; simpl; split_matches; simpl in *;
    eexists; eexists;
    (split; [rewrite <- ?app_assoc; simpl; reflexivity | auto]).
Qed.

Lemma transfers_app (l1 l2 : list Event) :
  transfers (l1 ++ l2) = transfers l1 ++ transfers l2.
Proof. apply omap_app. Qed.

Lemma existenceChecks_app (l1 l2 : list Event) :
  existenceChecks (l1 ++ l2) = existenceChecks l1 ++ existenceChecks l2.
Proof. apply omap_app. Qed.

Lemma transfers_cons (e : Event) (l : list Event) :
  transfers (e :: l)
  = match transferOf e with
    | Some t => t :: transfers l
    | None => transfers l
    end.
Proof. reflexivity. Qed.

Lemma existenceChecks_cons (e : Event) (l : list Event) :
  existenceChecks (e :: l)
  = match checkOf e with
    | Some p => p :: existenceChecks l
    | None => existenceChecks l
    end.
Proof. reflexivity. Qed.

(** A file costs at most one failure. *)
Lemma copyLoop_bound (flatten overwriteAllowed : bool) (source target : string)
    (filesToCopy : list string) (n n' : nat) (st : TaskState W) :
  (copyLoop host remote flatten overwriteAllowed source target filesToCopy n st).1
  = Returned n' ->
  n <= n' <= n + List.length filesToCopy.
Proof.
  revert n st. induction filesToCopy as [|f rest IH]; intros n st.
  - simpl. intros H. injection H as <-. lia.
  - rewrite copyLoop_step.
    destruct (copyFile host remote flatten overwriteAllowed source target f st)
      as [[u|err] st1]; intros H; apply IH in H; simpl; lia.
Qed.

End CopyFacts.

(** X15. With [overwrite] the remote side is never asked whether a
    target exists, and a transfer is attempted for every file, in the
    order of the selection and to its target path.  Without it the
    remote side is asked once for every file, in order, and the
    transfers that are attempted are some of the files, in order. *)
Theorem checks_and_transfers {W : Type} (host : Host) (remote : Remote W)
    (flatten overwriteAllowed : bool) (source target : string)
    (filesToCopy : list string) (n : nat) (st : TaskState W) :
  let all :=
    map (fun f => (f, targetPathOf host flatten source target f)) filesToCopy in
  exists added,
    events (copyLoop host remote flatten overwriteAllowed source target
              filesToCopy n st).2 = events st ++ added
    /\ sublist (transfers added) all
    /\ if overwriteAllowed
       then existenceChecks added = [] /\ transfers added = all
       else existenceChecks added
            = map (targetPathOf host flatten source target) filesToCopy.
Proof.
  intros all. subst all. revert n st.
  destruct overwriteAllowed;
    induction filesToCopy as [|f rest IH]; intros n st;
    try (exists []; simpl; rewrite app_nil_r; repeat split; constructor);
    rewrite copyLoop_step;
    match goal with
    | |- context [copyFile host remote flatten ?o source target f st] =>
        destruct (copyFile_events host remote flatten o source target f st)
          as (w1 & tail & Hst & Htail);
        destruct (copyFile host remote flatten o source target f st)
          as [[u|err] st1]
    end;
    simpl in Hst; subst st1;
    match goal with
    | |- context [copyLoop _ _ _ _ _ _ rest ?m ?st'] =>
        destruct (IH m st') as (added & E & Hsub & Hrest)
    end;
    rewrite E; simpl; rewrite <- !app_assoc; simpl;
    eexists; (split; [reflexivity|]).
  - destruct Hrest as [Hc Ht]. subst tail. simpl app.
    rewrite !transfers_cons, !existenceChecks_cons. cbn [transferOf checkOf].
    rewrite Hc, Ht. repeat split. now apply sublist_skip.
  - destruct Hrest as [Hc Ht]. subst tail. simpl app.
    rewrite !transfers_cons, !existenceChecks_cons. cbn [transferOf checkOf].
    rewrite Hc, Ht. repeat split. now apply sublist_skip.
  - destruct Htail as [-> | ->]; simpl app;
      rewrite !transfers_cons, !existenceChecks_cons; cbn [transferOf checkOf];
      rewrite Hrest; (split; [|reflexivity]);
      [now apply sublist_cons | now apply sublist_skip].
  - destruct Htail as [-> | ->]; simpl app;
      rewrite !transfers_cons, !existenceChecks_cons; cbn [transferOf checkOf];
      rewrite Hrest; (split; [|reflexivity]);
      [now apply sublist_cons | now apply sublist_skip].
Qed.

(** X16. Without [overwrite], a file whose target the remote side
    reports as existing is not sent: its turn of the loop ends after the
    check, with the error [FileExists] logged against the file and
    counted, and the loop goes on with the files that remain. *)
Theorem existing_target_not_overwritten {W : Type} (host : Host)
    (remote : Remote W) (flatten : bool) (source target fileToCopy : string)
    (rest : list string) (n : nat) (st : TaskState W) (w1 : W) :
  let targetPath := targetPathOf host flatten source target fileToCopy in
  checkRemotePathExists remote targetPath (world st) = (Returned true, w1) ->
  copyLoop host remote flatten false source target (fileToCopy :: rest) n st
  = copyLoop host remote flatten false source target rest (S n)
      {| world := w1; sshHelper := sshHelper st;
         events := events st
                   ++ [ConsoleLog (Loc2 "StartedFileCopy" (Text fileToCopy)
                                     (Text targetPath));
                       SshCheckRemotePathExists targetPath;
                       TlError (Loc2 "FailedOnFile" (Text fileToCopy)
                                  (Loc1 "FileExists" (Text targetPath)))] |}.
Proof.
  intros targetPath Hexists. rewrite copyLoop_step.
  unfold copyFile. fold targetPath. unfold_task. destruct st as [w h ev].
  simpl in *. rewrite Hexists. simpl. now rewrite <- !app_assoc.
Qed.

(** The target of [a.txt] is there already; [b.txt] is still to come. *)
Lemma existing_target_not_overwritten_witness :
  transfers
    (events (copyLoop Sample.tree Sample.sshHelperOf false false "/src" "./drop"
               ["/src/a.txt"; "/src/sub/b.txt"] 0 (initially occupied)).2)
  = [("/src/sub/b.txt", "drop/sub/b.txt")].
Proof.
  rewrite (existing_target_not_overwritten Sample.tree Sample.sshHelperOf false
             "/src" "./drop" "/src/a.txt" ["/src/sub/b.txt"] 0
             (initially occupied) occupied);
    reflexivity.
Defined.

(** X17. No run logs more per-file errors than it has started copies,
    and the count that a run reports is at most the number of selected
    files. *)
Theorem failures_bounded {W : Type} (host : Host) (remote : Remote W)
    (inputs : Inputs) (w : W) :
  let log := events (runTask host remote inputs w).2 in
  countEvents isFileError log <= List.length (startedFiles log)
  /\ failureCountOf host remote inputs w <= List.length (startedFiles log).
Proof.
  intros log. subst log.
  pose proof (run_log host remote inputs w) as H.
  unfold failureCountOf.
  destruct (beforeCopy host remote inputs (initially w)) as [[[s sel]|err] st].
  - destruct H as (P & _ & _ & n & added & Hn & A1 & A2 & A3 & _ & ->).
    pose proof (copyLoop_bound host remote _ _ _ _ _ _ _ _ Hn) as Hbound.
    destruct (copyLoop host remote (flattenFolders s) (overwrite s) (sourceFolder s)
                (targetFolder s) sel 0 st)
      as [r st']. simpl in Hn. subst r.
    rewrite countEvents_app, startedFiles_app.
    rewrite (countEvents_none _ _ _ preparation_not_file_error P),
      (startedFiles_none _ P).
    change (?x :: added ++ ?y :: ?z) with ([x] ++ added ++ [y] ++ z).
    rewrite !countEvents_app, !startedFiles_app, A2, <- A3.
    rewrite !List.length_app. simpl.
    destruct (n =? 0)%nat; unfold countEvents; simpl; lia.
  - destruct H as (P & _ & _ & ->).
    rewrite countEvents_app,
      (countEvents_none _ _ _ preparation_not_file_error P).
    destruct (sshHelper st); unfold countEvents; simpl; lia.
Qed.

(** X18. [tl.setResult] is called at most once in a run: either with
    the error that ended it, or with the number of files that failed. *)
Theorem result_set_at_most_once {W : Type} (host : Host) (remote : Remote W)
    (inputs : Inputs) (w : W) :
  let log := events (runTask host remote inputs w).2 in
  countEvents isSetResultFailed log = (if taskFailed log then 1 else 0).
Proof.
  intros log. subst log.
  pose proof (run_log host remote inputs w) as H.
  destruct (beforeCopy host remote inputs (initially w)) as [[[s sel]|err] st].
  - destruct H as (P & _ & _ & n & added & _ & A1 & _ & _ & _ & ->).
    rewrite countEvents_app, taskFailed_app.
    rewrite (countEvents_none _ _ _ preparation_not_failed P),
      (taskFailed_none _ _ preparation_not_failed P).
    change (?x :: added ++ ?y :: ?z) with ([x] ++ added ++ [y] ++ z).
    rewrite !countEvents_app, !taskFailed_app.
    rewrite (countEvents_none _ _ _ copy_not_failed A1),
      (taskFailed_none _ _ copy_not_failed A1).
    now destruct (n =? 0)%nat.
  - destruct H as (P & _ & _ & ->).
    rewrite countEvents_app, taskFailed_app.
    rewrite (countEvents_none _ _ _ preparation_not_failed P),
      (taskFailed_none _ _ preparation_not_failed P).
    now destruct (sshHelper st).
Qed.

Section ReliableRemote.

Context {W : Type}.
Variable host : Host.
Variable remote : Remote W.

Hypothesis checks_find_nothing :
  forall targetPath w, exists w',
    checkRemotePathExists remote targetPath w = (Returned false, w').
Hypothesis uploads_succeed :
  forall sourcePath targetPath w, exists r w',
    uploadFile remote sourcePath targetPath w = (Returned r, w').

Lemma copyFile_reliable (flatten overwriteAllowed : bool)
    (source target fileToCopy : string) (st : TaskState W) :
  let targetPath := targetPathOf host flatten source target fileToCopy in
  exists w tail,
    copyFile host remote flatten overwriteAllowed source target fileToCopy st
    = (Returned tt,
       {| world := w; sshHelper := sshHelper st;
          events := events st
                    ++ ConsoleLog (Loc2 "StartedFileCopy" (Text fileToCopy)
                                     (Text targetPath))
                       :: tail |})
    /\ transfers tail = [(fileToCopy, targetPath)]
    /\ forallb isCopyEvent tail = true.
Proof.
  intros targetPath. unfold copyFile. fold targetPath. unfold_task.
  destruct st as [w h ev]. simpl.
  destruct overwriteAllowed; simpl.
  - destruct (uploads_succeed fileToCopy targetPath w) as (r & w' & ->). simpl.
    exists w', [SshUploadFile fileToCopy targetPath].
    rewrite <- app_assoc. now repeat split.
  - destruct (checks_find_nothing targetPath w) as (w1 & ->). simpl.
    destruct (uploads_succeed fileToCopy targetPath w1) as (r & w' & ->). simpl.
    exists w', [SshCheckRemotePathExists targetPath;
                SshUploadFile fileToCopy targetPath].
    rewrite <- !app_assoc. now repeat split.
Qed.

Lemma copyLoop_reliable (flatten overwriteAllowed : bool) (source target : string)
    (filesToCopy : list string) (n : nat) (st : TaskState W) :
  exists w added,
    copyLoop host remote flatten overwriteAllowed source target filesToCopy n st
    = (Returned n,
       {| world := w; sshHelper := sshHelper st; events := events st ++ added |})
    /\ transfers added
       = map (fun f => (f, targetPathOf host flatten source target f)) filesToCopy
    /\ forallb isCopyEvent added = true.
Proof.
  revert st. induction filesToCopy as [|f rest IH]; intros st.
  - exists (world st), []. destruct st as [w h ev]. simpl.
    rewrite app_nil_r. now repeat split.
  - rewrite copyLoop_step.
    destruct (copyFile_reliable flatten overwriteAllowed source target f st)
      as (w1 & tail & -> & Ht & Hc).
    edestruct IH as (w' & added & -> & Ha & Hca). simpl.
    exists w',
      (ConsoleLog (Loc2 "StartedFileCopy" (Text f)
                     (Text (targetPathOf host flatten source target f)))
         :: tail ++ added).
    split; [now rewrite <- app_assoc|].
    rewrite transfers_cons, transfers_app, Ht, Ha. cbn [transferOf].
    split; [reflexivity|]. simpl. now rewrite forallb_app, Hc, Hca.
Qed.

End ReliableRemote.

Section QuietFacts.

Lemma preparation_no_transfer (l : list Event) :
  forallb isPreparation l = true -> transfers l = [].
Proof.
  induction l as [|e r IH]; [reflexivity|].
  intros H. simpl in H. apply andb_true_iff in H as [He Hr].
  rewrite transfers_cons, (IH Hr).
  destruct e; try discriminate; reflexivity.
Qed.

End QuietFacts.

(** X19. On a remote side where setting up the connection, the clean-up
    command and every transfer succeed and no target is reported as
    existing, a run with accepted inputs goes one of two ways.  When
    the selection returns, one transfer is attempted for every selected
    file, in the order of the selection and to its target path, and the
    task is not failed.  When the selection throws, the task is failed
    and no copy is started. *)
Theorem reliable_remote_copies_everything {W : Type} (host : Host)
    (remote : Remote W) (inputs : Inputs) (w : W) :
  validInputs host inputs = true ->
  (forall cfg w0, exists w', setupConnection remote cfg w0 = (Returned tt, w')) ->
  (forall command w0, exists out w',
      runCommandOnRemoteMachine remote command w0 = (Returned out, w')) ->
  (forall targetPath w0, exists w',
      checkRemotePathExists remote targetPath w0 = (Returned false, w')) ->
  (forall sourcePath targetPath w0, exists r w',
      uploadFile remote sourcePath targetPath w0 = (Returned r, w')) ->
  let log := events (runTask host remote inputs w).2 in
  exists s st1,
    readInputs host inputs (initially w) = (Returned s, st1)
    /\ match getFilesToCopy host (sourceFolder s) (contents s) with
       | Returned filesToCopy =>
           taskFailed log = false
           /\ transfers log
              = map (fun f =>
                       (f, targetPathOf host (flattenFolders s) (sourceFolder s)
                             (targetFolder s) f))
                  filesToCopy
       | Threw err =>
           taskFailed log = true
           /\ transfers log = []
           /\ startedFiles log = []
       end.
Proof.
  intros Hvalid Hsetup Hcommand Hcheck Hupload log. subst log.
  pose proof (readInputs_valid host inputs (initially w)) as Hv.
  pose proof (run_outcome host remote inputs w) as Hrun.
  destruct (readInputs_log host inputs (initially w)) as (added & Hst & P1).
  destruct (readInputs host inputs (initially w)) as [[s|err] st1];
    simpl in Hv, Hst; [|congruence].
  exists s, st1. split; [reflexivity|].
  destruct (connect_log remote s st1) as (w2 & added2 & Hst2 & P2).
  assert (exists st2, connect remote s st1 = (Returned tt, st2)) as (st2 & Hc).
  { pose proof (connect_cases remote s st1) as Hcases. simpl in Hcases.
    destruct (Hsetup (sshConfig s) (world st1)) as (w1 & E1). rewrite E1 in Hcases.
    destruct (cleanTargetFolder s); [|eauto].
    destruct (Hcommand
                (getCleanTargetFolderCmd (isWindowsOnTarget s) (targetFolder s)) w1)
      as (out & w2' & E2).
    rewrite E2 in Hcases. eauto. }
  rewrite Hc in Hrun, Hst2. simpl in Hst2.
  destruct (getFilesToCopy host (sourceFolder s) (contents s))
    as [filesToCopy|err] eqn:Hsel.
  - destruct Hrun as (st3 & H3 & ->). simpl.
    unfold copyFiles in H3. rewrite Hsel in H3. simpl in H3. unfold_task.
    destruct (copyLoop_reliable host remote Hcheck Hupload (flattenFolders s)
                (overwrite s) (sourceFolder s) (targetFolder s) filesToCopy 0
                {| world := world st2; sshHelper := sshHelper st2;
                   events := events st2
                             ++ [ConsoleLog
                                   (Loc1 "CopyingFiles"
                                      (Count (List.length filesToCopy)))] |})
      as (w3 & added3 & E3 & Ht & Hcopy).
    simpl in H3. rewrite E3 in H3. simpl in H3. injection H3 as <-. simpl.
    rewrite Hst2, Hst. simpl.
    rewrite !taskFailed_app, !transfers_app.
    rewrite (taskFailed_none _ _ preparation_not_failed P1),
      (taskFailed_none _ _ preparation_not_failed P2),
      (preparation_no_transfer _ P1), (preparation_no_transfer _ P2),
      (taskFailed_none _ _ copy_not_failed Hcopy), Ht.
    simpl. now rewrite !app_nil_r.
  - rewrite Hrun. simpl. rewrite Hst2, Hst. simpl.
    rewrite !taskFailed_app, !transfers_app, !startedFiles_app.
    rewrite (preparation_no_transfer _ P1), (preparation_no_transfer _ P2),
      (startedFiles_none _ P1), (startedFiles_none _ P2).
    repeat split. apply orb_true_r.
Qed.

(** The sample tree copied to the obliging remote side. *)
Lemma reliable_remote_copies_everything_witness :
  validInputs Sample.tree (Sample.inputsOf ["**"; "!sub/**"] false) = true
  /\ transfers
       (events (runTask Sample.tree obliging
                  (Sample.inputsOf ["**"; "!sub/**"] false) 0).2)
     = [("/src/.hidden", "drop/.hidden"); ("/src/a.txt", "drop/a.txt")].
Proof.
  split; [reflexivity|].
  destruct (reliable_remote_copies_everything Sample.tree obliging
              (Sample.inputsOf ["**"; "!sub/**"] false) 0)
    as (s & st1 & Hread & H);
    [reflexivity | intros; eexists; reflexivity
    | intros; do 2 eexists; reflexivity
    | intros; eexists; reflexivity
    | intros; do 2 eexists; reflexivity |].
  vm_compute in Hread. injection Hread as <- _.
  destruct H as [_ Ht]. rewrite Ht. reflexivity.
Defined.



(** ** The NuGet mock helper *)

(** X20. When the answers hold both maps, [setAnswers] does not throw
    and hands the caller's own object to the mock runner.  In that
    object the operating system is [Windows_NT] and the two NuGet
    executables exist, whatever the caller had said about them; every
    other entry of the two maps and everything else in the object is as
    the caller left it; a second call changes nothing. *)
Theorem setAnswers_forces_three_entries {T : Type}
    (a : NugetMockHelper.Answers T) (os : gmap string string)
    (ex : gmap string bool) :
  NugetMockHelper.osType a = Some os ->
  NugetMockHelper.exist a = Some ex ->
  let e := NugetMockHelper.setAnswers a in
  NugetMockHelper.threw e = false
  /\ NugetMockHelper.handed e = Some (NugetMockHelper.object e)
  /\ NugetMockHelper.others (NugetMockHelper.object e) = NugetMockHelper.others a
  /\ (exists os' ex',
        NugetMockHelper.osType (NugetMockHelper.object e) = Some os'
        /\ NugetMockHelper.exist (NugetMockHelper.object e) = Some ex'
        /\ os' !! "osType" = Some "Windows_NT"
        /\ ex' !! NugetMockHelper.nugetExe = Some true
        /\ ex' !! NugetMockHelper.credentialProvider = Some true
        /\ (forall k, k <> "osType" -> os' !! k = os !! k)
        /\ (forall k, k <> NugetMockHelper.nugetExe ->
                      k <> NugetMockHelper.credentialProvider ->
                      ex' !! k = ex !! k))
  /\ NugetMockHelper.setAnswers (NugetMockHelper.object e) = e.
Proof.
  intros Hos Hex e. subst e.
  unfold NugetMockHelper.setAnswers, NugetMockHelper.writeOsType,
    NugetMockHelper.writeExist.
  rewrite Hos. simpl. rewrite Hex. simpl.
  split; [reflexivity|]. split; [reflexivity|]. split; [reflexivity|].
  split.
  - do 2 eexists. split; [reflexivity|]. split; [reflexivity|].
    split; [apply lookup_insert_eq|].
    split; [rewrite lookup_insert_ne by discriminate; apply lookup_insert_eq|].
    split; [apply lookup_insert_eq|].
    split.
    + intros k Hk. now apply lookup_insert_ne.
    + intros k Hk1 Hk2. now rewrite !lookup_insert_ne.
  - rewrite insert_insert_eq.
    assert (<[NugetMockHelper.credentialProvider := true]>
              (<[NugetMockHelper.nugetExe := true]>
                 (<[NugetMockHelper.credentialProvider := true]>
                    (<[NugetMockHelper.nugetExe := true]> ex)))
            = <[NugetMockHelper.credentialProvider := true]>
                (<[NugetMockHelper.nugetExe := true]> ex)) as ->; [|reflexivity].
    apply map_eq. intros k. rewrite !lookup_insert.
    repeat case_decide; reflexivity.
Qed.

(** Answers in which the caller denies that [nuget.exe] exists. *)
Lemma setAnswers_forces_three_entries_witness :
  let a := {| NugetMockHelper.osType := Some ∅;
              NugetMockHelper.exist := Some {[ NugetMockHelper.nugetExe := false ]};
              NugetMockHelper.others := tt |} in
  NugetMockHelper.threw (NugetMockHelper.setAnswers a) = false.
Proof.
  intros a.
  destruct (setAnswers_forces_three_entries a ∅ {[ NugetMockHelper.nugetExe := false ]})
    as (H & _); [reflexivity | reflexivity | exact H].
Defined.

(** X21. [setAnswers] throws exactly when the answers lack one of the
    two maps, and then the mock runner is handed nothing.  When only
    the map of existing paths is missing, the caller's object has been
    changed all the same: its operating system is [Windows_NT] by
    then. *)
Theorem setAnswers_needs_both_maps {T : Type} (a : NugetMockHelper.Answers T) :
  let e := NugetMockHelper.setAnswers a in
  NugetMockHelper.threw e
  = match NugetMockHelper.osType a, NugetMockHelper.exist a with
    | Some _, Some _ => false
    | _, _ => true
    end
  /\ (if NugetMockHelper.threw e then NugetMockHelper.handed e = None
      else NugetMockHelper.handed e = Some (NugetMockHelper.object e))
  /\ match NugetMockHelper.osType a, NugetMockHelper.exist a with
     | None, _ => NugetMockHelper.object e = a
     | Some os, None =>
         NugetMockHelper.object e
         = {| NugetMockHelper.osType := Some (<["osType" := "Windows_NT"]> os);
              NugetMockHelper.exist := None;
              NugetMockHelper.others := NugetMockHelper.others a |}
     | Some _, Some _ => True
     end.
Proof.
  intros e. subst e.
  unfold NugetMockHelper.setAnswers, NugetMockHelper.writeOsType,
    NugetMockHelper.writeExist.
  destruct a as [[os|] [ex|] rest]; simpl; repeat split.
Qed.

(** ** Patterns and white space *)

Section TrimFacts.

Lemma trimStart_clean (s : string) :
  match JsString.trimStart s with
  | String c _ => JsString.isWhiteSpace c = false
  | EmptyString => True
  end.
Proof.
  induction s as [|c r IH]; simpl; [exact I|].
  destruct (JsString.isWhiteSpace c) eqn:E; [exact IH|]. simpl. exact E.
Qed.

Lemma trimEnd_idempotent (s : string) :
  JsString.trimEnd (JsString.trimEnd s) = JsString.trimEnd s.
Proof.
  induction s as [|c r IH]; simpl; [reflexivity|].
  destruct (JsString.isWhiteSpace c && JsString.isEmpty (JsString.trimEnd r)) eqn:E;
    [reflexivity|].
  simpl. now rewrite IH, E.
Qed.

Lemma trimStart_trimEnd_clean (s : string) :
  match s with
  | String c _ => JsString.isWhiteSpace c = false
  | EmptyString => True
  end ->
  JsString.trimStart (JsString.trimEnd s) = JsString.trimEnd s.
Proof.
  destruct s as [|c r]; simpl; [reflexivity|].
  intros Hc. rewrite Hc. simpl. now rewrite Hc.
Qed.

Lemma trim_idempotent (s : string) :
  JsString.trim (JsString.trim s) = JsString.trim s.
Proof.
  unfold JsString.trim.
  rewrite (trimStart_trimEnd_clean _ (trimStart_clean s)).
  apply trimEnd_idempotent.
Qed.

End TrimFacts.

(** X22. White space around a pattern plays no role: a pattern list and
    the list of its trimmed patterns are classified alike and select the
    same files, because trimming what is trimmed changes nothing. *)
Theorem surrounding_white_space_ignored (host : Host) (sourceFolder : string)
    (contents : list string) :
  classifyContents host sourceFolder (map JsString.trim contents)
  = classifyContents host sourceFolder contents
  /\ getFilesToCopy host sourceFolder (map JsString.trim contents)
     = getFilesToCopy host sourceFolder contents.
Proof.
  assert (classifyContents host sourceFolder (map JsString.trim contents)
          = classifyContents host sourceFolder contents) as E.
  { unfold classifyContents. f_equal. rewrite map_map.
    apply map_ext. intros p. apply trim_idempotent. }
  split; [exact E|]. unfold getFilesToCopy. now rewrite E.
Qed.

(** ** The clean-up command *)

Section QuoteFacts.

Lemma countChar_append (c : ascii) (s1 s2 : string) :
  countChar c (s1 +:+ s2) = countChar c s1 + countChar c s2.
Proof.
  induction s1 as [|d r IH]; [reflexivity|].
  rewrite append_cons. simpl. rewrite IH. lia.
Qed.

End QuoteFacts.

(** X23. The target folder goes into the clean-up command as it is,
    without any escaping.  The [bash] command holds two single quotes
    more than the folder name, and the Windows command six double
    quotes more than twice those of the folder name; so a quote in the
    folder name ends the quoting early. *)
Theorem cleanup_command_no_escaping (targetFolder : string) :
  countChar "'" (getCleanTargetFolderCmd false targetFolder)
  = 2 + countChar "'" targetFolder
  /\ countChar (ascii_of_nat 34) (getCleanTargetFolderCmd true targetFolder)
     = 6 + 2 * countChar (ascii_of_nat 34) targetFolder.
Proof.
  unfold getCleanTargetFolderCmd. rewrite !countChar_append.
  split; simpl; lia.
Qed.

Section QuotedWord.

Lemma upTo_stop (c : ascii) (s rest : string) :
  upTo c (s +:+ String c rest) = upTo c s.
Proof.
  induction s as [|d r IH]; [simpl; now rewrite Ascii.eqb_refl|].
  rewrite append_cons. simpl. destruct (Ascii.eqb d c); [reflexivity|].
  now rewrite IH.
Qed.

Lemma upTo_whole (c : ascii) (s : string) :
  upTo c s = s <-> countChar c s = 0.
Proof.
  induction s as [|d r IH]; simpl; [tauto|].
  destruct (Ascii.eqb d c); [split; discriminate|].
  rewrite <- IH. split; [now intros [=] | now intros ->].
Qed.

Lemma dropChars_prefix (p rest : string) :
  dropChars (String.length p) (p +:+ rest) = rest.
Proof. induction p as [|c r IH]; [reflexivity | exact IH]. Qed.

End QuotedWord.

(** X29. In the [bash] command the quoted word that stands for the
    folder is the folder exactly when the folder holds no single
    quote; otherwise it is what comes before the first quote of the
    folder. *)
Theorem quoted_folder_read_back (targetFolder : string) :
  quotedFolder (getCleanTargetFolderCmd false targetFolder) = upTo "'" targetFolder
  /\ (quotedFolder (getCleanTargetFolderCmd false targetFolder) = targetFolder
      <-> countChar "'" targetFolder = 0).
Proof.
  assert (quotedFolder (getCleanTargetFolderCmd false targetFolder)
          = upTo "'" targetFolder) as E.
  { unfold quotedFolder, getCleanTargetFolderCmd.
    set (opening := "bash -c " +:+ dq +:+ "rm -rf '").
    rewrite <- (append_assoc dq "rm -rf '"), <- (append_assoc "bash -c ").
    subst opening. rewrite dropChars_prefix.
    change ("'/*" +:+ dq) with (String "'" ("/*" +:+ dq)).
    apply upTo_stop. }
  split; [exact E|]. rewrite E. apply upTo_whole.
Qed.

(** ** The switch [failOnEmptySource] *)

Section FlagFacts.

Context {W : Type}.
Variable host : Host.
Variable remote : Remote W.

Lemma readInputs_flag (inputs : Inputs) (flag : bool) (st : TaskState W) :
  match readInputs host inputs st with
  | (Returned s, st1) =>
      readInputs host (withFailOnEmptySource inputs flag) st
      = (Returned
           {| sshConfig := sshConfig s; contents := contents s;
              sourceFolder := sourceFolder s; targetFolder := targetFolder s;
              cleanTargetFolder := cleanTargetFolder s; overwrite := overwrite s;
              failOnEmptySource := flag; flattenFolders := flattenFolders s;
              isWindowsOnTarget := isWindowsOnTarget s |}, st1)
  | (Threw err, st1) =>
      readInputs host (withFailOnEmptySource inputs flag) st = (Threw err, st1)
  end.
Proof.
  unfold readInputs, withFailOnEmptySource. unfold_task. simpl.
  destruct st as [w h ev].
  split_matches; simpl in *; reflexivity.
Qed.

End FlagFacts.

(** X24. The switch [failOnEmptySource] has no effect: with either
    value a run returns the same outcome, logs the same events and
    leaves the remote side in the same state. *)
Theorem fail_on_empty_source_has_no_effect {W : Type} (host : Host)
    (remote : Remote W) (inputs : Inputs) (flag : bool) (w : W) :
  runTask host remote (withFailOnEmptySource inputs flag) w
  = runTask host remote inputs w.
Proof.
  unfold runTask, run, runBody, tryFinally, tryCatch, mbind, task_bind.
  pose proof (readInputs_flag host inputs flag (initially w)) as H.
  destruct (readInputs host inputs (initially w)) as [[s|err] st1]; rewrite H;
    reflexivity.
Qed.
